(** * journey_binder: the JourneyObject record substrate

    A shallow embedding of [joe/model/base.py] (type-directed coercion,
    validation, encoding, equality and consolidation of dataclass records)
    and of the record types and checks of [joe/model/astro/base.py],
    [joe/model/astro/sat.py], [joe/model/numerical/base.py],
    [joe/model/other.py] and [joe/model/tickets/md.py] that the properties
    below are about.

    Python objects are values of the type [value]; record instances live in a
    heap and are referred to by location, so that identity ([is]) and
    mutation ([setattr]) are those of the program.  Python's standard
    library ([datetime], [json]) stays behind two interfaces, [PyTime] and
    [PyText]. *)

From Stdlib Require Import ZArith List String Ascii Bool Lia Floats.
From Stdlib Require Import Sorting.Sorted Sorting.Permutation.
From Stdlib Require Import DecimalString DecimalN DecimalPos.
Import ListNotations.

Local Open Scope string_scope.
Local Open Scope list_scope.

Set Warnings "-inexact-float,-register-all".

(* ================================================================= *)
(** ** Standard-library interfaces *)

(** [datetime.datetime]: the values, their [==], [isoformat] and
    [fromisoformat] ([None] stands for the [ValueError] of malformed text). *)
Class PyTime := {
  datetime : Type;
  datetime_eqb : datetime -> datetime -> bool;
  datetime_eqb_refl : forall d, datetime_eqb d d = true;
  datetime_eqb_sym : forall d1 d2, datetime_eqb d1 d2 = datetime_eqb d2 d1;
  datetime_eqb_trans : forall d1 d2 d3,
      datetime_eqb d1 d2 = true -> datetime_eqb d2 d3 = true ->
      datetime_eqb d1 d3 = true;
  isoformat : datetime -> string;
  fromisoformat : string -> option datetime;
  fromisoformat_isoformat : forall d, fromisoformat (isoformat d) = Some d
}.

(** A JSON document, the data model of the [json] module. *)
Inductive json : Type :=
| JNull
| JBool (b : bool)
| JInt (z : Z)
| JFloat (f : float)
| JStr (s : string)
| JArr (items : list json)
| JObj (members : list (string * json)).

(* ================================================================= *)
(** ** Python values *)

Definition loc := nat.

Section Values.
Context {T : PyTime}.

(** The objects the engine meets.  [VEnum e m v] is member [m] of the
    enumeration class [e], with [m.value = v]; [VEnumClass e] is the class
    itself; [VRef l] is the record instance at heap location [l]. *)
Inductive value : Type :=
| VNone
| VBool (b : bool)
| VInt (z : Z)
| VFloat (f : float)
| VStr (s : string)
| VList (items : list value)
| VTuple (items : list value)
| VDict (items : list (value * value))
| VDatetime (d : datetime)
| VEnum (enum : string) (member : string) (val : value)
| VEnumClass (enum : string)
| VRef (l : loc).

(** Declared field types, as [typing.get_origin]/[get_args] see them. *)
Inductive pytype : Type :=
| TNone                                   (* NoneType *)
| TBool | TInt | TFloat | TStr | TDatetime
| TList | TTuple | TDict                  (* bare list, tuple, dict *)
| TEnum (enum : string) (members : list (string * value))
                                          (* an Enum class: the names and values
                                             of its members, as iterating the
                                             class gives them *)
| TRecord (cls : string)                  (* a dataclass subclass of JourneyObject *)
| TListOf (args : list pytype)            (* list[...] *)
| TTupleOf (args : list pytype)           (* tuple[...] *)
| TDictOf (key_args value_args : pytype)  (* dict[K, V] *)
| TUnion (args : list pytype).            (* Union[...], X | Y, Optional[X] *)

Fixpoint pytype_eqb (a b : pytype) {struct a} : bool :=
  let fix all2 (xs ys : list pytype) {struct xs} : bool :=
      match xs, ys with
      | [], [] => true
      | x :: xs', y :: ys' => pytype_eqb x y && all2 xs' ys'
      | _, _ => false
      end in
  match a, b with
  | TNone, TNone | TBool, TBool | TInt, TInt | TFloat, TFloat
  | TStr, TStr | TDatetime, TDatetime
  | TList, TList | TTuple, TTuple | TDict, TDict => true
  | TEnum e1 _, TEnum e2 _ => String.eqb e1 e2
  | TRecord c1, TRecord c2 => String.eqb c1 c2
  | TListOf xs, TListOf ys => all2 xs ys
  | TTupleOf xs, TTupleOf ys => all2 xs ys
  | TDictOf k1 v1, TDictOf k2 v2 => pytype_eqb k1 k2 && pytype_eqb v1 v2
  | TUnion xs, TUnion ys => all2 xs ys
  | _, _ => false
  end.

(** [t in expected_types]. *)
Definition type_in (t : pytype) (expected_types : list pytype) : bool :=
  existsb (pytype_eqb t) expected_types.

(** Exceptions.  The message of a [JourneyUserInputException] is an
    f-string; the embedding keeps the values the text is formatted from.
    [TriedAll] and [TriedMembers] are the message of the last case of
    [deserialize_simple_var]: the expected types were a tuple of types, or
    an enumeration class, whose members were tried as if they were types.
    [LengthMismatch] is the message of the tuple branch of [deserialize_var]:
    the inbound variable and the types.  [FixedLength] is the message of the
    subclass [JUIFixedLengthError], formatted from an expected length and an
    argument whose length it gives; [check_iterable_typing] raises it, the
    coercion engine does not. *)
Inductive jmessage (E : Type) : Type :=
| FieldFailed (tag : string) (cls : string) (varname : string)
              (inbound_var : value) (expected_types : list pytype) (note : string)
| TriedAll (cls : string) (varname : string)
           (inbound_var : value) (expected_types : list pytype)
           (caught_type_exception_pairs : list (pytype * E))
| TriedMembers (cls : string) (varname : string)
               (inbound_var : value) (expected_types : pytype)
               (caught_type_exception_pairs : list (value * E))
| LengthMismatch (inbound_var : value) (interior_expected_types : list pytype)
| FixedLength (parameter_name : string) (expected_length : nat)
              (given_arg : value)
| ExpectedButGot (kind : string) (inbound_var : value)
| UnidentifiedStructure.

Arguments FieldFailed {E}.
Arguments TriedAll {E}.
Arguments TriedMembers {E}.
Arguments LengthMismatch {E}.
Arguments FixedLength {E}.
Arguments ExpectedButGot {E}.
Arguments UnidentifiedStructure {E}.

Inductive exn : Type :=
| JourneyUserInputException (parameter_name : string) (message : jmessage exn)
| TypeError (msg : string)
| ValueError (msg : string)
| OverflowError (msg : string)
| AttributeError (msg : string)
| AssertionError (msg : string) (args : list value).

(** A record instance: its class and its attributes, in field order. *)
Record obj : Type := mk_obj {
  obj_class : string;
  obj_fields : list (string * value)
}.

(** The second argument of [consolidate_family_tree]: the list object that
    is its default value, or a list the caller made. *)
Inductive registry : Type :=
| DefaultList
| CallerList (i : nat).

(** The process: the instances, the default argument [all_joe_objs = []]
    (one list, made when the method is defined), the caller's lists and
    the warnings given so far. *)
Record state : Type := mk_state {
  heap : list obj;
  all_joe_objs : list loc;
  caller_lists : list (list loc);
  warnings : list string
}.

Definition empty_state : state := mk_state [] [] [] [].

End Values.

Arguments FieldFailed {T E}.
Arguments TriedAll {T E}.
Arguments TriedMembers {T E}.
Arguments LengthMismatch {T E}.
Arguments FixedLength {T E}.
Arguments ExpectedButGot {T E}.
Arguments UnidentifiedStructure {T E}.

(** [str(v)], [repr] of a float (the text [json.dumps] gives a float used as
    a mapping key), and [json.dumps] and [json.loads] on documents. *)
Class PyText {T : PyTime} := {
  py_str : value -> string;
  float_repr : float -> string;
  dumps : json -> string;
  loads : string -> option json;
  loads_dumps : forall d, loads (dumps d) = Some d
}.

(* ================================================================= *)
(** ** Outcomes and the state monad *)

(** What running a piece of the program gives: a result, an exception, or
    no answer ([Diverge]).  There is no answer when the recursion went
    deeper than the bound, and when the answer of the program hangs on what
    the embedding does not hold: whether two NaN floats are one object (see
    [value_eqb]), and what [in] answers on an enumeration class, which
    differs between versions of Python (see [bare_type]). *)
Inductive outcome {T : PyTime} (A : Type) : Type :=
| Ok (a : A)
| Raise (e : exn)
| Diverge.

Arguments Ok {T A}.
Arguments Raise {T A}.
Arguments Diverge {T A}.

Definition M {T : PyTime} (A : Type) : Type := state -> outcome A * state.

Definition ret {T : PyTime} {A} (a : A) : M A := fun s => (Ok a, s).
Definition raise {T : PyTime} {A} (e : exn) : M A := fun s => (Raise e, s).
Definition diverge {T : PyTime} {A} : M A := fun s => (Diverge, s).

Definition bind {T : PyTime} {A B} (m : M A) (k : A -> M B) : M B :=
  fun s => match m s with
           | (Ok a, s') => k a s'
           | (Raise e, s') => (Raise e, s')
           | (Diverge, s') => (Diverge, s')
           end.

Declare Scope py_scope.
Delimit Scope py_scope with py.
Notation "x <- m ;; k" := (bind m (fun x => k))
  (at level 61, m at next level, right associativity) : py_scope.
Notation "m ;;; k" := (bind m (fun _ => k))
  (at level 61, right associativity) : py_scope.
Local Open Scope py_scope.

(** A pure computation that may raise or diverge, run in the monad. *)
Definition lift {T : PyTime} {A} (o : outcome A) : M A := fun s => (o, s).

(** [for x in xs: body(x)], and the list comprehension [[f(x) for x in xs]]. *)
Fixpoint for_each {T : PyTime} {A} (f : A -> M unit) (xs : list A) : M unit :=
  match xs with
  | [] => ret tt
  | x :: xs' => f x ;;; for_each f xs'
  end.

Fixpoint map_m {T : PyTime} {A B} (f : A -> M B) (xs : list A) : M (list B) :=
  match xs with
  | [] => ret []
  | x :: xs' => y <- f x ;; ys <- map_m f xs' ;; ret (y :: ys)
  end.

Definition get_state {T : PyTime} : M state := fun s => (Ok s, s).
Definition put_state {T : PyTime} (s : state) : M unit := fun _ => (Ok tt, s).

(* ================================================================= *)
(** ** Numbers *)

(** The number a [bool], [int] or [float] denotes, in a canonical form:
    Python compares numbers of different types by exact value. *)
Inductive number : Type :=
| NumNaN
| NumInf (negative : bool)
| NumZero
| NumFin (negative : bool) (odd_mantissa : positive) (exponent : Z).
   (* (-1)^negative * odd_mantissa * 2^exponent *)

Fixpoint strip_twos (m : positive) (e : Z) {struct m} : positive * Z :=
  match m with
  | xO m' => strip_twos m' (e + 1)
  | _ => (m, e)
  end.

Definition number_of_parts (negative : bool) (m : positive) (e : Z) : number :=
  let (m', e') := strip_twos m e in NumFin negative m' e'.

Definition number_of_Z (z : Z) : number :=
  match z with
  | Z0 => NumZero
  | Zpos p => number_of_parts false p 0
  | Zneg p => number_of_parts true p 0
  end.

Definition number_of_float (f : float) : number :=
  match Prim2SF f with
  | S754_zero _ => NumZero
  | S754_infinity s => NumInf s
  | S754_nan => NumNaN
  | S754_finite s m e => number_of_parts s m e
  end.

Definition number_eqb (a b : number) : bool :=
  match a, b with
  | NumInf s1, NumInf s2 => Bool.eqb s1 s2
  | NumZero, NumZero => true
  | NumFin s1 m1 e1, NumFin s2 m2 e2 =>
      Bool.eqb s1 s2 && Pos.eqb m1 m2 && Z.eqb e1 e2
  | _, _ => false
  end.

(** [a <= b] on numbers; a NaN is below and above nothing. *)
Definition signed_mantissa (negative : bool) (m : positive) : Z :=
  if negative then Zneg m else Zpos m.

Definition number_leb (a b : number) : bool :=
  match a, b with
  | NumNaN, _ | _, NumNaN => false
  | NumInf true, _ => true
  | _, NumInf false => true
  | NumInf false, _ => false
  | _, NumInf true => false
  | NumZero, NumZero => true
  | NumZero, NumFin s _ _ => negb s
  | NumFin s _ _, NumZero => s
  | NumFin s1 m1 e1, NumFin s2 m2 e2 =>
      let e := Z.min e1 e2 in
      (signed_mantissa s1 m1 * 2 ^ (e1 - e) <=? signed_mantissa s2 m2 * 2 ^ (e2 - e))%Z
  end.

(** [float(z)] for an [int]: the nearest binary64 value, or [OverflowError]. *)
Definition float_of_Z (z : Z) : option float :=
  let f := SF2Prim (binary_normalize 53 1024 z 0 false) in
  if PrimFloat.is_infinity f then None else Some f.

(** [str(i)] for an index. *)
Definition string_of_nat (n : nat) : string :=
  NilZero.string_of_uint (Nat.to_uint n).

Definition string_of_Z (z : Z) : string :=
  NilZero.string_of_int (Z.to_int z).

(* ================================================================= *)
(** ** Equality of values: Python's [==] *)

Section Equality.
Context {T : PyTime}.

Definition number_of_value (v : value) : option number :=
  match v with
  | VBool b => Some (number_of_Z (if b then 1 else 0))
  | VInt z => Some (number_of_Z z)
  | VFloat f => Some (number_of_float f)
  | _ => None
  end.

Definition and_then (a : option bool) (b : option bool) : option bool :=
  match a with
  | Some true => b
  | other => other
  end.

(** [k in ys and v == ys[k]], for a key [k] and a value [v] of the left
    mapping: [key_eqb] is [k == _] and [val_eqb] is [v == _]. *)
Fixpoint lookup_eqb (key_eqb val_eqb : value -> option bool)
         (ys : list (value * value)) : option bool :=
  match ys with
  | [] => Some false
  | (k', v') :: ys' =>
      match key_eqb k' with
      | Some true => val_eqb v'
      | Some false => lookup_eqb key_eqb val_eqb ys'
      | None => None
      end
  end.

(** Two sequences, item by item, up to the first difference. *)
Fixpoint items_eqb (eqb : value -> value -> option bool) (xs ys : list value)
  : option bool :=
  match xs, ys with
  | [], [] => Some true
  | x :: xs', y :: ys' => and_then (eqb x y) (items_eqb eqb xs' ys')
  | _, _ => Some false
  end.

(** Every item of the left mapping is in the right one, with an equal value. *)
Fixpoint dict_eqb (eqb : value -> value -> option bool)
         (xs ys : list (value * value)) : option bool :=
  match xs with
  | [] => Some true
  | (k, v) :: xs' =>
      and_then (lookup_eqb (eqb k) (eqb v) ys) (dict_eqb eqb xs' ys)
  end.

(** [x is y or x == y], the comparison of two items of a tuple, of a list
    or of a mapping: the one that the [__eq__] of a dataclass, [==] on a
    list and the lookup of a key make.  [deref a b] compares the two record
    instances at distinct locations [a] and [b]; [None] is no answer.  A
    list or a tuple is compared item by item, a mapping key by key, an
    enumeration member and an enumeration class by identity.

    Of the values other than records, only a NaN is unequal to itself, so
    that [is] matters for two NaN only: they are equal items when they are
    one float object (as in two records built from one mapping) and unequal
    when they are two.  A [value] does not tell which: two NaN have no
    answer. *)
Fixpoint value_eqb (deref : loc -> loc -> option bool) (x y : value)
  {struct x} : option bool :=
  match x, y with
  | VNone, VNone => Some true
  | VBool _, _ | VInt _, _ | VFloat _, _ =>
      match number_of_value x, number_of_value y with
      | Some NumNaN, Some NumNaN => None
      | Some a, Some b => Some (number_eqb a b)
      | _, _ => Some false
      end
  | VStr s1, VStr s2 => Some (String.eqb s1 s2)
  | VList xs, VList ys => items_eqb (value_eqb deref) xs ys
  | VTuple xs, VTuple ys => items_eqb (value_eqb deref) xs ys
  | VDict xs, VDict ys =>
      if Nat.eqb (List.length xs) (List.length ys)
      then dict_eqb (value_eqb deref) xs ys else Some false
  | VDatetime d1, VDatetime d2 => Some (datetime_eqb d1 d2)
  | VEnum e1 m1 _, VEnum e2 m2 _ => Some (String.eqb e1 e2 && String.eqb m1 m2)
  | VEnumClass e1, VEnumClass e2 => Some (String.eqb e1 e2)
  | VRef a, VRef b => if Nat.eqb a b then Some true else deref a b
  | _, _ => Some false
  end.

(** The tuples of attributes of two instances of one class, compared as
    tuples are: item by item, up to the first difference. *)
Fixpoint fields_eqb (deref : loc -> loc -> option bool)
         (xs ys : list (string * value)) : option bool :=
  match xs, ys with
  | [], [] => Some true
  | (_, x) :: xs', (_, y) :: ys' =>
      and_then (value_eqb deref x y) (fields_eqb deref xs' ys')
  | _, _ => Some false
  end.

(** The [__eq__] that [@dataclass] gives a class which has none in its own
    body -- every record type of the repository:
    [if other.__class__ is self.__class__: return (self.f1, ...) == (other.f1, ...)],
    else [NotImplemented], which makes [==] fall back on identity.  The
    tuples are compared item by item with [is] before [==]
    ([fields_eqb]), so that an instance is equal to itself, to an instance
    that holds the same instances, and -- where [value_eqb] has no answer --
    to an instance that shares a NaN object with it.  (Later versions of
    the [dataclasses] module compare the attributes one by one instead of
    the two tuples; the answers are the same on instances that hold no
    NaN, which is where the properties below are stated.) *)
Definition dataclass_eq_step (deref : loc -> loc -> option bool)
           (h : list obj) (self other : loc) : option bool :=
  if Nat.eqb self other then Some true else
  match nth_error h self, nth_error h other with
  | Some a, Some b =>
      if String.eqb (obj_class a) (obj_class b)
      then fields_eqb deref (obj_fields a) (obj_fields b)
      else Some false
  | _, _ => Some false
  end.

Fixpoint dataclass_eq (fuel : nat) (h : list obj) (self other : loc)
  : option bool :=
  match fuel with
  | O => None
  | S fuel' => dataclass_eq_step (dataclass_eq fuel' h) h self other
  end.

(** The comparison of a number that is not a NaN has an answer. *)
Lemma number_of_parts_not_nan (negative : bool) (m : positive) (e : Z) :
  number_of_parts negative m e <> NumNaN.
Proof. unfold number_of_parts. now destruct (strip_twos m e). Qed.

Lemma number_of_Z_not_nan (z : Z) : number_of_Z z <> NumNaN.
Proof. destruct z; [easy | apply number_of_parts_not_nan ..]. Qed.

Lemma number_of_float_not_nan (f : float) :
  PrimFloat.is_nan f = false -> number_of_float f <> NumNaN.
Proof.
  intros N. unfold number_of_float, Prim2SF. rewrite N.
  destruct (PrimFloat.is_zero f); [easy|].
  destruct (PrimFloat.is_infinity f); [easy|].
  destruct (Z.frexp f) as [r exp].
  destruct (shr_fexp _ _ _ _ _) as [shr e'].
  destruct (shr_m shr); [easy | apply number_of_parts_not_nan | easy].
Qed.

Lemma number_of_float_nan (f : float) :
  PrimFloat.is_nan f = true -> number_of_float f = NumNaN.
Proof. intros N. unfold number_of_float, Prim2SF. now rewrite N. Qed.

(** The value is not a NaN. *)
Definition not_nan (v : value) : bool :=
  match v with
  | VFloat f => negb (PrimFloat.is_nan f)
  | _ => true
  end.

Lemma number_of_value_not_nan (v : value) (a : number) :
  not_nan v = true -> number_of_value v = Some a -> a <> NumNaN.
Proof.
  destruct v; try discriminate; cbn; intros N [= <-];
    try apply number_of_Z_not_nan.
  apply number_of_float_not_nan. now apply negb_true_iff in N.
Qed.

Lemma value_eqb_number (deref : loc -> loc -> option bool) (x y : value)
      (a : number) :
  number_of_value x = Some a -> a <> NumNaN ->
  value_eqb deref x y
  = match number_of_value y with
    | Some b => Some (number_eqb a b)
    | None => Some false
    end.
Proof.
  destruct x; try discriminate; cbn [value_eqb number_of_value];
    intros [= <-] N;
    match goal with
    | |- match ?a with _ => _ end = _ => destruct a; try reflexivity; easy
    end.
Qed.

End Equality.

(* ================================================================= *)
(** ** Record types and the process state *)

Section Engine.
Context {T : PyTime} {X : PyText}.

(** A [validate_*] method: it reads the instance and returns, or raises. *)
Definition validator : Type := list obj -> loc -> outcome unit.

(** A dataclass field ([dataclasses.fields]): name, declared type, default. *)
Record field_def : Type := mk_field {
  f_name : string;
  f_type : pytype;
  f_default : option value
}.

(** A record type: a [@dataclass] subclass of [JourneyObject].  [c_fields]
    are its fields in order, the three of the base class first;
    [c_validators] are its [validate_*] methods as the class body declares
    them. *)
Record class_def : Type := mk_class {
  c_name : string;
  c_fields : list field_def;
  c_validators : list (string * validator)
}.

(** [JourneyObject.__subclasses__()]. *)
Variable classes : list class_def.

Definition find_class (name : string) : option class_def :=
  find (fun c => String.eqb (c_name c) name) classes.

(** [t in JourneyObject.__subclasses__()]. *)
Definition is_subclass (t : pytype) : option class_def :=
  match t with
  | TRecord c => find_class c
  | _ => None
  end.

Definition get_heap : M (list obj) := fun s => (Ok (heap s), s).

Definition get_registry (r : registry) : M (list loc) :=
  fun s => (Ok match r with
               | DefaultList => all_joe_objs s
               | CallerList i => nth i (caller_lists s) []
               end, s).

Fixpoint update_nth {A} (n : nat) (f : A -> A) (xs : list A) : list A :=
  match xs, n with
  | [], _ => []
  | x :: xs', O => f x :: xs'
  | x :: xs', S n' => x :: update_nth n' f xs'
  end.

(** [all_joe_objs.append(l)]. *)
Definition registry_append (r : registry) (l : loc) : M unit :=
  fun s => (Ok tt,
            match r with
            | DefaultList =>
                mk_state (heap s) (all_joe_objs s ++ [l]) (caller_lists s) (warnings s)
            | CallerList i =>
                mk_state (heap s) (all_joe_objs s)
                         (update_nth i (fun L => L ++ [l]) (caller_lists s))
                         (warnings s)
            end).

(** A new instance; its location is its identity. *)
Definition allocate (o : obj) : M loc :=
  fun s => (Ok (List.length (heap s)),
            mk_state (heap s ++ [o]) (all_joe_objs s) (caller_lists s) (warnings s)).

Fixpoint assoc {A} (name : string) (kvs : list (string * A)) : option A :=
  match kvs with
  | [] => None
  | (k, v) :: kvs' => if String.eqb k name then Some v else assoc name kvs'
  end.

Fixpoint assoc_set {A} (name : string) (v : A) (kvs : list (string * A))
  : list (string * A) :=
  match kvs with
  | [] => []
  | (k, v') :: kvs' =>
      if String.eqb k name then (k, v) :: kvs' else (k, v') :: assoc_set name v kvs'
  end.

Definition field_of (h : list obj) (self : loc) (name : string) : option value :=
  match nth_error h self with
  | Some o => assoc name (obj_fields o)
  | None => None
  end.

(** [getattr(self, name)]. *)
Definition getattr (self : loc) (name : string) : M value :=
  fun s => match field_of (heap s) self name with
           | Some v => (Ok v, s)
           | None => (Raise (AttributeError name), s)
           end.

(** [setattr(self, name, v)] on an instance that has the attribute. *)
Definition setattr (self : loc) (name : string) (v : value) : M unit :=
  fun s => (Ok tt,
            mk_state
              (update_nth self
                 (fun o => mk_obj (obj_class o) (assoc_set name v (obj_fields o)))
                 (heap s))
              (all_joe_objs s) (caller_lists s) (warnings s)).

(** [warnings.warn(text)]. *)
Definition warn (text : string) : M unit :=
  fun s => (Ok tt,
            mk_state (heap s) (all_joe_objs s) (caller_lists s) (warnings s ++ [text])).

(* ================================================================= *)
(** ** Type Signature Resolver: [decompose_type] *)

Inductive structure : Type := OfList | OfTuple | OfDict.

(** [decompose_type(obj_type)]: the exterior data structure ([None] when
    there is none) and the interior expected types. *)
Definition decompose_type (obj_type : pytype) : option structure * list pytype :=
  match obj_type with
  | TListOf args => (Some OfList, args)
  | TTupleOf args => (Some OfTuple, args)
  | TDictOf key_args value_args => (Some OfDict, [key_args; value_args])
  | TUnion args => (None, args)
  | TList => (Some OfList, [])
  | TTuple => (Some OfTuple, [])
  | TDict => (Some OfDict, [])
  | _ => (None, [obj_type])
  end.

(** [isinstance(v, t)] for a class [t]; a record instance is an instance of
    its own class (no record type of the repository derives from another). *)
Definition isinstance (h : list obj) (v : value) (t : pytype) : bool :=
  match t, v with
  | TNone, VNone => true
  | TBool, VBool _ => true
  | TInt, VInt _ | TInt, VBool _ => true
  | TFloat, VFloat _ => true
  | TStr, VStr _ => true
  | TDatetime, VDatetime _ => true
  | TList, VList _ => true
  | TTuple, VTuple _ => true
  | TDict, VDict _ => true
  | TEnum e _, VEnum e' _ _ => String.eqb e e'
  | TRecord c, VRef l =>
      match nth_error h l with
      | Some o => String.eqb (obj_class o) c
      | None => false
      end
  | _, _ => false
  end.

(** [expected_types[0]._value2member_map_]: the member whose value is the
    text [s], if any. *)
Fixpoint value2member (enum : string) (members : list (string * value))
         (s : string) : option value :=
  match members with
  | [] => None
  | (m, v) :: members' =>
      match v with
      | VStr s' => if String.eqb s' s then Some (VEnum enum m v)
                   else value2member enum members' s
      | _ => value2member enum members' s
      end
  end.

Definition type_repr (t : pytype) : string :=
  match t with
  | TInt => "<class 'int'>"
  | TFloat => "<class 'float'>"
  | TBool => "<class 'bool'>"
  | _ => "<class>"
  end.

(** [outtype(var)] for the two casts [_warncast] is asked for. *)
Definition cast (outtype : pytype) (var : value) : M value :=
  match outtype, var with
  | TFloat, VInt z =>
      match float_of_Z z with
      | Some f => ret (VFloat f)
      | None => raise (OverflowError "int too large to convert to float")
      end
  | TFloat, VBool b => ret (VFloat (if b then 1%float else 0%float))
  | TBool, VInt z => ret (VBool (negb (Z.eqb z 0)))
  | TBool, VBool b => ret (VBool b)
  | _, _ => raise (TypeError "cast")
  end.

(** [_warncast(varname, var, intype, outtype)]. *)
Definition _warncast (varname : string) (var : value) (intype outtype : pytype)
  : M value :=
  warn ("Casting " ++ varname ++ " from " ++ type_repr intype ++ " to "
          ++ type_repr outtype ++ ".") ;;;
  cast outtype var.

(* ================================================================= *)
(** ** Value Coercion Engine *)

(** The third argument of [deserialize_simple_var]: a tuple of types, or --
    as the mapping branch of [deserialize_var] passes it -- a type object. *)
Inductive expected : Type :=
| Types (expected_types : list pytype)
| BareType (t : pytype).

(** The methods that call one another, as the method under definition sees
    them: every call goes one level deeper. *)
Record engine : Type := mk_engine {
  rec_simple : string -> string -> value -> expected -> M value;
  rec_var : string -> string -> value -> option structure -> list pytype -> M value;
  rec_new : string -> list (value * value) -> M value;
  rec_consolidate : loc -> registry -> M loc
}.

Definition field_error (tag self_cls varname : string) (inbound_var : value)
           (expected_types : list pytype) (note : string) : exn :=
  JourneyUserInputException varname
    (FieldFailed tag self_cls varname inbound_var expected_types note).

(** The body of [try:] for one expected type, in the last case of
    [deserialize_simple_var]. *)
Definition try_expected_type (rec : engine) (self_cls varname : string)
           (inbound_var : value) (expected_types : list pytype)
           (expected_type : pytype) : M value :=
  let (exterior_data_structure, interior_expected_types) :=
    decompose_type expected_type in
  match exterior_data_structure, interior_expected_types with
  | None, [t] =>
      h <- get_heap ;;
      if isinstance h inbound_var t then ret inbound_var
      else raise (field_error "" self_cls varname inbound_var expected_types "")
  | _, _ =>
      rec_var rec self_cls varname inbound_var
              exterior_data_structure interior_expected_types
  end.

(** [for expected_type in expected_types: try: ... except Exception as e:
    caught_type_exception_pairs.append((expected_type, e))], then the final
    [raise]. *)
Fixpoint try_all (rec : engine) (self_cls varname : string)
         (inbound_var : value) (expected_types : list pytype)
         (remaining : list pytype)
         (caught_type_exception_pairs : list (pytype * exn)) : M value :=
  match remaining with
  | [] =>
      raise (JourneyUserInputException varname
               (TriedAll self_cls varname inbound_var expected_types
                         caught_type_exception_pairs))
  | expected_type :: remaining' =>
      fun s =>
        match try_expected_type rec self_cls varname inbound_var
                                expected_types expected_type s with
        | (Ok v, s') => (Ok v, s')
        | (Raise e, s') =>
            try_all rec self_cls varname inbound_var expected_types remaining'
                    (caught_type_exception_pairs ++ [(expected_type, e)]) s'
        | (Diverge, s') => (Diverge, s')
        end
  end.

Definition uniform (expected_types : list pytype) : option pytype :=
  match expected_types with
  | [t] => Some t
  | _ => None
  end.

(** [case int() if not int in expected_types]. *)
Definition int_not_expected (self_cls varname : string) (inbound_var : value)
           (expected_types : list pytype) : M value :=
  match uniform expected_types with
  | Some TFloat => _warncast varname inbound_var TInt TFloat
  | Some TBool => _warncast varname inbound_var TInt TBool
  | _ => raise (field_error "" self_cls varname inbound_var expected_types "")
  end.

(** [case float() if not float in expected_types].  The call
    [self._warncast(varname, float, int)] gives three arguments to a method of
    four parameters. *)
Definition float_not_expected (self_cls varname : string) (inbound_var : value)
           (expected_types : list pytype) : M value :=
  match uniform expected_types with
  | Some TInt =>
      raise (TypeError
               "_warncast() missing 1 required positional argument: 'outtype'")
  | _ => raise (field_error "" self_cls varname inbound_var expected_types "")
  end.

(** [case str() if not str in expected_types]. *)
Definition str_not_expected (self_cls varname : string) (s : string)
           (expected_types : list pytype) : M value :=
  match uniform expected_types with
  | Some TDatetime =>
      match fromisoformat s with
      | Some d => ret (VDatetime d)
      | None => raise (ValueError "Invalid isoformat string")
      end
  | Some (TEnum enum members) =>
      match value2member enum members s with
      | Some member => ret member
      | None =>
          raise (field_error "" self_cls varname (VStr s) expected_types
                   "Notably, it appears the string provided is not a member of the Enum targeted.")
      end
  | _ => ret (VStr s)   (* assumed unique ID of JOE Object *)
  end.

(** [case dict()]: the first expected type that is a record type builds the
    record from the mapping. *)
Fixpoint first_subclass (expected_types : list pytype) : option class_def :=
  match expected_types with
  | [] => None
  | t :: rest =>
      match is_subclass t with
      | Some cd => Some cd
      | None => first_subclass rest
      end
  end.

(** [deserialize_simple_var] when [expected_types] is one type object and
    not a tuple of types.  Its first statement takes [len(expected_types)].

    A class has no [len()]: [TypeError].

    An enumeration class has one, the number of its members.  The guards
    [T in expected_types] are then the membership test of the enumeration
    class, which raises [TypeError] for what is no member up to Python 3.11
    and looks among the values of the members from Python 3.12: there is no
    answer for the inbound
    values whose case has such a guard ([None], a [bool], an [int], a
    [float], a [str], a [list], a [dict], a [datetime]).  A record instance
    and an enumeration class are returned by their cases, which have no
    guard.  A tuple and an enumeration member reach the last case, where the
    [for] runs over the members of the class: a member [m] is decomposed
    into [(None, (m,))], [isinstance(inbound_var, (m,))] raises [TypeError],
    which is caught, and the final exception reports every member.

    A parameterised type, a union and [None] (the key of [dict[None, V]])
    have no [len()] either; the text of the [TypeError] names the class of
    the object, which the declared type as [get_args] gives it does not
    tell ([list[int]] or [typing.List[int]], [X | Y] or [Union[X, Y]],
    [None] or [NoneType]): no answer. *)
Definition bare_type (self_cls varname : string) (inbound_var : value)
           (expected_types : pytype) : M value :=
  match expected_types with
  | TBool | TInt | TFloat | TStr | TDatetime | TList | TTuple | TDict
  | TRecord _ =>
      raise (TypeError "object of type 'type' has no len()")
  | TEnum enum members =>
      match inbound_var with
      | VRef _ | VEnumClass _ => ret inbound_var
      | VTuple _ | VEnum _ _ _ =>
          raise (JourneyUserInputException varname
                   (TriedMembers self_cls varname inbound_var expected_types
                      (map (fun m =>
                              (VEnum enum (fst m) (snd m),
                               TypeError "isinstance() arg 2 must be a type, a tuple of types, or a union"))
                           members)))
      | _ => diverge
      end
  | TNone | TListOf _ | TTupleOf _ | TDictOf _ _ | TUnion _ => diverge
  end.

(** [deserialize_simple_var(self, varname, inbound_var, expected_types)]. *)
Definition deserialize_simple_var_step (rec : engine) (self_cls varname : string)
           (inbound_var : value) (expected_arg : expected) : M value :=
  match expected_arg with
  | BareType t => bare_type self_cls varname inbound_var t
  | Types expected_types =>
      let fallback :=
        try_all rec self_cls varname inbound_var expected_types expected_types [] in
      match inbound_var with
      | VNone =>
          if type_in TNone expected_types then ret inbound_var else fallback
      | VBool _ =>
          if type_in TBool expected_types then ret inbound_var
          else if type_in TInt expected_types then ret inbound_var
          else int_not_expected self_cls varname inbound_var expected_types
      | VInt _ =>
          if type_in TInt expected_types then ret inbound_var
          else int_not_expected self_cls varname inbound_var expected_types
      | VFloat _ =>
          if type_in TFloat expected_types then ret inbound_var
          else float_not_expected self_cls varname inbound_var expected_types
      | VStr s =>
          if type_in TStr expected_types then ret inbound_var
          else str_not_expected self_cls varname s expected_types
      | VList _ =>
          if type_in TList expected_types then ret inbound_var else fallback
      | VDict items =>
          if type_in TDict expected_types then ret inbound_var
          else match first_subclass expected_types with
               | Some cd => rec_new rec (c_name cd) items
               | None =>
                   raise (field_error "DICT:" self_cls varname inbound_var
                                      expected_types "")
               end
      | VRef _ => ret inbound_var
      | VDatetime _ =>
          if type_in TDatetime expected_types then ret inbound_var else fallback
      | VEnumClass _ => ret inbound_var
      | VTuple _ | VEnum _ _ _ => fallback
      end
  end.

(** [[f(i, x) for i, x in enumerate(xs)]]. *)
Fixpoint map_enumerate {A B} (f : nat -> A -> M B) (i : nat) (xs : list A)
  : M (list B) :=
  match xs with
  | [] => ret []
  | x :: xs' => y <- f i x ;; ys <- map_enumerate f (S i) xs' ;; ret (y :: ys)
  end.

Definition element_name (varname : string) (i : nat) : string :=
  varname ++ "_" ++ string_of_nat i.

(** [type(v).__name__]; an enumeration class has no answer (its metaclass
    was renamed in Python 3.11). *)
Definition type_name (h : list obj) (v : value) : option string :=
  match v with
  | VNone => Some "NoneType"
  | VBool _ => Some "bool"
  | VInt _ => Some "int"
  | VFloat _ => Some "float"
  | VStr _ => Some "str"
  | VList _ => Some "list"
  | VTuple _ => Some "tuple"
  | VDict _ => Some "dict"
  | VDatetime _ => Some "datetime.datetime"
  | VEnum enum _ _ => Some enum
  | VEnumClass _ => None
  | VRef l =>
      match nth_error h l with
      | Some o => Some (obj_class o)
      | None => None
      end
  end.

Definition double_quote : string := String (ascii_of_nat 34) EmptyString.

(** The value of an item of a mapping with declared types:
    [self.deserialize_var(value+'_value_'+str(value), value,
    interior_expected_types[1])].  The first argument adds a text to the
    value, which raises [TypeError] unless the value is a text; the call then
    gives three arguments to a method of four parameters, which raises
    [TypeError] too. *)
Definition mapping_value (val : value) : M value :=
  match val with
  | VStr _ =>
      raise (TypeError
               "deserialize_var() missing 1 required positional argument: 'interior_expected_types'")
  | VList _ | VTuple _ =>
      h <- get_heap ;;
      match type_name h val with
      | Some name =>
          raise (TypeError ("can only concatenate " ++ name ++ " (not "
                              ++ double_quote ++ "str" ++ double_quote
                              ++ ") to " ++ name))
      | None => diverge
      end
  | _ =>
      h <- get_heap ;;
      match type_name h val with
      | Some name =>
          raise (TypeError ("unsupported operand type(s) for +: '" ++ name
                              ++ "' and 'str'"))
      | None => diverge
      end
  end.

(** [deserialize_var(self, varname, inbound_var, exterior_data_structure,
    interior_expected_types)]. *)
Definition deserialize_var_step (rec : engine) (self_cls varname : string)
           (inbound_var : value) (exterior_data_structure : option structure)
           (interior_expected_types : list pytype) : M value :=
  match exterior_data_structure with
  | None =>
      rec_simple rec self_cls varname inbound_var (Types interior_expected_types)
  | Some OfList =>
      match inbound_var with
      | VList items =>
          match interior_expected_types with
          | [] => ret inbound_var
          | _ =>
              items' <- map_enumerate
                          (fun i inbound_ele =>
                             rec_simple rec self_cls (element_name varname i)
                                        inbound_ele (Types interior_expected_types))
                          0 items ;;
              ret (VList items')
          end
      | _ => raise (JourneyUserInputException varname
                      (ExpectedButGot "list" inbound_var))
      end
  | Some OfTuple =>
      match inbound_var with
      | VTuple items | VList items =>
          match interior_expected_types with
          | [] => ret (VTuple items)
          | [t] =>
              items' <- map_enumerate
                          (fun i inbound_ele =>
                             rec_simple rec self_cls (element_name varname i)
                                        inbound_ele (Types [t]))
                          0 items ;;
              ret (VTuple items')
          | _ =>
              if Nat.eqb (List.length interior_expected_types) (List.length items)
              then
                items' <- map_enumerate
                            (fun i '(inbound_ele, t) =>
                               rec_simple rec self_cls (element_name varname i)
                                          inbound_ele (Types [t]))
                            0 (combine items interior_expected_types) ;;
                ret (VTuple items')
              else
                raise (JourneyUserInputException varname
                         (LengthMismatch inbound_var interior_expected_types))
          end
      | _ => raise (JourneyUserInputException varname
                      (ExpectedButGot "tuple" inbound_var))
      end
  | Some OfDict =>
      match inbound_var with
      | VDict items =>
          match interior_expected_types with
          | [] => ret inbound_var
          | key_type :: _ =>
              (* the key goes to [deserialize_simple_var] with the type object
                 [interior_expected_types[0]] as its tuple of types, and the
                 value of the item is computed after the key.  No item comes
                 out of the second call, so the mapping built holds no two
                 equal keys. *)
              items' <- map_m
                          (fun '(key, val) =>
                             key' <- rec_simple rec self_cls
                                       (varname ++ "_key_" ++ py_str key) key
                                       (BareType key_type) ;;
                             val' <- mapping_value val ;;
                             ret (key', val'))
                          items ;;
              ret (VDict items')
          end
      | _ => raise (JourneyUserInputException varname
                      (ExpectedButGot "dict" inbound_var))
      end
  end.

(* ================================================================= *)
(** ** Validator Dispatcher *)

(** [dir(self)] lists attribute names in ascending order. *)
Fixpoint insert_by_name {A} (x : string * A) (xs : list (string * A))
  : list (string * A) :=
  match xs with
  | [] => [x]
  | y :: ys => if String.leb (fst x) (fst y) then x :: y :: ys
               else y :: insert_by_name x ys
  end.

Fixpoint sort_by_name {A} (xs : list (string * A)) : list (string * A) :=
  match xs with
  | [] => []
  | x :: xs' => insert_by_name x (sort_by_name xs')
  end.

(** The methods [validate] calls, in the order it calls them:
    [[m for m in dir(self) if m.startswith('validate_') and callable(...)]]. *)
Definition dir_validators (cd : class_def) : list (string * validator) :=
  sort_by_name (c_validators cd).

(** The list comprehension of [validate]: each method is called in turn; an
    exception ends the comprehension. *)
Fixpoint call_each (checks : list (string * validator)) (h : list obj)
         (self : loc) : outcome unit :=
  match checks with
  | [] => Ok tt
  | (_, check) :: checks' =>
      match check h self with
      | Ok _ => call_each checks' h self
      | Raise e => Raise e
      | Diverge => Diverge
      end
  end.

(** [validate(self)]. *)
Definition validate (cd : class_def) (self : loc) : M unit :=
  h <- get_heap ;;
  lift (call_each (dir_validators cd) h self).

(* ================================================================= *)
(** ** Graph Consolidator *)

Definition is_record_field (f : field_def) : bool :=
  match is_subclass (f_type f) with
  | Some _ => true
  | None => false
  end.

(** [joe_children(self)]: the attributes whose declared type is a record
    type, by name. *)
Definition joe_children (self : loc) : M (list (string * value)) :=
  h <- get_heap ;;
  match nth_error h self with
  | None => raise (AttributeError "joe_children")
  | Some o =>
      match find_class (obj_class o) with
      | None => raise (AttributeError "joe_children")
      | Some cd =>
          map_m (fun f => v <- getattr self (f_name f) ;; ret (f_name f, v))
                (filter is_record_field (c_fields cd))
      end
  end.

(** [for existing_obj in all_joe_objs: if self == existing_obj: return
    existing_obj]: the first member equal to [self], if any. *)
Fixpoint first_equal (fuel : nat) (h : list obj) (self : loc)
         (all_joe_objs : list loc) : outcome (option loc) :=
  match all_joe_objs with
  | [] => Ok None
  | existing_obj :: rest =>
      match dataclass_eq fuel h self existing_obj with
      | Some true => Ok (Some existing_obj)
      | Some false => first_equal fuel h self rest
      | None => Diverge
      end
  end.

(** [consolidate_family_tree(self, all_joe_objs)]. *)
Definition consolidate_family_tree_step (fuel : nat) (rec : engine)
           (self : loc) (all_joe_objs : registry) : M loc :=
  all_direct_children <- joe_children self ;;
  for_each
    (fun '(joe_name, current_child) =>
       match current_child with
       | VStr _ => ret tt
       | VRef child =>
           kept <- rec_consolidate rec child all_joe_objs ;;
           setattr self joe_name (VRef kept)
       | _ => raise (AttributeError "consolidate_family_tree")
       end)
    all_direct_children ;;;
  members <- get_registry all_joe_objs ;;
  h <- get_heap ;;
  found <- lift (first_equal fuel h self members) ;;
  match found with
  | Some existing_obj => ret existing_obj
  | None => registry_append all_joe_objs self ;;; ret self
  end.

(* ================================================================= *)
(** ** Construction: [cls( **kwargs )] *)

(** [**inbound_var]: the keys must be text. *)
Fixpoint keywords (items : list (value * value))
  : outcome (list (string * value)) :=
  match items with
  | [] => Ok []
  | (VStr k, v) :: items' =>
      match keywords items' with
      | Ok kw => Ok ((k, v) :: kw)
      | other => other
      end
  | _ => Raise (TypeError "keywords must be strings")
  end.

(** The generated [__init__]: every keyword names a field; a field without
    a keyword takes its default, and must have one. *)
Fixpoint bind_fields (fields : list field_def) (kw : list (string * value))
  : outcome (list (string * value)) :=
  match fields with
  | [] => Ok []
  | f :: fields' =>
      match match assoc (f_name f) kw with
            | Some v => Some v
            | None => f_default f
            end with
      | None => Raise (TypeError "__init__() missing a required argument")
      | Some v =>
          match bind_fields fields' kw with
          | Ok bound => Ok ((f_name f, v) :: bound)
          | other => other
          end
      end
  end.

Definition bind_arguments (fields : list field_def) (kw : list (string * value))
  : outcome (list (string * value)) :=
  if forallb (fun '(k, _) => existsb (fun f => String.eqb (f_name f) k) fields) kw
  then bind_fields fields kw
  else Raise (TypeError "__init__() got an unexpected keyword argument").

Definition type_of_field (cd : class_def) (name : string) : pytype :=
  match find (fun f => String.eqb (f_name f) name) (c_fields cd) with
  | Some f => f_type f
  | None => TNone
  end.

(** [__post_init__(self)]: every field is coerced in turn, the family tree
    is consolidated against the default list, the instance is validated.
    The instance is reachable from nowhere while its fields are coerced (the
    methods read only its class): it gets its place in the heap once they
    are. *)
Definition coerce_field (rec : engine) (cd : class_def)
           (field : string * value) : M (string * value) :=
  let (name, inbound_var) := field in
  let (exterior_data_structure, interior_expected_types) :=
    decompose_type (type_of_field cd name) in
  v <- rec_var rec (c_name cd) name inbound_var
         exterior_data_structure interior_expected_types ;;
  ret (name, v).

Definition post_init (rec : engine) (cd : class_def)
           (raw : list (string * value)) : M loc :=
  coerced <- map_m (coerce_field rec cd) raw ;;
  self <- allocate (mk_obj (c_name cd) coerced) ;;
  rec_consolidate rec self DefaultList ;;;
  validate cd self ;;;
  ret self.

Definition new_step (rec : engine) (cls : string)
           (kwargs : list (value * value)) : M value :=
  match find_class cls with
  | None => raise (TypeError "not a record type")
  | Some cd =>
      kw <- lift (keywords kwargs) ;;
      raw <- lift (bind_arguments (c_fields cd) kw) ;;
      self <- post_init rec cd raw ;;
      ret (VRef self)
  end.

(** The methods, [fuel] calls deep. *)
Fixpoint engine_at (fuel : nat) : engine :=
  match fuel with
  | O => mk_engine (fun _ _ _ _ => diverge) (fun _ _ _ _ _ => diverge)
                   (fun _ _ => diverge) (fun _ _ => diverge)
  | S fuel' =>
      let rec := engine_at fuel' in
      mk_engine (deserialize_simple_var_step rec)
                (deserialize_var_step rec)
                (new_step rec)
                (consolidate_family_tree_step fuel rec)
  end.

Definition deserialize_simple_var (fuel : nat) := rec_simple (engine_at fuel).
Definition deserialize_var (fuel : nat) := rec_var (engine_at fuel).
Definition consolidate_family_tree (fuel : nat) := rec_consolidate (engine_at fuel).

(** [cls( **kwargs )]: the construction of a record. *)
Definition construct (fuel : nat) (cls : string) (kwargs : list (value * value))
  : M value :=
  rec_new (engine_at fuel) cls kwargs.

(* ================================================================= *)
(** ** Encoder and Equality Oracle *)

Definition obind {A B} (o : outcome A) (k : A -> outcome B) : outcome B :=
  match o with
  | Ok a => k a
  | Raise e => Raise e
  | Diverge => Diverge
  end.

(** The text [json.dumps] writes for a mapping key. *)
Definition json_key (k : value) : outcome string :=
  match k with
  | VStr s => Ok s
  | VInt z => Ok (string_of_Z z)
  | VFloat f => Ok (float_repr f)
  | VBool b => Ok (if b then "true" else "false")
  | VNone => Ok "null"
  | _ => Raise (TypeError "keys must be str, int, float, bool or None")
  end.

(** A comprehension over a list, in the monad of outcomes. *)
Fixpoint omap {A B} (f : A -> outcome B) (xs : list A) : outcome (list B) :=
  match xs with
  | [] => Ok []
  | x :: xs' => obind (f x) (fun y => obind (omap f xs') (fun ys => Ok (y :: ys)))
  end.

(** The document [json.dumps] writes for a Python object: a tuple is an
    array; a timestamp, an enumeration member and a record are not JSON
    serializable. *)
Fixpoint json_of_value (v : value) : outcome json :=
  match v with
  | VNone => Ok JNull
  | VBool b => Ok (JBool b)
  | VInt z => Ok (JInt z)
  | VFloat f => Ok (JFloat f)
  | VStr s => Ok (JStr s)
  | VList xs => obind (omap json_of_value xs) (fun js => Ok (JArr js))
  | VTuple xs => obind (omap json_of_value xs) (fun js => Ok (JArr js))
  | VDict kvs =>
      obind (omap (fun kv => obind (json_key (fst kv)) (fun s =>
                             obind (json_of_value (snd kv)) (fun j => Ok (s, j))))
                  kvs)
            (fun js => Ok (JObj js))
  | _ => Raise (TypeError "Object is not JSON serializable")
  end.

(** [json.dumps(v)]. *)
Definition json_dumps (v : value) : outcome string :=
  obind (json_of_value v) (fun j => Ok (dumps j)).

(** [JourneyObjectFieldSerializer(cls, obj)]: a mapping and a list are
    serialized item by item and then written out as JSON text. *)
Fixpoint JourneyObjectFieldSerializer (h : list obj) (o : value)
  : outcome value :=
  match o with
  | VDatetime d => Ok (VStr (isoformat d))
  | VDict kvs =>
      obind (omap (fun kv => obind (JourneyObjectFieldSerializer h (snd kv))
                                   (fun y => Ok (fst kv, y)))
                  kvs)
            (fun kvs' =>
      obind (json_dumps (VDict kvs')) (fun text => Ok (VStr text)))
  | VList xs =>
      obind (omap (JourneyObjectFieldSerializer h) xs) (fun xs' =>
      obind (json_dumps (VList xs')) (fun text => Ok (VStr text)))
  | VEnum _ _ val => Ok val
  | VRef l =>
      match field_of h l "id" with
      | Some id => Ok id
      | None => Raise (AttributeError "id")
      end
  | _ => Ok o
  end.

(** The mapping [to_json] writes out: every field, serialized. *)
Fixpoint serialized_fields (h : list obj) (fields : list (string * value))
  : outcome (list (value * value)) :=
  match fields with
  | [] => Ok []
  | (name, v) :: fields' =>
      obind (JourneyObjectFieldSerializer h v) (fun y =>
      obind (serialized_fields h fields') (fun ys => Ok ((VStr name, y) :: ys)))
  end.

(** [to_json(self)]. *)
Definition to_json (h : list obj) (self : loc) : outcome string :=
  match nth_error h self with
  | None => Raise (AttributeError "to_json")
  | Some o =>
      obind (serialized_fields h (obj_fields o)) (fun items =>
      json_dumps (VDict items))
  end.

(** [JourneyObject.__eq__(self, other)], the method of the base class:
    [isinstance(other, self.__class__) and self.to_json() == other.to_json()]. *)
Definition JourneyObject_eq (h : list obj) (self other : loc) : outcome bool :=
  match nth_error h self with
  | None => Raise (AttributeError "__class__")
  | Some o =>
      if isinstance h (VRef other) (TRecord (obj_class o))
      then obind (to_json h self) (fun a =>
           obind (to_json h other) (fun b => Ok (String.eqb a b)))
      else Ok false
  end.




End Engine.

(* ================================================================= *)
(** ** A standard library to run the engine with

    Timestamps are kept as their ISO-8601 text of the shape
    [YYYY-MM-DDTHH:MM:SS], which is what [isoformat] writes for a timestamp
    without microseconds and time zone. *)

Definition is_digit (c : ascii) : bool :=
  let n := nat_of_ascii c in Nat.leb 48 n && Nat.leb n 57.

Definition iso_shape (s : string) : bool :=
  match list_ascii_of_string s with
  | [y1; y2; y3; y4; d1; m1; m2; d2; a1; a2; t; h1; h2; c1; n1; n2; c2; s1; s2] =>
      forallb is_digit [y1; y2; y3; y4; m1; m2; a1; a2; h1; h2; n1; n2; s1; s2]
      && Ascii.eqb d1 "-" && Ascii.eqb d2 "-" && Ascii.eqb t "T"
      && Ascii.eqb c1 ":" && Ascii.eqb c2 ":"
  | _ => false
  end.

Definition iso_datetime : Type := { s : string | iso_shape s = true }.

Definition iso_parse (s : string) : option iso_datetime :=
  match iso_shape s as b return iso_shape s = b -> option iso_datetime with
  | true => fun shaped => Some (exist _ s shaped)
  | false => fun _ => None
  end eq_refl.

Lemma iso_parse_text (d : iso_datetime) : iso_parse (proj1_sig d) = Some d.
Proof.
  destruct d as [s shaped]. unfold iso_parse. simpl.
  generalize (eq_refl (iso_shape s)).
  generalize (iso_shape s) at 2 3.
  intros b e. destruct b.
  - assert (e = shaped) as -> by (apply Eqdep_dec.UIP_dec; apply bool_dec).
    reflexivity.
  - congruence.
Qed.

Lemma iso_eqb_trans (d1 d2 d3 : iso_datetime) :
  String.eqb (proj1_sig d1) (proj1_sig d2) = true ->
  String.eqb (proj1_sig d2) (proj1_sig d3) = true ->
  String.eqb (proj1_sig d1) (proj1_sig d3) = true.
Proof.
  rewrite !String.eqb_eq. congruence.
Qed.

#[export] Instance iso_time : PyTime := {|
  datetime := iso_datetime;
  datetime_eqb := fun d1 d2 => String.eqb (proj1_sig d1) (proj1_sig d2);
  datetime_eqb_refl := fun d => String.eqb_refl (proj1_sig d);
  datetime_eqb_sym := fun d1 d2 => String.eqb_sym (proj1_sig d1) (proj1_sig d2);
  datetime_eqb_trans := iso_eqb_trans;
  isoformat := fun d => proj1_sig d;
  fromisoformat := iso_parse;
  fromisoformat_isoformat := iso_parse_text
|}.

(** JSON text, written as [json.dumps] writes it (", " and ": " between
    items) except for two simplifications: in a string only the quote and
    the backslash are escaped, and a finite float is written exactly, as
    mantissa and binary exponent ([6755399441055744p-52] is 1.5). *)

Local Open Scope char_scope.

Definition text : Type := list ascii.

(** The quotation mark. *)
Definition quote_char : ascii :=
  Ascii false true false false false true false false.

Definition digit (c : ascii) : option (Decimal.uint -> Decimal.uint) :=
  if Ascii.eqb c "0" then Some Decimal.D0
  else if Ascii.eqb c "1" then Some Decimal.D1
  else if Ascii.eqb c "2" then Some Decimal.D2
  else if Ascii.eqb c "3" then Some Decimal.D3
  else if Ascii.eqb c "4" then Some Decimal.D4
  else if Ascii.eqb c "5" then Some Decimal.D5
  else if Ascii.eqb c "6" then Some Decimal.D6
  else if Ascii.eqb c "7" then Some Decimal.D7
  else if Ascii.eqb c "8" then Some Decimal.D8
  else if Ascii.eqb c "9" then Some Decimal.D9
  else None.

Fixpoint digits_of_uint (u : Decimal.uint) : text :=
  match u with
  | Decimal.Nil => []
  | Decimal.D0 u' => "0" :: digits_of_uint u'
  | Decimal.D1 u' => "1" :: digits_of_uint u'
  | Decimal.D2 u' => "2" :: digits_of_uint u'
  | Decimal.D3 u' => "3" :: digits_of_uint u'
  | Decimal.D4 u' => "4" :: digits_of_uint u'
  | Decimal.D5 u' => "5" :: digits_of_uint u'
  | Decimal.D6 u' => "6" :: digits_of_uint u'
  | Decimal.D7 u' => "7" :: digits_of_uint u'
  | Decimal.D8 u' => "8" :: digits_of_uint u'
  | Decimal.D9 u' => "9" :: digits_of_uint u'
  end.

(** The longest run of digits at the head of a text, and what follows. *)
Fixpoint uint_of_digits (cs : text) : Decimal.uint * text :=
  match cs with
  | [] => (Decimal.Nil, [])
  | c :: r =>
      match digit c with
      | Some d => let (u, r') := uint_of_digits r in (d u, r')
      | None => (Decimal.Nil, cs)
      end
  end.

Definition print_N (n : N) : text := digits_of_uint (N.to_uint n).

Definition parse_N (cs : text) : option (N * text) :=
  match uint_of_digits cs with
  | (Decimal.Nil, _) => None
  | (u, r) => Some (N.of_uint u, r)
  end.

Definition print_Z (z : Z) : text :=
  match z with
  | Zneg p => "-" :: print_N (Npos p)
  | _ => print_N (Z.to_N z)
  end.

Definition parse_Z (cs : text) : option (Z * text) :=
  match cs with
  | c :: r =>
      if Ascii.eqb c "-"
      then match parse_N r with
           | Some (n, r') => Some (Z.opp (Z.of_N n), r')
           | None => None
           end
      else match parse_N cs with
           | Some (n, r') => Some (Z.of_N n, r')
           | None => None
           end
  | [] => None
  end.

Definition print_sign (negative : bool) : text :=
  if negative then ["-"] else [].

Definition print_float (f : float) : text :=
  match Prim2SF f with
  | S754_zero s => print_sign s ++ list_ascii_of_string "0.0"
  | S754_infinity s => print_sign s ++ list_ascii_of_string "Infinity"
  | S754_nan => list_ascii_of_string "NaN"
  | S754_finite s m e => print_sign s ++ print_N (Npos m) ++ "p" :: print_Z e
  end.

Fixpoint strip_prefix (p cs : text) : option text :=
  match p, cs with
  | [], _ => Some cs
  | a :: p', b :: cs' => if Ascii.eqb a b then strip_prefix p' cs' else None
  | _ :: _, [] => None
  end.

(** A number, after its sign. *)
Definition parse_unsigned (negative : bool) (cs : text) : option (json * text) :=
  match strip_prefix (list_ascii_of_string "Infinity") cs with
  | Some r => Some (JFloat (SF2Prim (S754_infinity negative)), r)
  | None =>
      match parse_N cs with
      | None => None
      | Some (n, r) =>
          match strip_prefix (list_ascii_of_string ".0") r with
          | Some r' =>
              match n with
              | N0 => Some (JFloat (SF2Prim (S754_zero negative)), r')
              | _ => None
              end
          | None =>
              match strip_prefix ["p"] r with
              | Some r' =>
                  match n, parse_Z r' with
                  | Npos m, Some (e, r'') =>
                      Some (JFloat (SF2Prim (S754_finite negative m e)), r'')
                  | _, _ => None
                  end
              | None =>
                  Some (JInt (if negative then Z.opp (Z.of_N n) else Z.of_N n), r)
              end
          end
      end
  end.

Definition parse_number (cs : text) : option (json * text) :=
  match strip_prefix (list_ascii_of_string "NaN") cs with
  | Some r => Some (JFloat (SF2Prim S754_nan), r)
  | None =>
      match strip_prefix ["-"] cs with
      | Some r => parse_unsigned true r
      | None => parse_unsigned false cs
      end
  end.

Fixpoint escape (s : string) : text :=
  match s with
  | EmptyString => []
  | String c s' =>
      if Ascii.eqb c quote_char || Ascii.eqb c "\" then "\" :: c :: escape s'
      else c :: escape s'
  end.

Definition print_string (s : string) : text := quote_char :: escape s ++ [quote_char].

(** A string, after its opening quote. *)
Fixpoint parse_string (cs : text) : option (string * text) :=
  match cs with
  | [] => None
  | c :: r =>
      if Ascii.eqb c quote_char then Some (EmptyString, r)
      else if Ascii.eqb c "\"
      then match r with
           | c' :: r' =>
               match parse_string r' with
               | Some (s, rest) => Some (String c' s, rest)
               | None => None
               end
           | [] => None
           end
      else match parse_string r with
           | Some (s, rest) => Some (String c s, rest)
           | None => None
           end
  end.

Fixpoint print_items (pr : json -> text) (xs : list json) : text :=
  match xs with
  | [] => []
  | x :: xs' =>
      pr x ++ match xs' with
              | [] => []
              | _ => "," :: " " :: print_items pr xs'
              end
  end.

Fixpoint print_members (pr : json -> text) (ms : list (string * json)) : text :=
  match ms with
  | [] => []
  | (k, x) :: ms' =>
      print_string k ++ ":" :: " " :: pr x
        ++ match ms' with
           | [] => []
           | _ => "," :: " " :: print_members pr ms'
           end
  end.

Fixpoint print (j : json) : text :=
  match j with
  | JNull => list_ascii_of_string "null"
  | JBool true => list_ascii_of_string "true"
  | JBool false => list_ascii_of_string "false"
  | JInt z => print_Z z
  | JFloat f => print_float f
  | JStr s => print_string s
  | JArr xs => "[" :: print_items print xs ++ ["]"]
  | JObj ms => "{" :: print_members print ms ++ ["}"]
  end.

Fixpoint parse (fuel : nat) (cs : text) {struct fuel} : option (json * text) :=
  match fuel with
  | O => None
  | S n =>
      match cs with
      | [] => None
      | c :: r =>
          if Ascii.eqb c "n" then
            option_map (pair JNull) (strip_prefix (list_ascii_of_string "ull") r)
          else if Ascii.eqb c "t" then
            option_map (pair (JBool true)) (strip_prefix (list_ascii_of_string "rue") r)
          else if Ascii.eqb c "f" then
            option_map (pair (JBool false)) (strip_prefix (list_ascii_of_string "alse") r)
          else if Ascii.eqb c quote_char then
            match parse_string r with
            | Some (s, rest) => Some (JStr s, rest)
            | None => None
            end
          else if Ascii.eqb c "[" then
            match parse_items n r with
            | Some (xs, rest) => Some (JArr xs, rest)
            | None => option_map (pair (JArr [])) (strip_prefix ["]"] r)
            end
          else if Ascii.eqb c "{" then
            match parse_members n r with
            | Some (ms, rest) => Some (JObj ms, rest)
            | None => option_map (pair (JObj [])) (strip_prefix ["}"] r)
            end
          else parse_number cs
      end
  end

with parse_items (fuel : nat) (cs : text) {struct fuel}
  : option (list json * text) :=
  match fuel with
  | O => None
  | S n =>
      match parse n cs with
      | None => None
      | Some (x, r) =>
          match strip_prefix ["]"] r with
          | Some rest => Some ([x], rest)
          | None =>
              match strip_prefix [","; " "] r with
              | None => None
              | Some r' =>
                  match parse_items n r' with
                  | Some (xs, rest) => Some (x :: xs, rest)
                  | None => None
                  end
              end
          end
      end
  end

with parse_members (fuel : nat) (cs : text) {struct fuel}
  : option (list (string * json) * text) :=
  match fuel with
  | O => None
  | S n =>
      match strip_prefix [quote_char] cs with
      | None => None
      | Some r0 =>
          match parse_string r0 with
          | None => None
          | Some (k, r1) =>
              match strip_prefix [":"; " "] r1 with
              | None => None
              | Some r2 =>
                  match parse n r2 with
                  | None => None
                  | Some (x, r) =>
                      match strip_prefix ["}"] r with
                      | Some rest => Some ([(k, x)], rest)
                      | None =>
                          match strip_prefix [","; " "] r with
                          | None => None
                          | Some r' =>
                              match parse_members n r' with
                              | Some (ms, rest) => Some ((k, x) :: ms, rest)
                              | None => None
                              end
                          end
                      end
                  end
              end
          end
      end
  end.

Definition text_dumps (j : json) : string := string_of_list_ascii (print j).

Definition text_loads (s : string) : option json :=
  let cs := list_ascii_of_string s in
  match parse (S (List.length cs)) cs with
  | Some (j, []) => Some j
  | _ => None
  end.


(** *** The text read back is the document written *)

Definition follows_number (rest : text) : bool :=
  match rest with
  | [] => true
  | c :: _ =>
      match digit c with
      | Some _ => false
      | None => negb (Ascii.eqb c "." || Ascii.eqb c "p")
      end
  end.

Definition no_digit_head (rest : text) : bool :=
  match rest with
  | [] => true
  | c :: _ => match digit c with Some _ => false | None => true end
  end.

Lemma follows_no_digit (rest : text) :
  follows_number rest = true -> no_digit_head rest = true.
Proof.
  destruct rest as [|c r]; simpl; [reflexivity|]. destruct (digit c); auto.
Qed.

Lemma digit_cases (c : ascii) d :
  digit c = Some d ->
  In c ["0"; "1"; "2"; "3"; "4"; "5"; "6"; "7"; "8"; "9"].
Proof.
  unfold digit.
  repeat (destruct (Ascii.eqb c _) eqn:E;
          [ apply Ascii.eqb_eq in E; subst; simpl; tauto | clear E ]).
  discriminate.
Qed.

Lemma uint_of_digits_app (u : Decimal.uint) (rest : text) :
  no_digit_head rest = true ->
  uint_of_digits (digits_of_uint u ++ rest) = (u, rest).
Proof.
  intros F. induction u; simpl; try (rewrite IHu; reflexivity).
  destruct rest as [|c r]; [reflexivity|].
  simpl in *. destruct (digit c); [discriminate|reflexivity].
Qed.

Lemma to_uint_nonnil (n : N) : N.to_uint n <> Decimal.Nil.
Proof.
  destruct n; simpl; [discriminate|].
  apply DecimalPos.Unsigned.to_uint_nonnil.
Qed.

Lemma parse_N_print (n : N) (rest : text) :
  no_digit_head rest = true ->
  parse_N (print_N n ++ rest) = Some (n, rest).
Proof.
  intros F. unfold parse_N, print_N. rewrite uint_of_digits_app by assumption.
  pose proof (to_uint_nonnil n) as NN.
  pose proof (DecimalN.Unsigned.of_to n) as OT.
  destruct (N.to_uint n); try congruence.
Qed.

Lemma print_N_head (n : N) :
  exists c r d, print_N n = c :: r /\ digit c = Some d.
Proof.
  unfold print_N. pose proof (to_uint_nonnil n) as NN.
  destruct (N.to_uint n); try congruence; simpl;
    do 3 eexists; split; reflexivity.
Qed.

Lemma digit_not (c : ascii) d (x : ascii) :
  digit c = Some d -> digit x = None -> Ascii.eqb c x = false.
Proof.
  intros D NX. destruct (Ascii.eqb c x) eqn:E; [|reflexivity].
  apply Ascii.eqb_eq in E. congruence.
Qed.

Lemma parse_Z_print (z : Z) (rest : text) :
  no_digit_head rest = true ->
  parse_Z (print_Z z ++ rest) = Some (z, rest).
Proof.
  intros F.
  assert (forall n, parse_Z (print_N n ++ rest) = Some (Z.of_N n, rest)) as NonNeg.
  { intros n. pose proof (parse_N_print n rest F) as PN.
    destruct (print_N_head n) as (c & r & d & E & D).
    rewrite E in *. cbn [app] in *. unfold parse_Z.
    rewrite (digit_not c d "-" D eq_refl), PN. reflexivity. }
  destruct z as [|p|p].
  - apply (NonNeg 0%N).
  - apply (NonNeg (Npos p)).
  - unfold print_Z. cbn [app]. unfold parse_Z.
    change (Ascii.eqb "-" "-") with true. cbn iota.
    rewrite (parse_N_print (Npos p) rest F). reflexivity.
Qed.

Lemma strip_prefix_head_ne (a : ascii) (p : text) (c : ascii) (r : text) :
  Ascii.eqb a c = false -> strip_prefix (a :: p) (c :: r) = None.
Proof. intros E. simpl. rewrite E. reflexivity. Qed.

Lemma follows_number_strip (rest : text) :
  follows_number rest = true ->
  strip_prefix (list_ascii_of_string ".0") rest = None
  /\ strip_prefix ["p"] rest = None.
Proof.
  destruct rest as [|c r]; [auto|].
  unfold follows_number. cbn [strip_prefix list_ascii_of_string].
  destruct (digit c); [discriminate|].
  rewrite (Ascii.eqb_sym "." c), (Ascii.eqb_sym "p" c).
  destruct (Ascii.eqb c "."), (Ascii.eqb c "p"); simpl; try discriminate; auto.
Qed.

Lemma parse_unsigned_int (negative : bool) (n : N) (rest : text) :
  follows_number rest = true ->
  parse_unsigned negative (print_N n ++ rest)
  = Some (JInt (if negative then Z.opp (Z.of_N n) else Z.of_N n), rest).
Proof.
  intros F. unfold parse_unsigned.
  destruct (print_N_head n) as (c & r & d & E & D).
  assert (strip_prefix (list_ascii_of_string "Infinity") (print_N n ++ rest) = None)
    as ->.
  { rewrite E. apply strip_prefix_head_ne.
    rewrite Ascii.eqb_sym. apply (digit_not c d "I" D eq_refl). }
  rewrite (parse_N_print n rest (follows_no_digit rest F)).
  destruct (follows_number_strip rest F) as [-> ->]. reflexivity.
Qed.

Lemma parse_number_int (z : Z) (rest : text) :
  follows_number rest = true ->
  parse_number (print_Z z ++ rest) = Some (JInt z, rest).
Proof.
  intros F.
  assert (forall n, parse_number (print_N n ++ rest) = Some (JInt (Z.of_N n), rest))
    as NonNeg.
  { intros n. unfold parse_number.
    destruct (print_N_head n) as (c & r & d & E & D).
    assert (strip_prefix (list_ascii_of_string "NaN") (print_N n ++ rest) = None)
      as ->.
    { rewrite E. apply strip_prefix_head_ne.
      rewrite Ascii.eqb_sym. apply (digit_not c d "N" D eq_refl). }
    assert (strip_prefix ["-"] (print_N n ++ rest) = None) as ->.
    { rewrite E. apply strip_prefix_head_ne.
      rewrite Ascii.eqb_sym. apply (digit_not c d "-" D eq_refl). }
    apply (parse_unsigned_int false n rest F). }
  destruct z as [|p|p].
  - apply (NonNeg 0%N).
  - apply (NonNeg (Npos p)).
  - unfold print_Z, parse_number. cbn [app].
    change (strip_prefix (list_ascii_of_string "NaN") ("-" :: print_N (N.pos p) ++ rest))
      with (@None text).
    change (strip_prefix ["-"] ("-" :: print_N (N.pos p) ++ rest))
      with (Some (print_N (N.pos p) ++ rest)).
    apply (parse_unsigned_int true (Npos p) rest F).
Qed.

Lemma parse_unsigned_float (s : bool) (f : spec_float) (rest : text) :
  no_digit_head rest = true ->
  f <> S754_nan ->
  parse_unsigned s
    (match f with
     | S754_zero _ => list_ascii_of_string "0.0"
     | S754_infinity _ => list_ascii_of_string "Infinity"
     | S754_nan => []
     | S754_finite _ m e => print_N (Npos m) ++ "p" :: print_Z e
     end ++ rest)
  = Some (JFloat (SF2Prim match f with
                          | S754_zero _ => S754_zero s
                          | S754_infinity _ => S754_infinity s
                          | S754_nan => S754_nan
                          | S754_finite _ m e => S754_finite s m e
                          end), rest).
Proof.
  intros F NN. destruct f as [s'|s'| |s' m e]; try congruence.
  - reflexivity.
  - reflexivity.
  - unfold parse_unsigned. rewrite <- app_assoc. cbn [app].
    destruct (print_N_head (Npos m)) as (c & r & d & E & D).
    assert (strip_prefix (list_ascii_of_string "Infinity")
              (print_N (N.pos m) ++ "p" :: print_Z e ++ rest) = None) as ->.
    { rewrite E. apply strip_prefix_head_ne.
      rewrite Ascii.eqb_sym. apply (digit_not c d "I" D eq_refl). }
    rewrite (parse_N_print (Npos m) ("p" :: print_Z e ++ rest) eq_refl).
    cbn [list_ascii_of_string strip_prefix].
    change (Ascii.eqb "." "p") with false. change (Ascii.eqb "p" "p") with true.
    cbn iota. rewrite (parse_Z_print e rest F). reflexivity.
Qed.

Lemma parse_number_float (f : float) (rest : text) :
  no_digit_head rest = true ->
  parse_number (print_float f ++ rest) = Some (JFloat f, rest).
Proof.
  intros F. unfold print_float.
  rewrite <- (SF2Prim_Prim2SF f) at 2.
  destruct (Prim2SF f) as [s|s| |s m e] eqn:E.
  - destruct s; reflexivity.
  - destruct s; reflexivity.
  - reflexivity.
  - pose proof (parse_unsigned_float s (S754_finite s m e) rest F) as PU.
    cbn iota in PU. unfold parse_number.
    destruct s; cbn [print_sign app].
    + change (strip_prefix (list_ascii_of_string "NaN")
                ("-" :: (print_N (N.pos m) ++ "p" :: print_Z e) ++ rest))
        with (@None text).
      change (strip_prefix ["-"] ("-" :: (print_N (N.pos m) ++ "p" :: print_Z e) ++ rest))
        with (Some ((print_N (N.pos m) ++ "p" :: print_Z e) ++ rest)).
      apply PU. discriminate.
    + destruct (print_N_head (Npos m)) as (c & r & d & EN & D).
      assert (forall a, digit a = None ->
                strip_prefix [a] ((print_N (N.pos m) ++ "p" :: print_Z e) ++ rest) = None)
        as NoHead.
      { intros a DA. rewrite EN. apply strip_prefix_head_ne.
        rewrite Ascii.eqb_sym. apply (digit_not c d a D DA). }
      assert (strip_prefix (list_ascii_of_string "NaN")
                ((print_N (N.pos m) ++ "p" :: print_Z e) ++ rest) = None) as ->.
      { rewrite EN. apply strip_prefix_head_ne.
        rewrite Ascii.eqb_sym. apply (digit_not c d "N" D eq_refl). }
      rewrite (NoHead "-" eq_refl). apply PU. discriminate.
Qed.

Lemma parse_string_escape (s : string) (rest : text) :
  parse_string (escape s ++ quote_char :: rest) = Some (s, rest).
Proof.
  induction s as [|c s IH]; [reflexivity|].
  cbn [escape].
  destruct (Ascii.eqb c quote_char || Ascii.eqb c "\") eqn:E.
  - cbn [app parse_string].
    change (Ascii.eqb "\" quote_char) with false. change (Ascii.eqb "\" "\") with true.
    cbn iota. rewrite IH. reflexivity.
  - apply orb_false_elim in E as [E1 E2].
    cbn [app parse_string]. rewrite E1, E2, IH. reflexivity.
Qed.

Section JsonInduction.
Variable P : json -> Prop.
Hypothesis P_null : P JNull.
Hypothesis P_bool : forall b, P (JBool b).
Hypothesis P_int : forall z, P (JInt z).
Hypothesis P_float : forall f, P (JFloat f).
Hypothesis P_str : forall s, P (JStr s).
Hypothesis P_arr : forall xs, Forall P xs -> P (JArr xs).
Hypothesis P_obj : forall ms, Forall (fun m => P (snd m)) ms -> P (JObj ms).

Fixpoint json_nested_ind (j : json) : P j :=
  match j with
  | JNull => P_null
  | JBool b => P_bool b
  | JInt z => P_int z
  | JFloat f => P_float f
  | JStr s => P_str s
  | JArr xs =>
      P_arr xs ((fix all (l : list json) : Forall P l :=
                   match l with
                   | [] => Forall_nil P
                   | x :: l' => Forall_cons x (json_nested_ind x) (all l')
                   end) xs)
  | JObj ms =>
      P_obj ms ((fix all (l : list (string * json))
                  : Forall (fun m => P (snd m)) l :=
                   match l with
                   | [] => Forall_nil _
                   | m :: l' => Forall_cons m (json_nested_ind (snd m)) (all l')
                   end) ms)
  end.
End JsonInduction.

Definition reads_back (j : json) : Prop :=
  forall n rest,
    List.length (print j) < n -> follows_number rest = true ->
    parse n (print j ++ rest) = Some (j, rest).

Lemma parse_items_print (xs : list json) :
  Forall reads_back xs -> xs <> [] ->
  forall n rest,
    S (List.length (print_items print xs)) < n ->
    parse_items n (print_items print xs ++ "]" :: rest) = Some (xs, rest).
Proof.
  induction 1 as [|x xs' Hx Hxs IH]; [congruence|].
  intros _ n rest L. destruct n as [|m]; [lia|].
  cbn [print_items] in *. rewrite length_app in L.
  cbn [parse_items]. rewrite <- app_assoc.
  destruct xs' as [|y ys].
  - cbn [app]. rewrite (Hx m ("]" :: rest)); [reflexivity | cbn [List.length] in L; lia | reflexivity].
  - cbn [app]. rewrite (Hx m); [ | cbn [List.length] in L; lia | reflexivity].
    cbn [strip_prefix]. change (Ascii.eqb "]" ",") with false.
    change (Ascii.eqb "," ",") with true. change (Ascii.eqb " " " ") with true.
    cbn iota. rewrite IH; [reflexivity | discriminate | cbn [List.length] in L; lia].
Qed.

Lemma parse_members_print (ms : list (string * json)) :
  Forall (fun m => reads_back (snd m)) ms -> ms <> [] ->
  forall n rest,
    S (List.length (print_members print ms)) < n ->
    parse_members n (print_members print ms ++ "}" :: rest) = Some (ms, rest).
Proof.
  induction 1 as [|[k x] ms' Hx Hms IH]; [congruence|].
  intros _ n rest L. destruct n as [|m]; [lia|].
  simpl snd in Hx.
  assert (forall tail,
             parse_members (S m) (print_string k ++ ":" :: " " :: print x ++ tail)
             = match parse m (print x ++ tail) with
               | None => None
               | Some (x', r) =>
                   match strip_prefix ["}"] r with
                   | Some rest' => Some ([(k, x')], rest')
                   | None =>
                       match strip_prefix [","; " "] r with
                       | None => None
                       | Some r' =>
                           match parse_members m r' with
                           | Some (ms, rest') => Some ((k, x') :: ms, rest')
                           | None => None
                           end
                       end
                   end
               end) as Step.
  { intros tail. unfold print_string.
    cbn [parse_members app strip_prefix]. change (Ascii.eqb quote_char quote_char) with true.
    cbn iota. rewrite <- app_assoc. cbn [app].
    rewrite parse_string_escape.
    change (Ascii.eqb ":" ":") with true. change (Ascii.eqb " " " ") with true.
    reflexivity. }
  cbn [print_members] in *. unfold print_string in L.
  cbn [app List.length] in L. rewrite !length_app in L. cbn [List.length] in L.
  rewrite length_app in L.
  destruct ms' as [|y ys].
  - rewrite app_nil_r. rewrite <- app_assoc. cbn [app].
    rewrite Step.
    rewrite (Hx m ("}" :: rest)); [reflexivity | lia | reflexivity].
  - rewrite <- app_assoc. cbn [app]. rewrite <- app_assoc. cbn [app].
    rewrite Step.
    rewrite (Hx m); [ | cbn [List.length] in L; lia | reflexivity].
    cbn [strip_prefix]. change (Ascii.eqb "}" ",") with false.
    change (Ascii.eqb "," ",") with true. change (Ascii.eqb " " " ") with true.
    cbn iota. rewrite IH; [reflexivity | discriminate | cbn [List.length] in L; lia].
Qed.

Lemma parse_print (j : json) : reads_back j.
Proof.
  induction j as [ |b|z|f|s|xs IH|ms IH] using json_nested_ind;
    intros n rest L F; (destruct n as [|m]; [lia|]).
  - reflexivity.
  - destruct b; reflexivity.
  - pose proof (parse_number_int z rest F) as PN.
    cbn [print] in *.
    destruct (print_Z z ++ rest) as [|c r] eqn:E; [discriminate PN|].
    cbn [parse].
    assert (digit c <> None \/ c = "-") as Head.
    { destruct z as [|p|p].
      - injection E as <- _. left. discriminate.
      - destruct (print_N_head (Npos p)) as (c' & r' & d & E' & D).
        unfold print_Z in E. simpl Z.to_N in E. rewrite E' in E.
        injection E as <- _. left. congruence.
      - injection E as <- _. right. reflexivity. }
    assert (forall a, digit a = None -> a <> "-" -> Ascii.eqb c a = false) as NE.
    { intros a DA NA. destruct (Ascii.eqb c a) eqn:EC; [|reflexivity].
      apply Ascii.eqb_eq in EC. subst a. destruct Head; congruence. }
    rewrite !NE by (reflexivity || discriminate). exact PN.
  - pose proof (parse_number_float f rest (follows_no_digit rest F)) as PN.
    cbn [print] in *.
    destruct (print_float f ++ rest) as [|c r] eqn:E; [discriminate PN|].
    cbn [parse].
    assert (digit c <> None \/ c = "-" \/ c = "N" \/ c = "I") as Head.
    { unfold print_float in E.
      destruct (Prim2SF f) as [s|s| |s p e].
      - destruct s; injection E as <- _; [right; left; reflexivity | left; discriminate].
      - destruct s; injection E as <- _; tauto.
      - injection E as <- _; tauto.
      - destruct s; [injection E as <- _; tauto|].
        destruct (print_N_head (Npos p)) as (c' & r' & d & E' & D).
        cbn [print_sign app] in E. rewrite E' in E.
        injection E as <- _. left. congruence. }
    assert (forall a, digit a = None -> a <> "-" -> a <> "N" -> a <> "I" ->
                      Ascii.eqb c a = false) as NE.
    { intros a DA NA NN NI. destruct (Ascii.eqb c a) eqn:EC; [|reflexivity].
      apply Ascii.eqb_eq in EC. subst a. destruct Head as [|[|[|]]]; congruence. }
    rewrite !NE by (reflexivity || discriminate). exact PN.
  - cbn [print parse]. unfold print_string. cbn [app].
    change (Ascii.eqb quote_char "n") with false. change (Ascii.eqb quote_char "t") with false.
    change (Ascii.eqb quote_char "f") with false. change (Ascii.eqb quote_char quote_char) with true.
    cbn iota. rewrite <- app_assoc. cbn [app].
    rewrite parse_string_escape. reflexivity.
  - cbn [print] in *. cbn [app parse].
    change (Ascii.eqb "[" "n") with false. change (Ascii.eqb "[" "t") with false.
    change (Ascii.eqb "[" "f") with false. change (Ascii.eqb "[" quote_char) with false.
    change (Ascii.eqb "[" "[") with true. cbn iota.
    rewrite <- app_assoc. cbn [app].
    destruct xs as [|x xs'].
    + destruct m as [|[|m]]; reflexivity.
    + cbn [List.length] in L. rewrite length_app in L. cbn [List.length] in L.
      rewrite (parse_items_print (x :: xs') IH) by (discriminate || lia).
      reflexivity.
  - cbn [print] in *. cbn [app parse].
    change (Ascii.eqb "{" "n") with false. change (Ascii.eqb "{" "t") with false.
    change (Ascii.eqb "{" "f") with false. change (Ascii.eqb "{" quote_char) with false.
    change (Ascii.eqb "{" "[") with false. change (Ascii.eqb "{" "{") with true.
    cbn iota. rewrite <- app_assoc. cbn [app].
    destruct ms as [|m0 ms'].
    + destruct m as [|m]; reflexivity.
    + cbn [List.length] in L. rewrite length_app in L. cbn [List.length] in L.
      rewrite (parse_members_print (m0 :: ms') IH) by (discriminate || lia).
      reflexivity.
Qed.

Lemma text_loads_dumps (j : json) : text_loads (text_dumps j) = Some j.
Proof.
  unfold text_loads, text_dumps. rewrite list_ascii_of_string_of_list_ascii.
  pose proof (parse_print j (S (List.length (print j))) []) as R.
  rewrite app_nil_r in R. rewrite R by (lia || reflexivity). reflexivity.
Qed.

Local Close Scope char_scope.

Definition text_str (v : value) : string :=
  match v with
  | VStr s => s
  | VInt z => string_of_Z z
  | VBool true => "True"
  | VBool false => "False"
  | VNone => "None"
  | VFloat f => string_of_list_ascii (print_float f)
  | _ => "<object>"
  end.

#[export] Instance json_text : PyText := {|
  py_str := text_str;
  float_repr := fun f => string_of_list_ascii (print_float f);
  dumps := text_dumps;
  loads := text_loads;
  loads_dumps := text_loads_dumps
|}.

(* ================================================================= *)
(** ** Record types of the repository *)

Section Repository.
Context {T : PyTime}.

(** The fields of [JourneyObject], inherited by every record type. *)
Definition base_fields : list field_def :=
  [ mk_field "id" TStr None;
    mk_field "creation_date" TDatetime None;
    mk_field "update_date" TDatetime None ].

(** [t | None], [Optional[t]]. *)
Definition optional (t : pytype) : pytype := TUnion [t; TNone].

(** [0 <= v] and [v <= n] for an [int] bound: a number compares by value,
    anything else is a [TypeError]. *)
Definition int_le_value (n : Z) (v : value) : outcome bool :=
  match number_of_value v with
  | Some x => Ok (number_leb (number_of_Z n) x)
  | None => Raise (TypeError "'<=' not supported")
  end.

Definition value_le_int (v : value) (n : Z) : outcome bool :=
  match number_of_value v with
  | Some x => Ok (number_leb x (number_of_Z n))
  | None => Raise (TypeError "'<=' not supported")
  end.

(** [assert self.name is None or lo <= self.name <= hi, f"{message}{self.name}"]. *)
Definition assert_none_or_between (name : string) (lo hi : Z) (message : string)
  : validator :=
  fun h self =>
    match field_of h self name with
    | None => Raise (AttributeError name)
    | Some VNone => Ok tt
    | Some v =>
        match int_le_value lo v with
        | Ok true =>
            match value_le_int v hi with
            | Ok true => Ok tt
            | Ok false => Raise (AssertionError message [v])
            | Raise e => Raise e
            | Diverge => Diverge
            end
        | Ok false => Raise (AssertionError message [v])
        | Raise e => Raise e
        | Diverge => Diverge
        end
    end.

(** [joe/model/astro/base.py]: [class Orbit(JourneyObject)]. *)
Definition Orbit : class_def :=
  mk_class "Orbit"
    (base_fields ++
     [ mk_field "semi_major_axis" (optional TFloat) None;
       mk_field "eccentricity" (optional TFloat) None;
       mk_field "inclination" (optional TFloat) None;
       mk_field "argument_of_perigee" (optional TFloat) None;
       mk_field "raan" (optional TFloat) None;
       mk_field "true_anomaly" (optional TFloat) None ])
    [ ("validate_eccentricity",
       assert_none_or_between "eccentricity" 0 1 "Invalid eccentricity value: ");
      ("validate_inclination",
       assert_none_or_between "inclination" 0 180 "Invalid inclination value: ");
      ("validate_true_anomaly",
       assert_none_or_between "true_anomaly" 0 360 "Invalid true_anomaly value: ");
      ("validate_argument_of_perigee",
       assert_none_or_between "argument_of_perigee" 0 360
                              "Invalid argument_of_perigee value: ") ].

(** [joe/model/astro/base.py]: [class Attitude(JourneyObject)]. *)
Definition Attitude : class_def :=
  mk_class "Attitude"
    (base_fields ++
     [ mk_field "quaternions" (TListOf [TFloat]) None;
       mk_field "spin" (TListOf [TFloat]) None;
       mk_field "acceleration" (TListOf [TFloat]) None ])
    [].

(** [joe/model/other.py]: [Company], [Mission], [RequestForInformation]. *)
Definition Company : class_def :=
  mk_class "Company" (base_fields ++ [ mk_field "name" TStr None ]) [].

Definition Mission : class_def :=
  mk_class "Mission"
    (base_fields ++
     [ mk_field "created_by" (TRecord "Company") None;
       mk_field "name" TStr None;
       mk_field "launch_date" TDatetime None;
       mk_field "amd_enabled" TBool None ])
    [].

Definition RequestForInformation : class_def :=
  mk_class "RequestForInformation"
    (base_fields ++
     [ mk_field "created_by" (TRecord "Company") None;
       mk_field "mission" (TRecord "Mission") None;
       mk_field "request" TStr None ])
    [].

(** [joe/model/tickets/md.py]: [class PropagationResult(JourneyObject)]. *)
Definition PropagationResult : class_def :=
  mk_class "PropagationResult"
    (base_fields ++
     [ mk_field "timestamps" (TListOf [TDatetime]) None;
       mk_field "orbits" (TListOf [TRecord "Orbit"]) None;
       mk_field "masses" (TListOf [TFloat]) None;
       mk_field "attitudes" (TListOf [TRecord "Attitude"]) None;
       mk_field "lighting_ratios" (TListOf [TFloat]) None;
       mk_field "thrust_directions" (TListOf [TListOf [TFloat]]) None;
       mk_field "thrust_magnitudes" (TListOf [TFloat]) None;
       mk_field "delta_v" (TListOf [TFloat]) None;
       mk_field "total_impulse" (TListOf [TFloat]) None;
       mk_field "groundstation_events" (TListOf [TDict]) None;
       mk_field "target_events" (TListOf [TDict]) None ])
    [].

(** [a <= b]: numbers by value, text by code points. *)
Definition py_le (a b : value) : outcome bool :=
  match number_of_value a, number_of_value b with
  | Some x, Some y => Ok (number_leb x y)
  | _, _ =>
      match a, b with
      | VStr s1, VStr s2 => Ok (String.leb s1 s2)
      | _, _ => Raise (TypeError "'<=' not supported")
      end
  end.

(** [v > 0]. *)
Definition positive_value (v : value) : outcome bool :=
  match number_of_value v with
  | Some x => Ok (number_leb NumZero x && negb (number_eqb NumZero x))
  | None => Raise (TypeError "'>' not supported")
  end.

Definition must (message : string) (args : list value) (test : outcome bool)
  : outcome unit :=
  match test with
  | Ok true => Ok tt
  | Ok false => Raise (AssertionError message args)
  | Raise e => Raise e
  | Diverge => Diverge
  end.

(** [a <= b <= c]. *)
Definition py_le3 (a b c : value) : outcome bool :=
  match py_le a b with
  | Ok true => py_le b c
  | other => other
  end.

Definition is_none (v : value) : bool :=
  match v with VNone => true | _ => false end.

(** [joe/model/numerical/base.py]: [Propagator.validate_steps]. *)
Definition validate_steps : validator :=
  fun h self =>
    match field_of h self "min_step", field_of h self "max_step",
          field_of h self "first_step" with
    | Some min_step, Some max_step, Some first_step =>
        let local_min_step := if is_none min_step then VInt 0 else min_step in
        let local_max_step :=
          if is_none max_step then VFloat infinity else max_step in
        match must "" [] (if is_none min_step then Ok true
                          else py_le3 (VInt 0) min_step local_max_step) with
        | Ok _ =>
            match must "" [] (if is_none max_step then Ok true
                              else py_le local_min_step max_step) with
            | Ok _ =>
                must "" [] (if is_none first_step then Ok true
                            else py_le3 local_min_step first_step local_max_step)
            | other => other
            end
        | other => other
        end
    | _, _, _ => Raise (AttributeError "validate_steps")
    end.

(** [Propagator.validate_tolerances]. *)
Definition validate_tolerances : validator :=
  fun h self =>
    match field_of h self "tolerances" with
    | Some (VTuple [first; second]) =>
        match must "" [] (positive_value first) with
        | Ok _ =>
            must "" [] (if is_none second then Ok true else positive_value second)
        | other => other
        end
    | Some (VTuple _) => Raise (TypeError "tuple index out of range")
    | Some _ => Raise (TypeError "object is not subscriptable")
    | None => Raise (AttributeError "tolerances")
    end.

Definition Algorithm : pytype :=
  TEnum "Algorithm" [("RK45", VStr "RK45"); ("DOP853", VStr "DOP853")].

Definition AveragingMethod : pytype :=
  TEnum "AveragingMethod" [("DSST", VStr "DSST"); ("NONE", VStr "None")].

(** [class Propagator(JourneyObject)]. *)
Definition Propagator : class_def :=
  mk_class "Propagator"
    (base_fields ++
     [ mk_field "algorithm" Algorithm
                (Some (VEnum "Algorithm" "DOP853" (VStr "DOP853")));
       mk_field "averaging" AveragingMethod
                (Some (VEnum "AveragingMethod" "NONE" (VStr "None")));
       mk_field "min_step" (optional TFloat) (Some VNone);
       mk_field "max_step" (optional TFloat) (Some VNone);
       mk_field "first_step" (optional TFloat) (Some VNone);
       mk_field "tolerances" (TTupleOf [TFloat; optional TFloat])
                (Some (VTuple [VFloat 0.001; VNone])) ])
    [ ("validate_steps", validate_steps);
      ("validate_tolerances", validate_tolerances) ].

Definition joe_classes : list class_def :=
  [ Company; Mission; RequestForInformation; Orbit; Attitude; Propagator;
    PropagationResult ].

(** Keyword arguments, as a mapping. *)
Definition kwargs (items : list (string * value)) : list (value * value) :=
  map (fun '(k, v) => (VStr k, v)) items.

(** [Orbit.example], with a given eccentricity and given timestamps. *)
Definition orbit_kwargs (creation_date update_date eccentricity : value)
  : list (value * value) :=
  kwargs [ ("id", VStr "449465be-5533-40ad-9e85-bfa95b0ee39a");
           ("creation_date", creation_date);
           ("update_date", update_date);
           ("semi_major_axis", VFloat 7200.0);
           ("eccentricity", eccentricity);
           ("inclination", VFloat 85.3);
           ("argument_of_perigee", VFloat 6.29);
           ("raan", VFloat 260.74);
           ("true_anomaly", VFloat 0.0) ].

End Repository.

(* ================================================================= *)
(** * Properties of the engine *)

Section CoercionFacts.
Context {T : PyTime} {X : PyText}.
Variable classes : list class_def.

Lemma map_m_raises {A B} (f : A -> M B) (pre : list A) (x : A) (post : list A)
      (pre' : list B) (e : exn) (s s1 s2 : state) :
  map_m f pre s = (Ok pre', s1) ->
  f x s1 = (Raise e, s2) ->
  map_m f (pre ++ x :: post) s = (Raise e, s2).
Proof.
  revert pre' s. induction pre as [|a pre IH]; intros pre' s Hpre Hx.
  - cbn in Hpre. injection Hpre as <- <-. cbn. unfold bind. rewrite Hx. reflexivity.
  - cbn in Hpre |- *. unfold bind in Hpre |- *.
    destruct (f a s) as [[b| |] sa]; try discriminate.
    destruct (map_m f pre sa) as [[bs| |] sb] eqn:E; try discriminate.
    cbn in Hpre. injection Hpre as _ ->.
    rewrite (IH bs sa E Hx). reflexivity.
Qed.

Lemma construct_S (fuel : nat) (cls : string) (kwargs : list (value * value)) :
  construct classes (S fuel) cls kwargs
  = new_step classes (engine_at classes fuel) cls kwargs.
Proof. reflexivity. Qed.

Lemma rec_var_S (fuel : nat) :
  rec_var (engine_at classes (S fuel)) = deserialize_var_step (engine_at classes fuel).
Proof. reflexivity. Qed.

Lemma rec_simple_S (fuel : nat) :
  rec_simple (engine_at classes (S fuel))
  = deserialize_simple_var_step classes (engine_at classes fuel).
Proof. reflexivity. Qed.

(** C3. A float for a field whose only accepted type is [int] is not
    narrowed: the cast is asked for with an argument missing, the call raises
    [TypeError], and no warning is given. *)
Theorem float_for_int_only_raises (fuel : nat) (self_cls varname : string)
        (f : float) (s : state) :
  deserialize_simple_var classes (S fuel) self_cls varname (VFloat f) (Types [TInt]) s
  = (Raise (TypeError "_warncast() missing 1 required positional argument: 'outtype'"), s).
Proof. reflexivity. Qed.

(** The sibling path: an [int] for a field whose only accepted type is
    [float] is widened, with a warning. *)
Lemma int_for_float_only_widens (fuel : nat) (self_cls varname : string)
      (z : Z) (f : float) (s : state) :
  float_of_Z z = Some f ->
  deserialize_simple_var classes (S fuel) self_cls varname (VInt z) (Types [TFloat]) s
  = (Ok (VFloat f),
     mk_state (heap s) (all_joe_objs s) (caller_lists s)
              (warnings s ++ [("Casting " ++ varname
                                 ++ " from <class 'int'> to <class 'float'>.")%string])).
Proof.
  intros F. cbn. unfold _warncast, bind, warn, cast. cbn. rewrite F. reflexivity.
Qed.

(** A class that is not an enumeration: [bool], [int], [float], [str],
    [datetime], [list], [tuple], [dict] or a record type. *)
Definition is_class (t : pytype) : bool :=
  match t with
  | TBool | TInt | TFloat | TStr | TDatetime | TList | TTuple | TDict
  | TRecord _ => true
  | _ => false
  end.

(** C5. A mapping with at least one item, for a field declared [dict[K, V]]:
    when [K] is a class that is not an enumeration, the first key is coerced
    against the type object [K] where a tuple of types is expected, and the
    call raises the [TypeError] of [len(K)]; whatever type [K'] the keys are
    declared with, no mapping is returned.  A field declared [dict] returns
    the mapping as it is. *)
Theorem typed_mapping_raises (fuel : nat) (self_cls varname : string)
        (key_type any_key_type value_type : pytype) (key val : value)
        (items : list (value * value)) (s : state) :
  is_class key_type = true ->
  (let (exterior, interior) := decompose_type (TDictOf key_type value_type) in
   deserialize_var classes (S (S fuel)) self_cls varname
                   (VDict ((key, val) :: items)) exterior interior s)
  = (Raise (TypeError "object of type 'type' has no len()"), s)
  /\ (forall v s',
         (let (exterior, interior) :=
            decompose_type (TDictOf any_key_type value_type) in
          deserialize_var classes (S (S fuel)) self_cls varname
                          (VDict ((key, val) :: items)) exterior interior s)
         <> (Ok v, s'))
  /\ (let (exterior, interior) := decompose_type TDict in
      deserialize_var classes (S fuel) self_cls varname
                      (VDict ((key, val) :: items)) exterior interior s)
     = (Ok (VDict ((key, val) :: items)), s).
Proof.
  intros Class. split; [|split; [|reflexivity]].
  - destruct key_type; try discriminate Class; reflexivity.
  - intros v s'. cbn [decompose_type].
    unfold deserialize_var. rewrite rec_var_S. unfold deserialize_var_step.
    cbn [map_m]. unfold bind at 1 2 3. rewrite rec_simple_S.
    cbn [deserialize_simple_var_step]. unfold bare_type.
    destruct any_key_type; try discriminate;
      destruct key; try discriminate;
      unfold ret, mapping_value, bind, get_heap;
      destruct val; try discriminate;
      cbn [type_name]; try discriminate;
      destruct (nth_error _ _); discriminate.
Qed.

(** A sequence: a [list] or a [tuple]. *)
Definition sequence_items (v : value) : option (list value) :=
  match v with
  | VList items | VTuple items => Some items
  | _ => None
  end.

(** C9. A field declared as a tuple of two or more element types, given a
    sequence of another length, when the fields before it have been coerced:
    the construction raises the [JourneyUserInputException] of the tuple
    branch for that field, whose message is formatted from the sequence given
    and from the declared types. *)
Theorem fixed_tuple_length_mismatch
        (fuel : nat) (cls : string) (cd : class_def)
        (kwargs : list (value * value)) (kw : list (string * value))
        (pre post : list (string * value)) (pre' : list (string * value))
        (name : string) (inbound_var : value) (items : list value)
        (types : list pytype) (s s1 : state) :
  find_class classes cls = Some cd ->
  keywords kwargs = Ok kw ->
  bind_arguments (c_fields cd) kw = Ok (pre ++ (name, inbound_var) :: post) ->
  type_of_field cd name = TTupleOf types ->
  2 <= List.length types ->
  sequence_items inbound_var = Some items ->
  List.length items <> List.length types ->
  map_m (coerce_field (engine_at classes (S fuel)) cd) pre s = (Ok pre', s1) ->
  construct classes (S (S fuel)) cls kwargs s
  = (Raise (JourneyUserInputException name (LengthMismatch inbound_var types)), s1).
Proof.
  intros Hc Hk Hb Ht Hn Hi Hl Hpre.
  rewrite construct_S. unfold new_step.
  rewrite Hc. unfold bind at 1, lift at 1. rewrite Hk.
  unfold bind at 1, lift at 1. rewrite Hb.
  unfold bind at 1. unfold post_init. unfold bind at 1.
  rewrite (map_m_raises _ pre (name, inbound_var) post pre'
             (JourneyUserInputException name (LengthMismatch inbound_var types))
             s s1 s1 Hpre); [reflexivity|].
  unfold coerce_field. rewrite Ht. cbn [decompose_type]. rewrite rec_var_S.
  unfold bind, deserialize_var_step.
  destruct types as [|t1 [|t2 types']]; cbn in Hn; try lia.
  apply Nat.eqb_neq in Hl. rewrite Nat.eqb_sym in Hl.
  destruct inbound_var; try discriminate; injection Hi as ->;
    rewrite Hl; reflexivity.
Qed.

(** The inputs that reach the last case ([case _:]) of
    [deserialize_simple_var]. *)
Definition reaches_last_case (inbound_var : value) (expected_types : list pytype)
  : bool :=
  match inbound_var with
  | VNone => negb (type_in TNone expected_types)
  | VList _ => negb (type_in TList expected_types)
  | VDatetime _ => negb (type_in TDatetime expected_types)
  | VTuple _ | VEnum _ _ _ => true
  | _ => false
  end.

(** Coercion fails against every one of the [remaining] alternatives, tried
    in turn from state [s]: [pairs] holds each alternative with the
    exception its attempt raised, [s'] is the state after the last. *)
Inductive all_fail (rec : engine) (self_cls varname : string)
          (inbound_var : value) (expected_types : list pytype)
  : list pytype -> state -> list (pytype * exn) -> state -> Prop :=
| all_fail_nil (s : state) :
    all_fail rec self_cls varname inbound_var expected_types [] s [] s
| all_fail_cons (t : pytype) (remaining : list pytype) (s s1 s2 : state)
                (e : exn) (pairs : list (pytype * exn)) :
    try_expected_type rec self_cls varname inbound_var expected_types t s
    = (Raise e, s1) ->
    all_fail rec self_cls varname inbound_var expected_types remaining s1 pairs s2 ->
    all_fail rec self_cls varname inbound_var expected_types
             (t :: remaining) s ((t, e) :: pairs) s2.

Lemma all_fail_types rec self_cls varname inbound_var expected_types
      remaining s pairs s' :
  all_fail rec self_cls varname inbound_var expected_types remaining s pairs s' ->
  map fst pairs = remaining.
Proof. induction 1; cbn; congruence. Qed.

Lemma try_all_all_fail rec self_cls varname inbound_var expected_types
      remaining s pairs s' caught :
  all_fail rec self_cls varname inbound_var expected_types remaining s pairs s' ->
  try_all rec self_cls varname inbound_var expected_types remaining caught s
  = (Raise (JourneyUserInputException varname
              (TriedAll self_cls varname inbound_var expected_types
                        (caught ++ pairs))), s').
Proof.
  intros H. revert caught.
  induction H as [s|t remaining s s1 s2 e pairs Ht _ IH]; intros caught.
  - cbn. rewrite app_nil_r. reflexivity.
  - cbn [try_all]. rewrite Ht. rewrite IH. rewrite <- app_assoc. reflexivity.
Qed.

(** An input that reaches the last case of [deserialize_simple_var] and
    fails against every expected type: the call raises one
    [JourneyUserInputException], which carries each expected type in turn
    with the exception its attempt raised. *)
Lemma last_case_all_fail
      (fuel : nat) (self_cls varname : string) (inbound_var : value)
      (expected_types : list pytype) (pairs : list (pytype * exn))
      (s s' : state) :
  reaches_last_case inbound_var expected_types = true ->
  all_fail (engine_at classes fuel) self_cls varname inbound_var expected_types
           expected_types s pairs s' ->
  deserialize_simple_var classes (S fuel) self_cls varname inbound_var
                         (Types expected_types) s
  = (Raise (JourneyUserInputException varname
              (TriedAll self_cls varname inbound_var expected_types pairs)), s').
Proof.
  intros R F.
  pose proof (try_all_all_fail _ _ _ _ _ _ _ _ _ [] F) as TA. cbn [app] in TA.
  unfold deserialize_simple_var. rewrite rec_simple_S.
  unfold deserialize_simple_var_step.
  destruct inbound_var; cbn in R; try discriminate; try exact TA;
    match goal with
    | |- context [type_in ?t expected_types] =>
        destruct (type_in t expected_types); [discriminate | exact TA]
    end.
Qed.

(** [enumerate(xs)], counting from [i]. *)
Fixpoint enumerate_from {A} (i : nat) (xs : list A) : list (nat * A) :=
  match xs with
  | [] => []
  | x :: xs' => (i, x) :: enumerate_from (S i) xs'
  end.

(** The calls of [deserialize_simple_var] that [deserialize_var] makes
    itself for a field, in their order: one for the value of a field that is
    declared without a [list], [tuple] or [dict] around its types, one for
    each item of a field declared as a list or as a tuple.  Each is a name, an
    input and the tuple of expected types.  (The calls for the keys of a
    [dict[K, V]] field are not among them: they are given a type object.) *)
Definition direct_calls (varname : string) (inbound_var : value)
           (exterior_data_structure : option structure)
           (interior_expected_types : list pytype)
  : list (string * value * list pytype) :=
  match exterior_data_structure with
  | None => [(varname, inbound_var, interior_expected_types)]
  | Some OfList =>
      match inbound_var, interior_expected_types with
      | VList items, _ :: _ =>
          map (fun '(i, x) => (element_name varname i, x, interior_expected_types))
              (enumerate_from 0 items)
      | _, _ => []
      end
  | Some OfTuple =>
      match sequence_items inbound_var with
      | Some items =>
          match interior_expected_types with
          | [] => []
          | [t] =>
              map (fun '(i, x) => (element_name varname i, x, [t]))
                  (enumerate_from 0 items)
          | _ =>
              if Nat.eqb (List.length interior_expected_types) (List.length items)
              then map (fun '(i, (x, t)) => (element_name varname i, x, [t]))
                       (enumerate_from 0 (combine items interior_expected_types))
              else []
          end
      | None => []
      end
  | Some OfDict => []
  end.

(** One of these calls. *)
Definition direct_call (rec : engine) (self_cls : string)
           (call : string * value * list pytype) : M value :=
  let '(varname, inbound_var, expected_types) := call in
  rec_simple rec self_cls varname inbound_var (Types expected_types).

Lemma map_enumerate_enumerate_from {A B} (f : nat -> A -> M B) (xs : list A) :
  forall i, map_enumerate f i xs
            = map_m (fun '(j, x) => f j x) (enumerate_from i xs).
Proof.
  induction xs as [|x xs IH]; intros i; cbn; [reflexivity|].
  now rewrite IH.
Qed.

Lemma map_m_map {A B C} (f : B -> M C) (g : A -> B) (xs : list A) :
  map_m f (map g xs) = map_m (fun x => f (g x)) xs.
Proof.
  induction xs as [|x xs IH]; cbn; [reflexivity|]. now rewrite IH.
Qed.

Lemma map_m_ext {A B} (f g : A -> M B) (xs : list A) :
  (forall x, f x = g x) -> map_m f xs = map_m g xs.
Proof.
  intros E. induction xs as [|x xs IH]; cbn; [reflexivity|].
  now rewrite E, IH.
Qed.

(** When one of the calls [deserialize_var] makes itself raises, after the
    calls before it returned, [deserialize_var] raises the same exception:
    nothing catches it. *)
Lemma direct_call_raises (rec : engine) (self_cls varname : string)
      (inbound_var : value) (st : option structure) (ts : list pytype)
      (before after : list (string * value * list pytype))
      (call : string * value * list pytype) (before' : list value)
      (e : exn) (s s1 s2 : state) :
  direct_calls varname inbound_var st ts = before ++ call :: after ->
  map_m (direct_call rec self_cls) before s = (Ok before', s1) ->
  direct_call rec self_cls call s1 = (Raise e, s2) ->
  deserialize_var_step rec self_cls varname inbound_var st ts s = (Raise e, s2).
Proof.
  intros Calls Before Raises.
  assert (forall {A} (g : A -> string * value * list pytype) (L : list A)
                 (wrap : list value -> value),
             map g L = before ++ call :: after ->
             (items' <- map_m (fun a => direct_call rec self_cls (g a)) L ;;
              ret (wrap items')) s
             = (Raise e, s2)) as Run.
  { intros A g L wrap E. rewrite <- map_m_map, E.
    unfold bind.
    now rewrite (map_m_raises _ before call after before' e s s1 s2 Before Raises). }
  unfold deserialize_var_step, direct_calls in *.
  destruct st as [[| |]|].
  - destruct inbound_var; try (now destruct before).
    destruct ts as [|t ts]; [now destruct before|].
    rewrite map_enumerate_enumerate_from.
    rewrite <- (Run _ _ (enumerate_from 0 items) VList Calls).
    unfold bind. erewrite map_m_ext; [reflexivity|]. now intros [i x].
  - assert (forall items, sequence_items inbound_var = Some items ->
              match ts with
              | [] => ret (VTuple items)
              | [t] =>
                  items' <- map_enumerate
                              (fun i inbound_ele =>
                                 rec_simple rec self_cls (element_name varname i)
                                            inbound_ele (Types [t])) 0 items ;;
                  ret (VTuple items')
              | _ :: _ :: _ =>
                  if Nat.eqb (List.length ts) (List.length items)
                  then
                    items' <- map_enumerate
                                (fun i '(inbound_ele, t) =>
                                   rec_simple rec self_cls (element_name varname i)
                                              inbound_ele (Types [t]))
                                0 (combine items ts) ;;
                    ret (VTuple items')
                  else raise (JourneyUserInputException varname
                                (LengthMismatch inbound_var ts))
              end s = (Raise e, s2)) as Seq.
    { intros items Items. rewrite Items in Calls.
      destruct ts as [|t1 [|t2 ts]]; [now destruct before| |].
      - rewrite map_enumerate_enumerate_from.
        rewrite <- (Run _ _ (enumerate_from 0 items) VTuple Calls).
        unfold bind. erewrite map_m_ext; [reflexivity|]. now intros [i x].
      - destruct (Nat.eqb _ _); [|now destruct before].
        rewrite map_enumerate_enumerate_from.
        rewrite <- (Run _ _ (enumerate_from 0 (combine items (t1 :: t2 :: ts)))
                        VTuple Calls).
        unfold bind. erewrite map_m_ext; [reflexivity|]. now intros [i [x t]]. }
    destruct inbound_var; try (now destruct before); now apply Seq.
  - now destruct before.
  - destruct before as [|c before]; [|now destruct before].
    injection Calls as <- <-. cbn in Before. injection Before as _ <-.
    exact Raises.
Qed.

(** C6, for the calls that no fallback encloses.  While the field [name] is
    coerced -- the fields before it were -- [deserialize_var] calls
    [deserialize_simple_var] itself for an input: the value of the field, or
    an item of a field declared as a list or as a tuple, the calls before it
    having returned.  When the input reaches the last case and fails against
    every expected type, the construction raises one
    [JourneyUserInputException], which carries each expected type in turn
    with the exception its attempt raised. *)
Theorem every_alternative_failed_is_reported
        (fuel : nat) (cls : string) (cd : class_def)
        (kwargs : list (value * value)) (kw : list (string * value))
        (pre post : list (string * value)) (pre' : list (string * value))
        (name : string) (field_value : value)
        (st : option structure) (ts : list pytype)
        (before after : list (string * value * list pytype))
        (before' : list value)
        (varname : string) (inbound_var : value) (expected_types : list pytype)
        (pairs : list (pytype * exn)) (s s1 s2 s3 : state) :
  find_class classes cls = Some cd ->
  keywords kwargs = Ok kw ->
  bind_arguments (c_fields cd) kw = Ok (pre ++ (name, field_value) :: post) ->
  map_m (coerce_field (engine_at classes (S (S fuel))) cd) pre s = (Ok pre', s1) ->
  decompose_type (type_of_field cd name) = (st, ts) ->
  direct_calls name field_value st ts
  = before ++ (varname, inbound_var, expected_types) :: after ->
  map_m (direct_call (engine_at classes (S fuel)) (c_name cd)) before s1
  = (Ok before', s2) ->
  reaches_last_case inbound_var expected_types = true ->
  all_fail (engine_at classes fuel) (c_name cd) varname inbound_var
           expected_types expected_types s2 pairs s3 ->
  construct classes (S (S (S fuel))) cls kwargs s
  = (Raise (JourneyUserInputException varname
              (TriedAll (c_name cd) varname inbound_var expected_types pairs)),
     s3)
  /\ map fst pairs = expected_types.
Proof.
  intros Hc Hk Hb Hpre Ht Calls Before R F.
  split; [|exact (all_fail_types _ _ _ _ _ _ _ _ _ F)].
  rewrite construct_S. unfold new_step.
  rewrite Hc. unfold bind at 1, lift at 1. rewrite Hk.
  unfold bind at 1, lift at 1. rewrite Hb.
  unfold bind at 1. unfold post_init. unfold bind at 1.
  rewrite (map_m_raises _ pre (name, field_value) post pre'
             (JourneyUserInputException varname
                (TriedAll (c_name cd) varname inbound_var expected_types pairs))
             s s1 s3 Hpre); [reflexivity|].
  unfold coerce_field. rewrite Ht. rewrite rec_var_S. unfold bind.
  rewrite (direct_call_raises (engine_at classes (S fuel)) (c_name cd) name
             field_value st ts before after
             (varname, inbound_var, expected_types) before'
             (JourneyUserInputException varname
                (TriedAll (c_name cd) varname inbound_var expected_types pairs))
             s1 s2 s3 Calls Before); [reflexivity|].
  exact (last_case_all_fail fuel (c_name cd) varname inbound_var expected_types
           pairs s2 s3 R F).
Qed.

(** How deep unions nest in a type, and in a tuple of types. *)
Fixpoint nesting (t : pytype) : nat :=
  match t with
  | TUnion args =>
      S ((fix deepest (ts : list pytype) : nat :=
            match ts with
            | [] => 0
            | t' :: ts' => Nat.max (nesting t') (deepest ts')
            end) args)
  | _ => 0
  end.

Fixpoint deepest (ts : list pytype) : nat :=
  match ts with
  | [] => 0
  | t :: ts' => Nat.max (nesting t) (deepest ts')
  end.

Lemma nesting_union (args : list pytype) :
  nesting (TUnion args) = S (deepest args).
Proof.
  reflexivity.
Qed.

(** The values the idempotence property is about: a boolean, an integer, a
    float, a text, a list, a mapping, a timestamp, an enumeration member or a
    record instance. *)
Definition typed_shape (v : value) : bool :=
  match v with
  | VBool _ | VInt _ | VFloat _ | VStr _ | VList _ | VDict _
  | VDatetime _ | VEnum _ _ _ | VRef _ => true
  | VNone | VTuple _ | VEnumClass _ => false
  end.

(** [v] is an instance of one of the accepted types, as [isinstance] tests
    it against a class: no value is an instance of a parameterised type or
    of a union. *)
Definition already_typed (h : list obj) (v : value) (expected_types : list pytype)
  : bool :=
  existsb (isinstance h v) expected_types.

Lemma already_typed_in (h : list obj) (v : value) (ts : list pytype) (t0 : pytype) :
  already_typed h v ts = true ->
  (forall t, isinstance h v t = true -> pytype_eqb t0 t = true) ->
  type_in t0 ts = true.
Proof.
  unfold already_typed, type_in. rewrite !existsb_exists.
  intros (t & I & H) K. exists t. split; [exact I | exact (K t H)].
Qed.

(** An attempt on an enumeration member returns the member or raises, and
    leaves the state as it was. *)
Definition member_or_raise (v : value) (s : state) (r : outcome value * state)
  : Prop :=
  r = (Ok v, s) \/ exists e, r = (Raise e, s).

Lemma member_try_all (rec : engine) (self_cls varname enum member : string)
      (val : value) (ts remaining : list pytype) (s : state) :
  let v := VEnum enum member val in
  (forall t, In t remaining ->
             member_or_raise v s (try_expected_type rec self_cls varname v ts t s)) ->
  forall caught,
    member_or_raise v s (try_all rec self_cls varname v ts remaining caught s)
    /\ ((exists t, In t remaining
                   /\ try_expected_type rec self_cls varname v ts t s = (Ok v, s)) ->
        try_all rec self_cls varname v ts remaining caught s = (Ok v, s)).
Proof.
  intros v. induction remaining as [|t remaining IH]; intros H caught.
  - split.
    + right. eexists. reflexivity.
    + intros (t & [] & _).
  - cbn [try_all].
    destruct (H t (or_introl eq_refl)) as [E|(e & E)]; rewrite E.
    + split; [left; reflexivity | reflexivity].
    + destruct (IH (fun t' I => H t' (or_intror I)) (caught ++ [(t, e)])) as [A B].
      split; [exact A|].
      intros (t' & [<-|I] & K); [congruence|].
      apply B. exists t'. split; assumption.
Qed.

Lemma member_attempts (fuel : nat) :
  forall (self_cls varname enum member : string) (val : value)
         (ts : list pytype) (s : state),
    let v := VEnum enum member val in
    (forall t, In t ts -> 1 + 2 * nesting t <= fuel ->
               member_or_raise v s
                 (try_expected_type (engine_at classes fuel) self_cls varname v ts t s)).
Proof.
  induction fuel as [fuel IH] using lt_wf_ind.
  intros self_cls varname enum member val ts s v t I N.
  unfold try_expected_type.
  assert (forall st interior,
             member_or_raise v s
               (rec_var (engine_at classes fuel) self_cls varname v (Some st) interior s))
    as Container.
  { intros st interior. destruct fuel as [|fuel']; [lia|].
    rewrite rec_var_S. right. unfold deserialize_var_step.
    destruct st; eexists; reflexivity. }
  assert (forall t', member_or_raise v s
             ((h <- get_heap ;;
               if isinstance h v t' then ret v
               else raise (field_error "" self_cls varname v ts "")) s)) as Single.
  { intros t'. unfold bind, get_heap.
    destruct (isinstance (heap s) v t'); [left|right; eexists]; reflexivity. }
  destruct t; cbn [decompose_type]; try apply Single; try apply Container.
  destruct args as [|t1 [|t2 args]]; try apply Single.
  - (* Union of nothing *)
    destruct fuel as [|[|fuel']]; try (cbn in N; lia).
    rewrite rec_var_S. unfold deserialize_var_step. rewrite rec_simple_S.
    right. eexists. reflexivity.
  - rewrite nesting_union in N.
    destruct fuel as [|[|fuel']]; try lia.
    rewrite rec_var_S. unfold deserialize_var_step. rewrite rec_simple_S.
    unfold deserialize_simple_var_step. fold v.
    apply member_try_all.
    intros t' I'. apply IH; [lia|exact I'|].
    assert (nesting t' <= deepest (t1 :: t2 :: args)).
    { clear - I'. induction (t1 :: t2 :: args) as [|a l IHl]; [destruct I'|].
      cbn [deepest]. destruct I' as [<-|I']; [lia|]. specialize (IHl I'). lia. }
    lia.
Qed.

Lemma nesting_le_deepest (t : pytype) (ts : list pytype) :
  In t ts -> nesting t <= deepest ts.
Proof.
  induction ts as [|a l IH]; [intros []|].
  cbn [deepest]. intros [<-|I]; [lia|]. specialize (IH I). lia.
Qed.

(** C7, for the accepted types that are classes.  Coercion is idempotent on
    a value that is already typed: a boolean, an integer, a float, a text, a
    list, a mapping, a timestamp, an enumeration member or a record instance
    that [isinstance] finds to be an instance of one of the accepted types
    -- a list when [list] is accepted, a mapping when [dict] is -- is
    returned as it is, and the state is unchanged. *)
Theorem coercion_idempotent
        (fuel : nat) (self_cls varname : string) (v : value)
        (expected_types : list pytype) (s : state) :
  typed_shape v = true ->
  already_typed (heap s) v expected_types = true ->
  1 + 2 * deepest expected_types <= fuel ->
  deserialize_simple_var classes (S fuel) self_cls varname v (Types expected_types) s
  = (Ok v, s).
Proof.
  intros Shape Typed Fuel.
  unfold deserialize_simple_var. rewrite rec_simple_S.
  unfold deserialize_simple_var_step.
  assert (forall t0,
             (forall t, In t expected_types -> isinstance (heap s) v t = true ->
                        pytype_eqb t0 t = true) ->
             type_in t0 expected_types = true) as Accepted.
  { intros t0 K. unfold already_typed in Typed.
    apply existsb_exists in Typed as (t & I & H).
    apply existsb_exists. exists t. split; [exact I | exact (K t I H)]. }
  destruct v; try discriminate Shape.
  - (* a boolean: an instance of [bool] and of [int] *)
    destruct (type_in TBool expected_types) eqn:B; [reflexivity|].
    rewrite Accepted; [reflexivity|].
    intros t I H. destruct t; try discriminate H; [|reflexivity].
    exfalso. assert (type_in TBool expected_types = true); [|congruence].
    apply existsb_exists. exists TBool. split; [exact I|reflexivity].
  - rewrite Accepted; [reflexivity|].
    intros t _ H. destruct t; try discriminate H; reflexivity.
  - rewrite Accepted; [reflexivity|].
    intros t _ H. destruct t; try discriminate H; reflexivity.
  - rewrite Accepted; [reflexivity|].
    intros t _ H. destruct t; try discriminate H; reflexivity.
  - rewrite Accepted; [reflexivity|].
    intros t _ H. destruct t; try discriminate H; reflexivity.
  - rewrite Accepted; [reflexivity|].
    intros t _ H. destruct t; try discriminate H; reflexivity.
  - rewrite Accepted; [reflexivity|].
    intros t _ H. destruct t; try discriminate H; reflexivity.
  - (* an enumeration member: the last case tries every expected type *)
    apply member_try_all.
    + intros t I. apply member_attempts; [exact I|].
      pose proof (nesting_le_deepest t expected_types I). lia.
    + unfold already_typed in Typed.
      apply existsb_exists in Typed as (t & I & H).
      exists t. split; [exact I|].
      destruct t; try discriminate H.
      unfold try_expected_type. cbn [decompose_type]. unfold bind, get_heap.
      rewrite H. reflexivity.
  - reflexivity.
Qed.
End CoercionFacts.

(* ================================================================= *)
(** ** Validation *)

Section ValidationFacts.
Context {T : PyTime}.

Definition name_le {A} (a b : string * A) : Prop :=
  String.leb (fst a) (fst b) = true.

Lemma insert_by_name_perm {A} (x : string * A) (xs : list (string * A)) :
  Permutation (x :: xs) (insert_by_name x xs).
Proof.
  induction xs as [|y ys IH]; cbn; [reflexivity|].
  destruct (String.leb (fst x) (fst y)); [reflexivity|].
  rewrite perm_swap. apply perm_skip. exact IH.
Qed.

Lemma sort_by_name_perm {A} (xs : list (string * A)) :
  Permutation xs (sort_by_name xs).
Proof.
  induction xs as [|x xs IH]; cbn; [reflexivity|].
  rewrite <- insert_by_name_perm. apply perm_skip. exact IH.
Qed.

Lemma insert_by_name_sorted {A} (x : string * A) (xs : list (string * A)) :
  Sorted name_le xs -> Sorted name_le (insert_by_name x xs).
Proof.
  induction xs as [|y ys IH]; intros S; cbn.
  - repeat constructor.
  - destruct (String.leb (fst x) (fst y)) eqn:E.
    + constructor; [exact S|]. constructor. exact E.
    + inversion S as [|? ? Sys Hd]; subst.
      constructor; [apply IH; exact Sys|].
      assert (name_le y x) as Lyx.
      { unfold name_le. destruct (String.leb_total (fst x) (fst y)); congruence. }
      destruct ys as [|z zs]; cbn.
      * constructor. exact Lyx.
      * destruct (String.leb (fst x) (fst z)); constructor;
          [exact Lyx | inversion Hd; assumption].
Qed.

Lemma sort_by_name_sorted {A} (xs : list (string * A)) :
  Sorted name_le (sort_by_name xs).
Proof.
  induction xs as [|x xs IH]; cbn; [constructor|].
  apply insert_by_name_sorted. exact IH.
Qed.

Lemma call_each_stops (pre post : list (string * validator)) (name : string)
      (check : validator) (h : list obj) (self : loc) (e : exn) :
  Forall (fun c => snd c h self = Ok tt) pre ->
  check h self = Raise e ->
  call_each (pre ++ (name, check) :: post) h self = Raise e.
Proof.
  intros Hpre Hc. induction Hpre as [|[n c] pre Hn _ IH]; cbn.
  - rewrite Hc. reflexivity.
  - cbn in Hn. rewrite Hn. exact IH.
Qed.

Lemma call_each_passes (checks : list (string * validator)) (h : list obj)
      (self : loc) :
  Forall (fun c => snd c h self = Ok tt) checks ->
  call_each checks h self = Ok tt.
Proof.
  induction 1 as [|[n c] checks Hn _ IH]; cbn; [reflexivity|].
  cbn in Hn. rewrite Hn. exact IH.
Qed.

(** C4, as the code has it.  [validate] calls the [validate_*] methods of
    the record type in ascending order of their names -- the order of
    [dir(self)], a rearrangement of the order of declaration.  The first
    method that raises ends the validation with its exception, whatever the
    methods after it would do; when every method returns, and so when there is
    none, the validation passes. *)
Theorem validate_in_name_order_fail_fast
        (cd : class_def) (self : loc) (s : state)
        (pre post : list (string * validator)) (name : string)
        (check : validator) (e : exn) :
  dir_validators cd = pre ++ (name, check) :: post ->
  Forall (fun c => snd c (heap s) self = Ok tt) pre ->
  check (heap s) self = Raise e ->
  validate cd self s = (Raise e, s)
  /\ Sorted name_le (dir_validators cd)
  /\ Permutation (c_validators cd) (dir_validators cd)
  /\ (forall cd0 self0 s0,
         Forall (fun c => snd c (heap s0) self0 = Ok tt) (c_validators cd0) ->
         validate cd0 self0 s0 = (Ok tt, s0)).
Proof.
  intros D Hpre Hc. repeat split.
  - unfold validate, bind, get_heap, lift. rewrite D.
    rewrite (call_each_stops pre post name check (heap s) self e Hpre Hc).
    reflexivity.
  - apply sort_by_name_sorted.
  - apply sort_by_name_perm.
  - intros cd0 self0 s0 All. unfold validate, bind, get_heap, lift.
    rewrite call_each_passes; [reflexivity|].
    unfold dir_validators. rewrite Forall_forall in *.
    intros c I. apply All.
    apply (Permutation_in c (Permutation_sym (sort_by_name_perm (c_validators cd0)))).
    exact I.
Qed.
End ValidationFacts.

(* ================================================================= *)
(** ** Equality of instances without references *)

Section ValueInduction.
Context {T : PyTime}.
Variable P : value -> Prop.
Hypothesis P_none : P VNone.
Hypothesis P_bool : forall b, P (VBool b).
Hypothesis P_int : forall z, P (VInt z).
Hypothesis P_float : forall f, P (VFloat f).
Hypothesis P_str : forall s, P (VStr s).
Hypothesis P_list : forall xs, Forall P xs -> P (VList xs).
Hypothesis P_tuple : forall xs, Forall P xs -> P (VTuple xs).
Hypothesis P_dict :
  forall kvs, Forall (fun kv => P (fst kv) /\ P (snd kv)) kvs -> P (VDict kvs).
Hypothesis P_datetime : forall d, P (VDatetime d).
Hypothesis P_enum : forall e m val, P val -> P (VEnum e m val).
Hypothesis P_enum_class : forall e, P (VEnumClass e).
Hypothesis P_ref : forall l, P (VRef l).

Fixpoint value_nested_ind (v : value) : P v :=
  match v with
  | VNone => P_none
  | VBool b => P_bool b
  | VInt z => P_int z
  | VFloat f => P_float f
  | VStr s => P_str s
  | VList xs =>
      P_list xs ((fix all (l : list value) : Forall P l :=
                    match l with
                    | [] => Forall_nil P
                    | x :: l' => Forall_cons x (value_nested_ind x) (all l')
                    end) xs)
  | VTuple xs =>
      P_tuple xs ((fix all (l : list value) : Forall P l :=
                     match l with
                     | [] => Forall_nil P
                     | x :: l' => Forall_cons x (value_nested_ind x) (all l')
                     end) xs)
  | VDict kvs =>
      P_dict kvs
        ((fix all (l : list (value * value))
           : Forall (fun kv => P (fst kv) /\ P (snd kv)) l :=
            match l with
            | [] => Forall_nil _
            | kv :: l' =>
                Forall_cons kv
                  (conj (value_nested_ind (fst kv)) (value_nested_ind (snd kv)))
                  (all l')
            end) kvs)
  | VDatetime d => P_datetime d
  | VEnum e m val => P_enum e m val (value_nested_ind val)
  | VEnumClass e => P_enum_class e
  | VRef l => P_ref l
  end.
End ValueInduction.

Section ReferenceFree.
Context {T : PyTime}.

(** A value that holds no record instance, and no NaN. *)
Fixpoint ref_free (v : value) : bool :=
  match v with
  | VRef _ => false
  | VFloat f => negb (PrimFloat.is_nan f)
  | VList xs | VTuple xs => forallb ref_free xs
  | VDict kvs => forallb (fun kv => ref_free (fst kv) && ref_free (snd kv)) kvs
  | VEnum _ _ val => ref_free val
  | _ => true
  end.

(** Comparing a value without references never looks into the heap, and
    has an answer. *)
Definition heap_free (x : value) : Prop :=
  forall y, exists b, forall deref, value_eqb deref x y = Some b.

Lemma items_eqb_heap_free (xs : list value) :
  Forall heap_free xs ->
  forall ys, exists b, forall deref, items_eqb (value_eqb deref) xs ys = Some b.
Proof.
  induction 1 as [|x xs Hx _ IH]; intros [|y ys]; cbn;
    try (eexists; intros; reflexivity).
  destruct (Hx y) as [b Hb]. destruct (IH ys) as [b' Hb'].
  exists (if b then b' else false). intros deref. rewrite Hb, Hb'.
  destruct b; reflexivity.
Qed.

Lemma lookup_eqb_heap_free (k v : value) :
  heap_free k -> heap_free v ->
  forall ys, exists b, forall deref,
      lookup_eqb (value_eqb deref k) (value_eqb deref v) ys = Some b.
Proof.
  intros Hk Hv. induction ys as [|[k' v'] ys IH]; cbn.
  - eexists; intros; reflexivity.
  - destruct (Hk k') as [bk Hbk]. destruct (Hv v') as [bv Hbv].
    destruct IH as [b Hb].
    exists (if bk then bv else b). intros deref. rewrite Hbk.
    destruct bk; [apply Hbv | apply Hb].
Qed.

Lemma dict_eqb_heap_free (xs : list (value * value)) :
  Forall (fun kv => heap_free (fst kv) /\ heap_free (snd kv)) xs ->
  forall ys, exists b, forall deref, dict_eqb (value_eqb deref) xs ys = Some b.
Proof.
  induction 1 as [|[k v] xs [Hk Hv] _ IH]; intros ys; cbn.
  - eexists; intros; reflexivity.
  - destruct (lookup_eqb_heap_free k v Hk Hv ys) as [b Hb].
    destruct (IH ys) as [b' Hb'].
    exists (if b then b' else false). intros deref. rewrite Hb, Hb'.
    destruct b; reflexivity.
Qed.

Lemma ref_free_heap_free (x : value) : ref_free x = true -> heap_free x.
Proof.
  assert (forall v, not_nan v = true ->
                    forall a, number_of_value v = Some a -> heap_free v) as Num.
  { intros v N a A y.
    exists (match number_of_value y with
            | Some b => number_eqb a b
            | None => false
            end).
    intros deref.
    rewrite (value_eqb_number deref v y a A (number_of_value_not_nan v a N A)).
    now destruct (number_of_value y). }
  induction x as [ |b|z|f|s|xs IH|xs IH|kvs IH|d|e m val IH|e|l]
    using value_nested_ind; intros R y;
    try (eapply Num; [exact R | reflexivity]);
    try (destruct y; eexists; intros; reflexivity).
  - cbn in R. rewrite forallb_forall in R.
    assert (Forall heap_free xs) as H.
    { rewrite Forall_forall in *. intros x I. apply IH; [exact I|]. apply R, I. }
    destruct y; try (eexists; intros; reflexivity).
    apply (items_eqb_heap_free xs H).
  - cbn in R. rewrite forallb_forall in R.
    assert (Forall heap_free xs) as H.
    { rewrite Forall_forall in *. intros x I. apply IH; [exact I|]. apply R, I. }
    destruct y; try (eexists; intros; reflexivity).
    apply (items_eqb_heap_free xs H).
  - cbn in R. rewrite forallb_forall in R.
    assert (Forall (fun kv => heap_free (fst kv) /\ heap_free (snd kv)) kvs) as H.
    { rewrite Forall_forall in *. intros kv I.
      specialize (R kv I). apply andb_prop in R as [R1 R2].
      destruct (IH kv I) as [I1 I2]. split; [apply I1, R1 | apply I2, R2]. }
    destruct y; try (eexists; intros; reflexivity).
    cbn [value_eqb].
    destruct (Nat.eqb (List.length kvs) (List.length items));
      [|eexists; intros; reflexivity].
    apply (dict_eqb_heap_free kvs H).
  - discriminate R.
Qed.

(** An instance whose attributes hold no record instance. *)
Definition flat_instance (h : list obj) (self : loc) : Prop :=
  forall o, nth_error h self = Some o ->
            Forall (fun f => ref_free (snd f) = true) (obj_fields o).

Lemma fields_eqb_heap_free (xs : list (string * value)) :
  Forall (fun f => ref_free (snd f) = true) xs ->
  forall ys, exists b, forall deref, fields_eqb deref xs ys = Some b.
Proof.
  induction 1 as [|[n x] xs Hx _ IH]; intros [|[n' y] ys]; cbn;
    try (eexists; intros; reflexivity).
  destruct (ref_free_heap_free x Hx y) as [b Hb]. destruct (IH ys) as [b' Hb'].
  exists (if b then b' else false). intros deref. rewrite Hb, Hb'.
  destruct b; reflexivity.
Qed.

Lemma dataclass_eq_flat (h : list obj) (self other : loc) :
  flat_instance h self ->
  exists b, forall fuel, dataclass_eq (S fuel) h self other = Some b.
Proof.
  intros F. cbn [dataclass_eq]. unfold dataclass_eq_step.
  destruct (Nat.eqb self other); [eexists; intros; reflexivity|].
  destruct (nth_error h self) as [a|] eqn:A; [|eexists; intros; reflexivity].
  destruct (nth_error h other) as [b|]; [|eexists; intros; reflexivity].
  destruct (String.eqb (obj_class a) (obj_class b)); [|eexists; intros; reflexivity].
  destruct (fields_eqb_heap_free (obj_fields a) (F a A) (obj_fields b))
    as [r Hr].
  exists r. intros fuel. apply Hr.
Qed.

(** The scan of the registry for a flat instance comes to an end. *)
Lemma first_equal_flat (h : list obj) (self : loc) (members : list loc) :
  flat_instance h self ->
  exists r, forall fuel, first_equal (S fuel) h self members = Ok r.
Proof.
  intros F. induction members as [|m members [r IH]].
  - exists None. reflexivity.
  - destruct (dataclass_eq_flat h self m F) as [b Hb].
    exists (if b then Some m else r). intros fuel.
    cbn [first_equal]. rewrite Hb. destruct b; [reflexivity|apply IH].
Qed.
End ReferenceFree.

(* ================================================================= *)
(** ** Consolidation of an instance without record fields *)

Section LeafFacts.
Context {T : PyTime} {X : PyText}.
Variable classes : list class_def.

Definition registry_of (r : registry) (s : state) : list loc :=
  match r with
  | DefaultList => all_joe_objs s
  | CallerList i => nth i (caller_lists s) []
  end.

Definition appended (r : registry) (l : loc) (s : state) : state :=
  match r with
  | DefaultList =>
      mk_state (heap s) (all_joe_objs s ++ [l]) (caller_lists s) (warnings s)
  | CallerList i =>
      mk_state (heap s) (all_joe_objs s)
               (update_nth i (fun L => L ++ [l]) (caller_lists s)) (warnings s)
  end.

(** A record type none of whose fields is declared with a record type. *)
Definition leaf_class (cd : class_def) : Prop :=
  filter (is_record_field classes) (c_fields cd) = [].

(** [consolidate_family_tree] on an instance of a leaf class is the scan of
    the registry, and the append when the scan finds nothing. *)
Lemma consolidate_leaf (fuel : nat) (rec : engine) (self : loc) (r : registry)
      (s : state) (o : obj) (cd : class_def) :
  nth_error (heap s) self = Some o ->
  find_class classes (obj_class o) = Some cd ->
  leaf_class cd ->
  consolidate_family_tree_step classes fuel rec self r s
  = match first_equal fuel (heap s) self (registry_of r s) with
    | Ok (Some existing_obj) => (Ok existing_obj, s)
    | Ok None => (Ok self, appended r self s)
    | Raise e => (Raise e, s)
    | Diverge => (Diverge, s)
    end.
Proof.
  intros Hn Hc Hl. unfold consolidate_family_tree_step, joe_children.
  unfold bind, get_heap, get_registry, lift, registry_append, ret.
  rewrite Hn, Hc. unfold leaf_class in Hl. rewrite Hl. cbn.
  fold (registry_of r s).
  destruct (first_equal fuel (heap s) self (registry_of r s)) as [[e|]| |];
    try reflexivity; destruct r; reflexivity.
Qed.

Definition allocated (o : obj) (s : state) : state :=
  mk_state (heap s ++ [o]) (all_joe_objs s) (caller_lists s) (warnings s).

Lemma rec_consolidate_S (fuel : nat) :
  rec_consolidate (engine_at classes (S fuel))
  = consolidate_family_tree_step classes (S fuel) (engine_at classes fuel).
Proof. reflexivity. Qed.

(** The phases of a construction: the keywords are bound to the fields, ... *)
Lemma construct_bound (fuel : nat) (cls : string) (kwargs : list (value * value))
      (cd : class_def) (kw raw : list (string * value)) (s : state) :
  find_class classes cls = Some cd ->
  keywords kwargs = Ok kw ->
  bind_arguments (c_fields cd) kw = Ok raw ->
  construct classes (S fuel) cls kwargs s
  = match post_init (engine_at classes fuel) cd raw s with
    | (Ok self, s') => (Ok (VRef self), s')
    | (Raise e, s') => (Raise e, s')
    | (Diverge, s') => (Diverge, s')
    end.
Proof.
  intros Hc Hk Hb. rewrite construct_S. unfold new_step. rewrite Hc.
  unfold bind, lift. rewrite Hk, Hb.
  destruct (post_init (engine_at classes fuel) cd raw s) as [[self| |] s'];
    reflexivity.
Qed.

(** ... the fields are coerced, the instance is consolidated, then
    validated. *)
Lemma post_init_coerced (rec : engine) (cd : class_def)
      (raw coerced : list (string * value)) (s s1 : state) :
  map_m (coerce_field rec cd) raw s = (Ok coerced, s1) ->
  post_init rec cd raw s
  = let self := List.length (heap s1) in
    match rec_consolidate rec self DefaultList
                          (allocated (mk_obj (c_name cd) coerced) s1) with
    | (Ok _, s3) =>
        match call_each (dir_validators cd) (heap s3) self with
        | Ok _ => (Ok self, s3)
        | Raise e => (Raise e, s3)
        | Diverge => (Diverge, s3)
        end
    | (Raise e, s3) => (Raise e, s3)
    | (Diverge, s3) => (Diverge, s3)
    end.
Proof.
  intros Hm. unfold post_init. unfold bind at 1. rewrite Hm.
  unfold bind at 1. unfold allocate at 1. fold (allocated (mk_obj (c_name cd) coerced) s1).
  unfold bind at 1.
  destruct (rec_consolidate rec (List.length (heap s1)) DefaultList
              (allocated (mk_obj (c_name cd) coerced) s1)) as [[kept| |] s3];
    try reflexivity.
Qed.
End LeafFacts.

Section OrbitScenario.
Context {T : PyTime} {X : PyText}.

Lemma nth_error_new {A} (h : list A) (o : A) :
  nth_error (h ++ [o]) (List.length h) = Some o.
Proof.
  rewrite nth_error_app2 by lia. rewrite Nat.sub_diag. reflexivity.
Qed.

Lemma dir_validators_Orbit :
  dir_validators Orbit
  = [ ("validate_argument_of_perigee",
       assert_none_or_between "argument_of_perigee" 0 360
                              "Invalid argument_of_perigee value: ");
      ("validate_eccentricity",
       assert_none_or_between "eccentricity" 0 1 "Invalid eccentricity value: ");
      ("validate_inclination",
       assert_none_or_between "inclination" 0 180 "Invalid inclination value: ");
      ("validate_true_anomaly",
       assert_none_or_between "true_anomaly" 0 360 "Invalid true_anomaly value: ") ].
Proof. reflexivity. Qed.

(** The checks of [Orbit] read the instance only. *)
Lemma orbit_checks_local (h : list obj) (self : loc) (o : obj) :
  nth_error h self = Some o ->
  call_each (dir_validators Orbit) h self = call_each (dir_validators Orbit) [o] 0.
Proof.
  intros H. rewrite dir_validators_Orbit. cbn [call_each].
  unfold assert_none_or_between, field_of. rewrite H. reflexivity.
Qed.

(** The instance [Orbit( **orbit_kwargs )] builds, before it is validated. *)
Definition orbit_instance (d1 d2 : datetime) (eccentricity : value) : obj :=
  mk_obj "Orbit"
    [ ("id", VStr "449465be-5533-40ad-9e85-bfa95b0ee39a");
      ("creation_date", VDatetime d1); ("update_date", VDatetime d2);
      ("semi_major_axis", VFloat 7200.0); ("eccentricity", eccentricity);
      ("inclination", VFloat 85.3); ("argument_of_perigee", VFloat 6.29);
      ("raan", VFloat 260.74); ("true_anomaly", VFloat 0.0) ].

Lemma orbit_coerced (fuel : nat) (d1 d2 : datetime) (eccentricity : value)
      (s : state) :
  eccentricity = VNone
  \/ (exists f, eccentricity = VFloat f /\ PrimFloat.is_nan f = false) ->
  map_m (coerce_field (engine_at joe_classes (S (S fuel))) Orbit)
        (obj_fields (orbit_instance d1 d2 eccentricity)) s
  = (Ok (obj_fields (orbit_instance d1 d2 eccentricity)), s).
Proof. intros [->|(f & -> & _)]; reflexivity. Qed.

Lemma orbit_flat (d1 d2 : datetime) (eccentricity : value) (h : list obj) :
  eccentricity = VNone
  \/ (exists f, eccentricity = VFloat f /\ PrimFloat.is_nan f = false) ->
  flat_instance (h ++ [orbit_instance d1 d2 eccentricity]) (List.length h).
Proof.
  intros E o. rewrite nth_error_new. intros [= <-].
  destruct E as [->|(f & -> & N)]; repeat constructor.
  cbn. now rewrite N.
Qed.

Lemma construct_orbit (fuel : nat) (d1 d2 : datetime) (eccentricity : value)
      (s : state) :
  eccentricity = VNone
  \/ (exists f, eccentricity = VFloat f /\ PrimFloat.is_nan f = false) ->
  fst (construct joe_classes (3 + fuel) "Orbit"
         (orbit_kwargs (VDatetime d1) (VDatetime d2) eccentricity) s)
  = match call_each (dir_validators Orbit) [orbit_instance d1 d2 eccentricity] 0 with
    | Ok _ => Ok (VRef (List.length (heap s)))
    | Raise e => Raise e
    | Diverge => Diverge
    end.
Proof.
  intros E.
  change (3 + fuel) with (S (S (S fuel))).
  rewrite (construct_bound joe_classes (S (S fuel)) "Orbit" _ Orbit
             (obj_fields (orbit_instance d1 d2 eccentricity))
             (obj_fields (orbit_instance d1 d2 eccentricity)) s)
    by reflexivity.
  rewrite (post_init_coerced (engine_at joe_classes (S (S fuel))) Orbit _ _ s s
             (orbit_coerced fuel d1 d2 eccentricity s E)).
  cbv zeta. rewrite rec_consolidate_S.
  change (mk_obj (c_name Orbit) (obj_fields (orbit_instance d1 d2 eccentricity)))
    with (orbit_instance d1 d2 eccentricity).
  rewrite (consolidate_leaf joe_classes (S (S fuel)) _ (List.length (heap s))
             DefaultList _ (orbit_instance d1 d2 eccentricity) Orbit)
    by (try apply nth_error_new; reflexivity).
  destruct (first_equal_flat (heap (allocated (orbit_instance d1 d2 eccentricity) s))
              (List.length (heap s))
              (registry_of DefaultList (allocated (orbit_instance d1 d2 eccentricity) s))
              (orbit_flat d1 d2 eccentricity (heap s) E)) as [r Hr].
  rewrite Hr.
  destruct r as [existing_obj|]; cbn [appended heap allocated];
    rewrite (orbit_checks_local _ _ _ (nth_error_new (heap s) _));
    destruct (call_each (dir_validators Orbit)
                        [orbit_instance d1 d2 eccentricity] 0) as [[]| |];
    reflexivity.
Qed.

(** C8. [Orbit], whose [eccentricity] is [float | None] and must be between
    0 and 1: with the other fields as in [Orbit.example], the construction
    raises the [AssertionError] of [validate_eccentricity] for 1.5, and
    returns the new instance for [None] and for 0.001 -- in any state of the
    process. *)
Theorem orbit_eccentricity_scenario (fuel : nat) (d1 d2 : datetime) (s : state) :
  fst (construct joe_classes (3 + fuel) "Orbit"
         (orbit_kwargs (VDatetime d1) (VDatetime d2) (VFloat 1.5)) s)
  = Raise (AssertionError "Invalid eccentricity value: " [VFloat 1.5])
  /\ fst (construct joe_classes (3 + fuel) "Orbit"
            (orbit_kwargs (VDatetime d1) (VDatetime d2) VNone) s)
     = Ok (VRef (List.length (heap s)))
  /\ fst (construct joe_classes (3 + fuel) "Orbit"
            (orbit_kwargs (VDatetime d1) (VDatetime d2) (VFloat 0.001)) s)
     = Ok (VRef (List.length (heap s))).
Proof.
  rewrite !construct_orbit by (auto || (right; eexists; split; reflexivity)).
  repeat split; vm_compute; reflexivity.
Qed.
End OrbitScenario.

(* ================================================================= *)
(** * The properties at concrete inputs *)

Definition example_date : @datetime iso_time :=
  exist _ "2024-04-04T20:49:02" eq_refl.

Definition example_text : value := VStr "2024-04-04T20:49:02".

(** [Propagator( id=..., tolerances=[1.0, None, None] )]: three items for the
    two declared types of [tolerances: tuple[float, Optional[float]]]. *)
Definition propagator_kwargs (tolerances : value) : list (value * value) :=
  kwargs [ ("id", VStr "449465be-5533-40ad-9e85-bfa95b0ee39a");
           ("creation_date", example_text);
           ("update_date", example_text);
           ("tolerances", tolerances) ].

Lemma fixed_tuple_length_mismatch_witness :
  construct joe_classes 3 "Propagator"
            (propagator_kwargs (VList [VFloat 1.0; VNone; VNone])) empty_state
  = (Raise (JourneyUserInputException "tolerances"
              (LengthMismatch (VList [VFloat 1.0; VNone; VNone])
                              [TFloat; optional TFloat])), empty_state).
Proof.
  eapply (fixed_tuple_length_mismatch joe_classes 1 "Propagator" Propagator
            (propagator_kwargs (VList [VFloat 1.0; VNone; VNone])) _
            [ ("id", VStr "449465be-5533-40ad-9e85-bfa95b0ee39a");
              ("creation_date", example_text);
              ("update_date", example_text);
              ("algorithm", VEnum "Algorithm" "DOP853" (VStr "DOP853"));
              ("averaging", VEnum "AveragingMethod" "NONE" (VStr "None"));
              ("min_step", VNone); ("max_step", VNone); ("first_step", VNone) ]
            [] _ "tolerances").
  - reflexivity.
  - reflexivity.
  - reflexivity.
  - reflexivity.
  - simpl; lia.
  - reflexivity.
  - simpl; lia.
  - reflexivity.
Defined.

(** C9, as stated, fails: for three items given to the two declared types
    of [tolerances], the exception is not the arity error
    ([JUIFixedLengthError], whose message gives the expected length 2 and
    the length of the argument): it is the exception the base class makes
    from the sequence and the declared types; no length is among the values
    its message is formatted from.  Likewise for two items given to three
    declared types. *)
Lemma the_error_carries_no_lengths :
  fst (construct joe_classes 3 "Propagator"
         (propagator_kwargs (VList [VFloat 1.0; VNone; VNone])) empty_state)
  = Raise (JourneyUserInputException "tolerances"
             (LengthMismatch (VList [VFloat 1.0; VNone; VNone])
                             [TFloat; optional TFloat]))
  /\ fst (construct joe_classes 3 "Propagator"
            (propagator_kwargs (VList [VFloat 1.0; VNone; VNone])) empty_state)
     <> Raise (JourneyUserInputException "tolerances"
                 (FixedLength "tolerances" 2 (VList [VFloat 1.0; VNone; VNone])))
  /\ fst (deserialize_var joe_classes 1 "Record" "field"
            (VTuple [VFloat 1.0; VFloat 2.0]) (Some OfTuple)
            [TFloat; TFloat; TFloat] empty_state)
     = Raise (JourneyUserInputException "field"
                (LengthMismatch (VTuple [VFloat 1.0; VFloat 2.0])
                                [TFloat; TFloat; TFloat]))
  /\ fst (deserialize_var joe_classes 1 "Record" "field"
            (VTuple [VFloat 1.0; VFloat 2.0]) (Some OfTuple)
            [TFloat; TFloat; TFloat] empty_state)
     <> Raise (JourneyUserInputException "field"
                 (FixedLength "field" 3 (VTuple [VFloat 1.0; VFloat 2.0]))).
Proof.
  split; [reflexivity|]. split; [discriminate|].
  split; [reflexivity | discriminate].
Qed.

(** [Orbit( **Orbit.example )] with [eccentricity=()], for the field
    [eccentricity: float | None]. *)
Lemma every_alternative_failed_is_reported_witness :
  construct joe_classes 3 "Orbit"
            (orbit_kwargs example_text example_text (VTuple [])) empty_state
  = (Raise (JourneyUserInputException "eccentricity"
              (TriedAll "Orbit" "eccentricity" (VTuple []) [TFloat; TNone]
                 [ (TFloat,
                    field_error "" "Orbit" "eccentricity" (VTuple [])
                                [TFloat; TNone] "");
                   (TNone,
                    field_error "" "Orbit" "eccentricity" (VTuple [])
                                [TFloat; TNone] "") ])),
     empty_state)
  /\ map fst [ (TFloat,
                field_error "" "Orbit" "eccentricity" (VTuple [])
                            [TFloat; TNone] "");
               (TNone,
                field_error "" "Orbit" "eccentricity" (VTuple [])
                            [TFloat; TNone] "") ]
     = [TFloat; TNone].
Proof.
  apply (every_alternative_failed_is_reported joe_classes 0 "Orbit" Orbit
           (orbit_kwargs example_text example_text (VTuple []))
           [ ("id", VStr "449465be-5533-40ad-9e85-bfa95b0ee39a");
             ("creation_date", example_text); ("update_date", example_text);
             ("semi_major_axis", VFloat 7200.0); ("eccentricity", VTuple []);
             ("inclination", VFloat 85.3); ("argument_of_perigee", VFloat 6.29);
             ("raan", VFloat 260.74); ("true_anomaly", VFloat 0.0) ]
           [ ("id", VStr "449465be-5533-40ad-9e85-bfa95b0ee39a");
             ("creation_date", example_text); ("update_date", example_text);
             ("semi_major_axis", VFloat 7200.0) ]
           [ ("inclination", VFloat 85.3); ("argument_of_perigee", VFloat 6.29);
             ("raan", VFloat 260.74); ("true_anomaly", VFloat 0.0) ]
           [ ("id", VStr "449465be-5533-40ad-9e85-bfa95b0ee39a");
             ("creation_date", VDatetime example_date);
             ("update_date", VDatetime example_date);
             ("semi_major_axis", VFloat 7200.0) ]
           "eccentricity" (VTuple []) None [TFloat; TNone] [] [] []
           "eccentricity" (VTuple []) [TFloat; TNone] _
           empty_state empty_state empty_state empty_state).
  - reflexivity.
  - reflexivity.
  - reflexivity.
  - reflexivity.
  - reflexivity.
  - reflexivity.
  - reflexivity.
  - reflexivity.
  - eapply all_fail_cons; [reflexivity|].
    eapply all_fail_cons; [reflexivity|].
    apply all_fail_nil.
Defined.

(** A record type as a user of the library may declare it:
    [class Span(JourneyObject): bounds: tuple[float, float] | tuple]. *)
Definition Span : @class_def iso_time :=
  mk_class "Span"
           (base_fields
              ++ [ mk_field "bounds" (TUnion [TTupleOf [TFloat; TFloat]; TTuple])
                            None ])
           [].

Definition span_kwargs : list (value * value) :=
  kwargs [ ("id", VStr "449465be-5533-40ad-9e85-bfa95b0ee39a");
           ("creation_date", example_text);
           ("update_date", example_text);
           ("bounds", VTuple [VNone; VNone]) ].

(** C6, as stated, fails: in [Span( bounds=(None, None) )] the item [None]
    reaches the last case of the call made for it against [(float,)] and
    fails against every expected type; the exception of that call leaves the
    attempt of the alternative [tuple[float, float]], where the fallback of
    the field catches it; the alternative [tuple] then accepts the value, and
    the construction returns. *)
Lemma an_enclosed_failure_is_caught :
  reaches_last_case VNone [TFloat] = true
  /\ deserialize_simple_var [Span] 1 "Span" "bounds_0" VNone (Types [TFloat])
                            empty_state
     = (Raise (JourneyUserInputException "bounds_0"
                 (TriedAll "Span" "bounds_0" VNone [TFloat]
                    [ (TFloat,
                       field_error "" "Span" "bounds_0" VNone [TFloat] "") ])),
        empty_state)
  /\ try_expected_type (engine_at [Span] 2) "Span" "bounds"
                       (VTuple [VNone; VNone])
                       [TTupleOf [TFloat; TFloat]; TTuple]
                       (TTupleOf [TFloat; TFloat]) empty_state
     = (Raise (JourneyUserInputException "bounds_0"
                 (TriedAll "Span" "bounds_0" VNone [TFloat]
                    [ (TFloat,
                       field_error "" "Span" "bounds_0" VNone [TFloat] "") ])),
        empty_state)
  /\ construct [Span] 5 "Span" span_kwargs empty_state
     = (Ok (VRef 0),
        mk_state [ mk_obj "Span"
                     [ ("id", VStr "449465be-5533-40ad-9e85-bfa95b0ee39a");
                       ("creation_date", VDatetime example_date);
                       ("update_date", VDatetime example_date);
                       ("bounds", VTuple [VNone; VNone]) ] ]
                 [0] [] []).
Proof. split; [|split; [|split]]; reflexivity. Qed.

Lemma coercion_idempotent_witness :
  deserialize_simple_var joe_classes 2 "Propagator" "algorithm"
                         (VEnum "Algorithm" "RK45" (VStr "RK45"))
                         (Types [TNone; Algorithm]) empty_state
  = (Ok (VEnum "Algorithm" "RK45" (VStr "RK45")), empty_state).
Proof.
  apply (coercion_idempotent joe_classes 1); [reflexivity | reflexivity | simpl; lia].
Defined.

(** C7, as stated, fails.  A mapping is an instance of the accepted type
    [dict[str, int]] of a field [dict[str, int] | None]: it is not returned,
    the coercion raises.  A list is an instance of the accepted type
    [list[float]] of a field [tuple | list[float]]: a tuple is returned. *)
Lemma a_typed_mapping_is_rejected :
  deserialize_simple_var joe_classes 3 "Record" "field"
                         (VDict [(VStr "a", VInt 1)])
                         (Types [TDictOf TStr TInt; TNone]) empty_state
  = (Raise (field_error "DICT:" "Record" "field" (VDict [(VStr "a", VInt 1)])
                        [TDictOf TStr TInt; TNone] ""),
     empty_state)
  /\ deserialize_simple_var joe_classes 3 "Record" "field"
                            (VList [VFloat 1.0])
                            (Types [TTuple; TListOf [TFloat]]) empty_state
     = (Ok (VTuple [VFloat 1.0]), empty_state).
Proof. split; reflexivity. Qed.

(** A field declared [dict[str, int]], given [{'a': 1}]. *)
Lemma typed_mapping_raises_witness :
  (let (exterior, interior) := decompose_type (TDictOf TStr TInt) in
   deserialize_var joe_classes 2 "Record" "field" (VDict [(VStr "a", VInt 1)])
                   exterior interior empty_state)
  = (Raise (TypeError "object of type 'type' has no len()"), empty_state)
  /\ (forall v s',
         (let (exterior, interior) :=
            decompose_type (TDictOf Algorithm TInt) in
          deserialize_var joe_classes 2 "Record" "field"
                          (VDict [(VStr "a", VInt 1)]) exterior interior
                          empty_state)
         <> (Ok v, s'))
  /\ (let (exterior, interior) := decompose_type TDict in
      deserialize_var joe_classes 1 "Record" "field" (VDict [(VStr "a", VInt 1)])
                      exterior interior empty_state)
     = (Ok (VDict [(VStr "a", VInt 1)]), empty_state).
Proof.
  apply (typed_mapping_raises joe_classes 0 "Record" "field" TStr
           Algorithm TInt (VStr "a") (VInt 1) [] empty_state).
  reflexivity.
Defined.

(** An [Orbit] whose [eccentricity] is 1.5, alone in the heap. *)
Definition invalid_orbit_state : state :=
  mk_state [orbit_instance example_date example_date (VFloat 1.5)] [0] [] [].

Lemma validate_in_name_order_fail_fast_witness :
  validate Orbit 0 invalid_orbit_state
  = (Raise (AssertionError "Invalid eccentricity value: " [VFloat 1.5]),
     invalid_orbit_state)
  /\ Sorted name_le (dir_validators Orbit)
  /\ Permutation (c_validators Orbit) (dir_validators Orbit)
  /\ (forall cd0 self0 s0,
         Forall (fun c => snd c (heap s0) self0 = Ok tt) (c_validators cd0) ->
         validate cd0 self0 s0 = (Ok tt, s0)).
Proof.
  apply (validate_in_name_order_fail_fast Orbit 0 invalid_orbit_state
           [ ("validate_argument_of_perigee",
              assert_none_or_between "argument_of_perigee" 0 360
                                     "Invalid argument_of_perigee value: ") ]
           [ ("validate_inclination",
              assert_none_or_between "inclination" 0 180 "Invalid inclination value: ");
             ("validate_true_anomaly",
              assert_none_or_between "true_anomaly" 0 360
                                     "Invalid true_anomaly value: ") ]
           "validate_eccentricity"
           (assert_none_or_between "eccentricity" 0 1 "Invalid eccentricity value: ")).
  - reflexivity.
  - repeat constructor.
  - reflexivity.
Defined.

(** [Orbit.example] with [eccentricity=1.5] and [argument_of_perigee=400.0]:
    two checks fail. *)
Definition twice_invalid_orbit : list (value * value) :=
  kwargs [ ("id", VStr "449465be-5533-40ad-9e85-bfa95b0ee39a");
           ("creation_date", example_text);
           ("update_date", example_text);
           ("semi_major_axis", VFloat 7200.0);
           ("eccentricity", VFloat 1.5);
           ("inclination", VFloat 85.3);
           ("argument_of_perigee", VFloat 400.0);
           ("raan", VFloat 260.74);
           ("true_anomaly", VFloat 0.0) ].

(** C4, as stated, fails: [validate_eccentricity] is declared first and
    fails, yet the construction ends with the failure of
    [validate_argument_of_perigee], declared last. *)
Lemma validate_not_in_declared_order :
  fst (construct joe_classes 3 "Orbit" twice_invalid_orbit empty_state)
  = Raise (AssertionError "Invalid argument_of_perigee value: " [VFloat 400.0])
  /\ map fst (c_validators (@Orbit iso_time))
     = [ "validate_eccentricity"; "validate_inclination";
         "validate_true_anomaly"; "validate_argument_of_perigee" ]
  /\ call_each (c_validators Orbit)
               (heap (snd (construct joe_classes 3 "Orbit" twice_invalid_orbit
                                     empty_state))) 0
     = Raise (AssertionError "Invalid eccentricity value: " [VFloat 1.5]).
Proof. repeat split; vm_compute; reflexivity. Qed.

(* ================================================================= *)
(** * What every run of the engine keeps *)

Section Preservation.
Context {T : PyTime} {X : PyText}.
Variable classes : list class_def.

(** A relation between the state before and the state after. *)
Variable R : state -> state -> Prop.
Hypothesis R_refl : forall s, R s s.
Hypothesis R_trans : forall s1 s2 s3, R s1 s2 -> R s2 s3 -> R s1 s3.
Hypothesis R_warn : forall text s r s', warn text s = (r, s') -> R s s'.
Hypothesis R_allocate : forall o s r s', allocate o s = (r, s') -> R s s'.
Hypothesis R_setattr :
  forall self name v s r s', setattr self name v s = (r, s') -> R s s'.
Hypothesis R_append :
  forall reg l s r s', registry_append reg l s = (r, s') -> R s s'.

Definition keeps {A} (m : M A) : Prop :=
  forall s r s', m s = (r, s') -> R s s'.

Lemma keeps_ret {A} (a : A) : keeps (ret a).
Proof. intros s r s' [= <- <-]. apply R_refl. Qed.

Lemma keeps_raise {A} (e : exn) : keeps (@raise T A e).
Proof. intros s r s' [= <- <-]. apply R_refl. Qed.

Lemma keeps_diverge {A} : keeps (@diverge T A).
Proof. intros s r s' [= <- <-]. apply R_refl. Qed.

Lemma keeps_lift {A} (o : outcome A) : keeps (lift o).
Proof. intros s r s' [= <- <-]. apply R_refl. Qed.

Lemma keeps_get_heap : keeps get_heap.
Proof. intros s r s' [= <- <-]. apply R_refl. Qed.

Lemma keeps_get_registry (reg : registry) : keeps (get_registry reg).
Proof. intros s r s' [= <- <-]. apply R_refl. Qed.

Lemma keeps_getattr (self : loc) (name : string) : keeps (getattr self name).
Proof.
  intros s r s'. unfold getattr.
  destruct (field_of (heap s) self name); intros [= <- <-]; apply R_refl.
Qed.

Lemma keeps_bind {A B} (m : M A) (k : A -> M B) :
  keeps m -> (forall a, keeps (k a)) -> keeps (bind m k).
Proof.
  intros Hm Hk s r s'. unfold bind.
  destruct (m s) as [[a|e|] s1] eqn:E.
  - intros H. exact (R_trans _ _ _ (Hm _ _ _ E) (Hk a _ _ _ H)).
  - intros [= <- <-]. exact (Hm _ _ _ E).
  - intros [= <- <-]. exact (Hm _ _ _ E).
Qed.

Lemma keeps_map_m {A B} (f : A -> M B) (xs : list A) :
  (forall x, keeps (f x)) -> keeps (map_m f xs).
Proof.
  intros Hf. induction xs as [|x xs IH]; cbn [map_m].
  - apply keeps_ret.
  - apply keeps_bind; [apply Hf|]. intros y.
    apply keeps_bind; [exact IH|]. intros ys. apply keeps_ret.
Qed.

Lemma keeps_for_each {A} (f : A -> M unit) (xs : list A) :
  (forall x, keeps (f x)) -> keeps (for_each f xs).
Proof.
  intros Hf. induction xs as [|x xs IH]; cbn [for_each].
  - apply keeps_ret.
  - apply keeps_bind; [apply Hf|]. intros _. exact IH.
Qed.

Lemma keeps_map_enumerate {A B} (f : nat -> A -> M B) (xs : list A) (i : nat) :
  (forall j x, keeps (f j x)) -> keeps (map_enumerate f i xs).
Proof.
  intros Hf. revert i. induction xs as [|x xs IH]; intros i; cbn [map_enumerate].
  - apply keeps_ret.
  - apply keeps_bind; [apply Hf|]. intros y.
    apply keeps_bind; [apply IH|]. intros ys. apply keeps_ret.
Qed.

(** The four methods of an engine keep the relation. *)
Definition engine_keeps (rec : engine) : Prop :=
  (forall self_cls varname v e, keeps (rec_simple rec self_cls varname v e))
  /\ (forall self_cls varname v st ts, keeps (rec_var rec self_cls varname v st ts))
  /\ (forall cls kwargs, keeps (rec_new rec cls kwargs))
  /\ (forall self reg, keeps (rec_consolidate rec self reg)).

Lemma keeps_try_expected_type (rec : engine) self_cls varname v ts t :
  engine_keeps rec -> keeps (try_expected_type rec self_cls varname v ts t).
Proof.
  intros (_ & Hv & _ & _). unfold try_expected_type.
  destruct (decompose_type t) as [[st|] interior]; [apply Hv|].
  destruct interior as [|t1 [|t2 interior]]; try apply Hv.
  apply keeps_bind; [apply keeps_get_heap|]. intros h.
  destruct (isinstance h v t1); [apply keeps_ret | apply keeps_raise].
Qed.

Lemma keeps_try_all (rec : engine) self_cls varname v ts remaining caught :
  engine_keeps rec -> keeps (try_all rec self_cls varname v ts remaining caught).
Proof.
  intros H. revert caught.
  induction remaining as [|t remaining IH]; intros caught; cbn [try_all].
  - apply keeps_raise.
  - intros s r s'.
    destruct (try_expected_type rec self_cls varname v ts t s) as [[a|e|] s1] eqn:E.
    + intros [= <- <-]. exact (keeps_try_expected_type _ _ _ _ _ _ H _ _ _ E).
    + intros K. exact (R_trans _ _ _ (keeps_try_expected_type _ _ _ _ _ _ H _ _ _ E)
                                (IH _ _ _ _ K)).
    + intros [= <- <-]. exact (keeps_try_expected_type _ _ _ _ _ _ H _ _ _ E).
Qed.

Lemma keeps__warncast varname var intype outtype :
  keeps (_warncast varname var intype outtype).
Proof.
  unfold _warncast. apply keeps_bind; [exact (R_warn _)|]. intros _.
  unfold cast. destruct outtype, var; try apply keeps_raise; try apply keeps_ret.
  destruct (float_of_Z z); [apply keeps_ret | apply keeps_raise].
Qed.

Lemma keeps_bare_type self_cls varname v t :
  keeps (bare_type self_cls varname v t).
Proof.
  unfold bare_type.
  destruct t; try apply keeps_raise; try apply keeps_diverge.
  destruct v; try apply keeps_raise; try apply keeps_diverge; apply keeps_ret.
Qed.

Lemma keeps_mapping_value val : keeps (mapping_value val).
Proof.
  unfold mapping_value.
  destruct val; try apply keeps_raise;
    (apply keeps_bind; [apply keeps_get_heap|]; intros h;
     destruct (type_name h _); [apply keeps_raise | apply keeps_diverge]).
Qed.

Lemma keeps_simple_step (rec : engine) self_cls varname v e :
  engine_keeps rec ->
  keeps (deserialize_simple_var_step classes rec self_cls varname v e).
Proof.
  intros H. unfold deserialize_simple_var_step.
  destruct e as [ts|t]; [|apply keeps_bare_type].
  pose proof (keeps_try_all rec self_cls varname v ts ts [] H) as Fallback.
  assert (keeps (int_not_expected self_cls varname v ts)) as IntCase.
  { unfold int_not_expected. destruct (uniform ts) as [[]|];
      try apply keeps_raise; apply keeps__warncast. }
  destruct v;
    repeat match goal with
           | |- keeps (if ?c then _ else _) => destruct c
           end;
    try apply keeps_ret; try exact Fallback; try exact IntCase.
  - unfold float_not_expected. destruct (uniform ts) as [[]|]; apply keeps_raise.
  - unfold str_not_expected. destruct (uniform ts) as [[]|]; try apply keeps_ret.
    + destruct (fromisoformat s); [apply keeps_ret | apply keeps_raise].
    + destruct (value2member enum members s); [apply keeps_ret | apply keeps_raise].
  - destruct (first_subclass classes ts); [apply H | apply keeps_raise].
Qed.

Lemma keeps_var_step (rec : engine) self_cls varname v st ts :
  engine_keeps rec ->
  keeps (deserialize_var_step rec self_cls varname v st ts).
Proof.
  intros H. pose proof H as (Hs & _). unfold deserialize_var_step.
  destruct st as [[| |]|]; [| | |apply Hs].
  - destruct v; try apply keeps_raise.
    destruct ts; [apply keeps_ret|].
    apply keeps_bind; [|intros; apply keeps_ret].
    apply keeps_map_enumerate. intros; apply Hs.
  - assert (forall items, keeps
              match ts with
              | [] => ret (VTuple items)
              | [t] =>
                  items' <- map_enumerate
                              (fun i inbound_ele =>
                                 rec_simple rec self_cls (element_name varname i)
                                            inbound_ele (Types [t])) 0 items ;;
                  ret (VTuple items')
              | _ :: _ :: _ =>
                  if Nat.eqb (List.length ts) (List.length items)
                  then
                    items' <- map_enumerate
                                (fun i '(inbound_ele, t) =>
                                   rec_simple rec self_cls (element_name varname i)
                                              inbound_ele (Types [t]))
                                0 (combine items ts) ;;
                    ret (VTuple items')
                  else raise (JourneyUserInputException varname
                                (LengthMismatch v ts))
              end) as Seq.
    { intros items. destruct ts as [|t1 [|t2 ts]].
      - apply keeps_ret.
      - apply keeps_bind; [|intros; apply keeps_ret].
        apply keeps_map_enumerate. intros; apply Hs.
      - destruct (Nat.eqb _ _); [|apply keeps_raise].
        apply keeps_bind; [|intros; apply keeps_ret].
        apply keeps_map_enumerate. intros j [x t]; apply Hs. }
    destruct v; try apply keeps_raise; apply Seq.
  - destruct v; try apply keeps_raise.
    destruct ts; [apply keeps_ret|].
    apply keeps_bind; [|intros; apply keeps_ret].
    apply keeps_map_m. intros [key val].
    apply keeps_bind; [apply Hs|]. intros key'.
    apply keeps_bind; [apply keeps_mapping_value|]. intros; apply keeps_ret.
Qed.

Lemma keeps_consolidate_step (fuel : nat) (rec : engine) self reg :
  engine_keeps rec ->
  keeps (consolidate_family_tree_step classes fuel rec self reg).
Proof.
  intros (_ & _ & _ & Hc). unfold consolidate_family_tree_step.
  apply keeps_bind.
  { unfold joe_children. apply keeps_bind; [apply keeps_get_heap|]. intros h.
    destruct (nth_error h self); [|apply keeps_raise].
    destruct (find_class classes (obj_class o)); [|apply keeps_raise].
    apply keeps_map_m. intros f.
    apply keeps_bind; [apply keeps_getattr|]. intros; apply keeps_ret. }
  intros children. apply keeps_bind.
  { apply keeps_for_each. intros [name child].
    destruct child; try apply keeps_raise; try apply keeps_ret.
    apply keeps_bind; [apply Hc|]. intros kept. exact (R_setattr _ _ _). }
  intros _. apply keeps_bind; [apply keeps_get_registry|]. intros members.
  apply keeps_bind; [apply keeps_get_heap|]. intros h.
  apply keeps_bind; [apply keeps_lift|]. intros [existing|].
  - apply keeps_ret.
  - apply keeps_bind; [exact (R_append _ _)|]. intros; apply keeps_ret.
Qed.

Lemma keeps_new_step (rec : engine) cls kwargs :
  engine_keeps rec -> keeps (new_step classes rec cls kwargs).
Proof.
  intros H. pose proof H as (_ & Hv & _ & Hc). unfold new_step.
  destruct (find_class classes cls) as [cd|]; [|apply keeps_raise].
  apply keeps_bind; [apply keeps_lift|]. intros kw.
  apply keeps_bind; [apply keeps_lift|]. intros raw.
  apply keeps_bind; [|intros; apply keeps_ret].
  unfold post_init.
  apply keeps_bind.
  { apply keeps_map_m. intros [name v]. unfold coerce_field.
    destruct (decompose_type (type_of_field cd name)) as [st ts].
    apply keeps_bind; [apply Hv|]. intros; apply keeps_ret. }
  intros coerced. apply keeps_bind; [exact (R_allocate _)|]. intros self.
  apply keeps_bind; [apply Hc|]. intros _.
  apply keeps_bind; [|intros; apply keeps_ret].
  unfold validate. apply keeps_bind; [apply keeps_get_heap|]. intros h.
  apply keeps_lift.
Qed.

Lemma engine_at_keeps (fuel : nat) : engine_keeps (engine_at classes fuel).
Proof.
  induction fuel as [|fuel IH].
  - repeat split; intros; apply keeps_diverge.
  - repeat split; intros.
    + apply keeps_simple_step, IH.
    + apply keeps_var_step, IH.
    + apply keeps_new_step, IH.
    + apply keeps_consolidate_step, IH.
Qed.

End Preservation.

(* ================================================================= *)
(** * The default registry only grows *)

Section RegistryGrowth.
Context {T : PyTime} {X : PyText}.
Variable classes : list class_def.

(** [grows s s']: every member of the default registry of [s] is still
    there in [s'], at the same place. *)
Definition grows (s s' : state) : Prop :=
  exists more, all_joe_objs s' = all_joe_objs s ++ more.

Lemma grows_refl s : grows s s.
Proof. exists []. now rewrite app_nil_r. Qed.

Lemma grows_trans s1 s2 s3 : grows s1 s2 -> grows s2 s3 -> grows s1 s3.
Proof.
  intros [m1 E1] [m2 E2]. exists (m1 ++ m2). now rewrite E2, E1, app_assoc.
Qed.

Lemma grows_warn text s r s' : warn text s = (r, s') -> grows s s'.
Proof. intros [= <- <-]. now exists []; cbn; rewrite app_nil_r. Qed.

Lemma grows_allocate o s r s' : allocate o s = (r, s') -> grows s s'.
Proof. intros [= <- <-]. now exists []; cbn; rewrite app_nil_r. Qed.

Lemma grows_setattr self name v s r s' :
  setattr self name v s = (r, s') -> grows s s'.
Proof.
  unfold setattr. destruct (nth_error (heap s) self);
    intros [= <- <-]; exists []; cbn; now rewrite app_nil_r.
Qed.

Lemma grows_append reg l s r s' :
  registry_append reg l s = (r, s') -> grows s s'.
Proof.
  unfold registry_append. destruct reg; intros [= <- <-]; cbn.
  - now exists [l].
  - exists []; cbn; now rewrite app_nil_r.
Qed.

Lemma construct_grows fuel cls kwargs s r s' :
  construct classes fuel cls kwargs s = (r, s') -> grows s s'.
Proof.
  pose proof (engine_at_keeps classes grows grows_refl grows_trans grows_warn
                grows_allocate grows_setattr grows_append fuel)
    as (_ & _ & Hn & _).
  apply Hn.
Qed.

End RegistryGrowth.

(* ================================================================= *)
(** * Structural equality on a heap built by construction *)

Section StructuralEquality.
Context {T : PyTime}.

(** Every record instance the value holds was allocated before [p], and
    no float it holds is a NaN: the comparison of the value with another has
    an answer when the comparisons of the instances below [p] have. *)
Fixpoint refs_below (p : loc) (v : value) : bool :=
  match v with
  | VRef l => Nat.ltb l p
  | VFloat f => negb (PrimFloat.is_nan f)
  | VList xs | VTuple xs => forallb (refs_below p) xs
  | VDict kvs =>
      forallb (fun kv => refs_below p (fst kv) && refs_below p (snd kv)) kvs
  | VEnum _ _ val => refs_below p val
  | _ => true
  end.

Definition cell_below (p : loc) (o : obj) : bool :=
  forallb (fun f => refs_below p (snd f)) (obj_fields o).

(** An instance only holds instances allocated before it: its attributes
    were coerced before its own allocation.  And no instance holds a NaN. *)
Fixpoint downward_from (i : nat) (h : list obj) : bool :=
  match h with
  | [] => true
  | o :: h' => cell_below i o && downward_from (S i) h'
  end.

Definition downward (h : list obj) : Prop := downward_from 0 h = true.



Section Ext.
Variables (p q : loc) (deref deref' : loc -> loc -> option bool).
Hypothesis agree : forall a b, a < p -> b < q -> deref a b = deref' a b.






End Ext.

Section Total.
Variables (p : loc) (deref : loc -> loc -> option bool).
Hypothesis decided : forall a b, a < p -> deref a b <> None.






End Total.



(** [a == b], on a downward heap. *)
Definition same_as (h : list obj) (a b : loc) : bool :=
  match dataclass_eq (S a) h a b with
  | Some true => true
  | _ => false
  end.


(** Two heaps with the same instances below [p]. *)
Definition agree_below (p : loc) (h h' : list obj) : Prop :=
  forall l, l < p -> nth_error h l = nth_error h' l.



End StructuralEquality.

(* ================================================================= *)
(** * Structural equality is symmetric and transitive *)

Section EqualityLaws.
Context {T : PyTime}.



Definition has_key (k : string) (kv : value * value) : bool :=
  match fst kv with
  | VStr k' => String.eqb k k'
  | _ => false
  end.

(** The keys are text, and no key comes twice. *)
Fixpoint unique_text_keys (kvs : list (value * value)) : bool :=
  match kvs with
  | [] => true
  | (VStr k, _) :: rest => negb (existsb (has_key k) rest) && unique_text_keys rest
  | _ => false
  end.

(** A value all of whose mappings are keyed by text, as the decoding of a
    JSON document gives them, and none of whose floats is a NaN. *)
Fixpoint sound (v : value) : bool :=
  match v with
  | VFloat f => negb (PrimFloat.is_nan f)
  | VList xs | VTuple xs => forallb sound xs
  | VDict kvs => forallb (fun kv => sound (snd kv)) kvs && unique_text_keys kvs
  | VEnum _ _ val => sound val
  | _ => true
  end.







Section Comparison.
Variable deref : loc -> loc -> option bool.


End Comparison.




Lemma value_eqb_not_number (deref : loc -> loc -> option bool) (x y : value)
      (b : number) :
  number_of_value x = None -> number_of_value y = Some b ->
  value_eqb deref x y = Some true -> False.
Proof.
  destruct x; try discriminate; destruct y; try discriminate; cbn; discriminate.
Qed.





Section Symmetry.
Variable deref : loc -> loc -> option bool.
Hypothesis deref_sym :
  forall a b, deref a b = Some true -> deref b a = Some true.






End Symmetry.

Section Transitivity.
Variable deref : loc -> loc -> option bool.
Hypothesis deref_trans :
  forall a b c, deref a b = Some true -> deref b c = Some true ->
                deref a c = Some true.






End Transitivity.

End EqualityLaws.

(* ================================================================= *)
(** * Equality of instances, and the first equal member of a registry *)

Section InstanceEquality.
Context {T : PyTime}.

Definition sound_cell (o : obj) : bool :=
  forallb (fun f => sound (snd f)) (obj_fields o).

Definition sound_heap (h : list obj) : Prop := forallb sound_cell h = true.




Section OnAHeap.
Variable h : list obj.
Hypothesis Down : downward h.
Hypothesis Sound : sound_heap h.




End OnAHeap.

(** The first member of the registry equal to [c], in insertion order. *)
Definition first_match (h : list obj) (c : loc) (L : list loc) : option loc :=
  find (same_as h c) L.







(** A member that is the first one equal to itself: the instance that
    stands for all the instances equal to it. *)
Definition canonical (h : list obj) (L : list loc) (k : loc) : bool :=
  match first_match h k L with
  | Some e => Nat.eqb e k
  | None => false
  end.



End InstanceEquality.

(* ================================================================= *)
(** * Consolidation of an instance that was consolidated before *)

Section HeapUpdates.
Context {T : PyTime}.





Lemma nth_error_update_nth {A} (n l : nat) (f : A -> A) (xs : list A) :
  nth_error (update_nth n f xs) l
  = if Nat.eqb l n then option_map f (nth_error xs l) else nth_error xs l.
Proof.
  revert n l. induction xs as [|y xs IH]; intros [|n] [|l]; cbn;
    try reflexivity.
  - now destruct (Nat.eqb l n).
  - apply IH.
Qed.













End HeapUpdates.

Section Consolidated.
Context {T : PyTime} {X : PyText}.
Variable classes : list class_def.






Definition record_fields (cd : class_def) : list field_def :=
  filter (is_record_field classes) (c_fields cd).




(** A record field that was consolidated holds text, or the canonical
    member for the instance built there. *)
Definition child_settled (settled : loc -> bool) (h : list obj) (L : list loc)
           (fields : list (string * value)) (f : field_def) : bool :=
  match assoc (f_name f) fields with
  | Some (VStr _) => true
  | Some (VRef k) => settled k && canonical h L k
  | _ => false
  end.

(** [consolidated n h L c]: the instance [c], and the instances below it to
    depth [n], are as [consolidate_family_tree] leaves them. *)
Fixpoint consolidated (n : nat) (h : list obj) (L : list loc) (c : loc) : bool :=
  match n with
  | O => false
  | S n' =>
      match nth_error h c with
      | None => false
      | Some o =>
          match find_class classes (obj_class o) with
          | None => false
          | Some cd =>
              forallb (child_settled (consolidated n' h L) h L (obj_fields o))
                      (record_fields cd)
          end
      end
  end.











End Consolidated.

(* ================================================================= *)
(** * Consolidation at the end of a construction *)

Section FreshInstance.
Context {T : PyTime} {X : PyText}.
Variable classes : list class_def.



End FreshInstance.

(* ================================================================= *)
(** * The Graph Consolidator and the process-wide registry *)

Section ConsolidationFacts.
Context {T : PyTime} {X : PyText}.
Variable classes : list class_def.


Lemma first_equal_In (fuel : nat) (h : list obj) (c e : loc) (L : list loc) :
  first_equal fuel h c L = Ok (Some e) -> In e L.
Proof.
  induction L as [|m L IH]; cbn; [discriminate|].
  destruct (dataclass_eq fuel h c m) as [[|]|]; try discriminate.
  - intros [= ->]. now left.
  - intros H. right. now apply IH.
Qed.





End ConsolidationFacts.

(* ================================================================= *)
(** * The consolidator at concrete inputs *)

(** [Company.example], [Mission.example] and
    [RequestForInformation.example] of [joe/model/other.py]. *)
Definition company_example : list (value * value) :=
  kwargs [ ("id", VStr "449465be-5533-40ad-9e85-bfa95b0ee39a");
           ("creation_date", example_text);
           ("update_date", example_text);
           ("name", VStr "FubaruToTheMoon") ].

Definition mission_example : list (value * value) :=
  kwargs [ ("id", VStr "449465be-5533-40ad-9e85-bfa95b0ee39a");
           ("creation_date", example_text);
           ("update_date", example_text);
           ("created_by", VDict company_example);
           ("name", VStr "MyMissionToMars");
           ("launch_date", VStr "2027-04-04T20:49:02");
           ("amd_enabled", VBool true) ].

Definition rfi_example : list (value * value) :=
  kwargs [ ("id", VStr "449465be-5533-40ad-9e85-bfa95b0ee39a");
           ("creation_date", example_text);
           ("update_date", example_text);
           ("created_by", VDict company_example);
           ("mission", VDict mission_example);
           ("request", VStr "HALP") ].



Definition launch_date : @datetime iso_time :=
  exist _ "2027-04-04T20:49:02" eq_refl.

(** The instances these build. *)
Definition company_instance : obj :=
  mk_obj "Company"
    [ ("id", VStr "449465be-5533-40ad-9e85-bfa95b0ee39a");
      ("creation_date", VDatetime example_date);
      ("update_date", VDatetime example_date);
      ("name", VStr "FubaruToTheMoon") ].

Definition mission_fields (created_by : value) : list (string * value) :=
  [ ("id", VStr "449465be-5533-40ad-9e85-bfa95b0ee39a");
    ("creation_date", VDatetime example_date);
    ("update_date", VDatetime example_date);
    ("created_by", created_by);
    ("name", VStr "MyMissionToMars");
    ("launch_date", VDatetime launch_date);
    ("amd_enabled", VBool true) ].

Definition mission_instance (created_by : value) : obj :=
  mk_obj "Mission" (mission_fields created_by).


(** The process after [Company( **Company.example )]. *)
Definition after_company : state := mk_state [company_instance] [0] [] [].








(** [Orbit.example] with a NaN for [semi_major_axis]. *)
Definition nan_orbit : list (value * value) :=
  kwargs [ ("id", VStr "449465be-5533-40ad-9e85-bfa95b0ee39a");
           ("creation_date", example_text);
           ("update_date", example_text);
           ("semi_major_axis", VFloat PrimFloat.nan);
           ("eccentricity", VFloat 0.001);
           ("inclination", VFloat 85.3);
           ("argument_of_perigee", VFloat 6.29);
           ("raan", VFloat 260.74);
           ("true_anomaly", VFloat 0.0) ].

(** Where the embedding has no answer: a second [Orbit] built with a NaN is
    compared with the first; the two are equal when they were built from one
    mapping and so hold one float object, and unequal when they hold two. *)
Lemma two_nan_have_no_answer :
  fst (construct joe_classes 3 "Orbit" nan_orbit empty_state) = Ok (VRef 0)
  /\ fst (construct joe_classes 3 "Orbit" nan_orbit
            (snd (construct joe_classes 3 "Orbit" nan_orbit empty_state)))
     = Diverge.
Proof. split; reflexivity. Qed.

(* ================================================================= *)
(** * Encoding an instance and decoding it again *)

Section RoundTrip.
Context {T : PyTime} {X : PyText}.
Variable classes : list class_def.
































End RoundTrip.

(** The process after [Company( **Company.example )] and
    [Mission( **Mission.example )]: the company the mission built for itself
    is at 1, the mission at 2 holds the one at 0. *)
Definition after_mission : state :=
  mk_state [company_instance; company_instance; mission_instance (VRef 0)]
           [0; 2] [] [].









(* ================================================================= *)
(** * More fuel never changes a result *)

Section FuelMonotone.
Context {T : PyTime} {X : PyText}.
Variable classes : list class_def.

Section Mono.
Variables deref deref' : loc -> loc -> option bool.
Hypothesis more : forall a b v, deref a b = Some v -> deref' a b = Some v.






End Mono.









End FuelMonotone.

(* ================================================================= *)
(** * What every construction keeps true of the heap and the registry *)

Section GraphInvariant.
Context {T : PyTime} {X : PyText}.
Variable classes : list class_def.


(** The instance [l] is as its construction left it. *)
Definition settled (s : state) (l : loc) : bool :=
  consolidated classes (S l) (heap s) (all_joe_objs s) l.


(** The state of a process that only builds instances by construction,
    from arguments without NaN. *)
Definition wf_state (s : state) : Prop :=
  downward (heap s)
  /\ sound_heap (heap s)
  /\ Forall (fun m => m < List.length (heap s)) (all_joe_objs s)
  /\ Forall (fun m => settled s m = true) (all_joe_objs s).

(** From [s] to [s']: instances were added, none was changed, and the
    registry grew. *)
Definition ext (s s' : state) : Prop :=
  List.length (heap s) <= List.length (heap s')
  /\ agree_below (List.length (heap s)) (heap s) (heap s')
  /\ grows s s'.

Lemma ext_refl (s : state) : ext s s.
Proof. repeat split; [lia | apply grows_refl]. Qed.



















End GraphInvariant.

Section GraphInvariantAlways.
Context {T : PyTime} {X : PyText}.
Variable classes : list class_def.





End GraphInvariantAlways.

(* ================================================================= *)
(** * What a construction leaves in place *)

Section OnlyAdds.
Context {T : PyTime} {X : PyText}.
Variable classes : list class_def.

(** The warnings given so far stay, in their order. *)
Definition warned_before (s s' : state) : Prop :=
  exists more, warnings s' = warnings s ++ more.

(** Every instance is still there, of its class and with the names of its
    attributes. *)
Definition same_instances (s s' : state) : Prop :=
  forall l o, nth_error (heap s) l = Some o ->
    exists o', nth_error (heap s') l = Some o'
               /\ obj_class o' = obj_class o
               /\ map fst (obj_fields o') = map fst (obj_fields o).

Lemma warned_before_refl (s : state) : warned_before s s.
Proof. exists []. now rewrite app_nil_r. Qed.

Lemma warned_before_trans (s1 s2 s3 : state) :
  warned_before s1 s2 -> warned_before s2 s3 -> warned_before s1 s3.
Proof.
  intros [m1 E1] [m2 E2]. exists (m1 ++ m2). now rewrite E2, E1, app_assoc.
Qed.

Lemma same_instances_refl (s : state) : same_instances s s.
Proof. intros l o N. now exists o. Qed.

Lemma same_instances_trans (s1 s2 s3 : state) :
  same_instances s1 s2 -> same_instances s2 s3 -> same_instances s1 s3.
Proof.
  intros A B l o N. destruct (A l o N) as (o2 & N2 & C2 & F2).
  destruct (B l o2 N2) as (o3 & N3 & C3 & F3). exists o3.
  repeat split; [exact N3 | congruence | congruence].
Qed.

Lemma map_fst_assoc_set {A} (name : string) (v : A) (kvs : list (string * A)) :
  map fst (assoc_set name v kvs) = map fst kvs.
Proof.
  induction kvs as [|[k v'] kvs IH]; cbn; [reflexivity|].
  destruct (String.eqb k name); cbn; [reflexivity | now rewrite IH].
Qed.

Lemma same_instances_setattr (self : loc) (name : string) (v : value)
      (s : state) (r : outcome unit) (s' : state) :
  setattr self name v s = (r, s') -> same_instances s s'.
Proof.
  intros [= _ <-] l o N. cbn [heap]. rewrite nth_error_update_nth, N.
  destruct (Nat.eqb l self); cbn [option_map].
  - eexists. split; [reflexivity|]. cbn. split; [reflexivity|].
    apply map_fst_assoc_set.
  - now exists o.
Qed.

Lemma same_instances_allocate (o : obj) (s : state) (r : outcome loc)
      (s' : state) :
  allocate o s = (r, s') -> same_instances s s'.
Proof.
  intros [= _ <-] l o' N. exists o'. cbn [heap]. repeat split.
  rewrite nth_error_app1; [exact N|]. apply nth_error_Some. congruence.
Qed.

(** X1. Whatever a construction does -- return the new instance or raise at
    any point -- it only adds: the members of the default registry stay in
    place at its head, the warnings given before stay, and every instance
    that existed is still there, of the same class and with the same
    attribute names. *)
Theorem construction_only_adds (fuel : nat) (cls : string)
        (kwargs : list (value * value)) (s : state) :
  let s' := snd (construct classes fuel cls kwargs s) in
  (exists more, all_joe_objs s' = all_joe_objs s ++ more)
  /\ (exists more, warnings s' = warnings s ++ more)
  /\ (forall l o, nth_error (heap s) l = Some o ->
        exists o', nth_error (heap s') l = Some o'
                   /\ obj_class o' = obj_class o
                   /\ map fst (obj_fields o') = map fst (obj_fields o)).
Proof.
  destruct (construct classes fuel cls kwargs s) as [r s'] eqn:E. cbn [snd].
  split; [exact (construct_grows classes fuel cls kwargs s r s' E)|]. split.
  - assert (engine_keeps warned_before (engine_at classes fuel))
      as (_ & _ & Hn & _).
    { apply engine_at_keeps.
      - apply warned_before_refl.
      - apply warned_before_trans.
      - intros text s0 r0 s0' [= _ <-]. now exists [text].
      - intros o s0 r0 s0' [= _ <-]. exists []. cbn. now rewrite app_nil_r.
      - intros self name v s0 r0 s0' [= _ <-]. exists []. cbn.
        now rewrite app_nil_r.
      - intros reg l s0 r0 s0' [= _ <-]. exists [].
        destruct reg; cbn; now rewrite app_nil_r. }
    exact (Hn cls kwargs s r s' E).
  - assert (engine_keeps same_instances (engine_at classes fuel))
      as (_ & _ & Hn & _).
    { apply engine_at_keeps.
      - apply same_instances_refl.
      - apply same_instances_trans.
      - intros text s0 r0 s0' [= _ <-] l o N. now exists o.
      - apply same_instances_allocate.
      - apply same_instances_setattr.
      - intros reg l s0 r0 s0' [= _ <-] l0 o N. exists o.
        now destruct reg. }
    exact (Hn cls kwargs s r s' E).
Qed.

End OnlyAdds.

(* ================================================================= *)
(** * The keyword arguments of a construction *)

Section ArgumentBinding.
Context {T : PyTime} {X : PyText}.
Variable classes : list class_def.

Lemma bind_fields_missing (fields : list field_def) (kw : list (string * value))
      (f : field_def) :
  In f fields -> assoc (f_name f) kw = None -> f_default f = None ->
  bind_fields fields kw
  = Raise (TypeError "__init__() missing a required argument").
Proof.
  intros I A D. induction fields as [|g fields IH]; [destruct I|].
  cbn [bind_fields].
  destruct (match assoc (f_name g) kw with
            | Some v => Some v
            | None => f_default g
            end) as [v|] eqn:E; [|reflexivity].
  destruct I as [->|I]; [rewrite A, D in E; discriminate|].
  now rewrite (IH I).
Qed.

Lemma known_keywords (fields : list field_def) (kw : list (string * value)) :
  forallb (fun '(k, _) => existsb (fun f => String.eqb (f_name f) k) fields) kw
  = true
  <-> forall k v, In (k, v) kw -> exists f, In f fields /\ f_name f = k.
Proof.
  rewrite forallb_forall. split.
  - intros H k v I. specialize (H (k, v) I). cbn in H.
    apply existsb_exists in H as (f & If & E). exists f.
    now apply String.eqb_eq in E.
  - intros H [k v] I. destruct (H k v I) as (f & If & <-).
    apply existsb_exists. exists f. split; [exact If | apply String.eqb_refl].
Qed.

(** X2. A keyword that names no field of the record type stops the
    construction with a [TypeError] before anything else happens: no field
    is coerced, no warning given, no instance made and the registry is
    untouched. *)
Theorem unexpected_keyword_raises (fuel : nat) (cls : string)
        (kwargs : list (value * value)) (cd : class_def)
        (kw : list (string * value)) (k : string) (v : value) (s : state) :
  find_class classes cls = Some cd ->
  keywords kwargs = Ok kw ->
  In (k, v) kw ->
  (forall f, In f (c_fields cd) -> f_name f <> k) ->
  construct classes (S fuel) cls kwargs s
  = (Raise (TypeError "__init__() got an unexpected keyword argument"), s).
Proof.
  intros F K I Unknown. unfold construct. cbn [engine_at rec_new].
  unfold new_step. rewrite F. unfold bind, lift. rewrite K.
  unfold bind_arguments.
  destruct (forallb _ kw) eqn:Known; [|reflexivity].
  destruct (proj1 (known_keywords (c_fields cd) kw) Known k v I)
    as (f & If & E).
  now destruct (Unknown f If).
Qed.

(** X3. When every keyword names a field but a field without a default
    value is given no keyword, the construction stops with a [TypeError]
    before anything else happens, whatever the other arguments are. *)
Theorem missing_argument_raises (fuel : nat) (cls : string)
        (kwargs : list (value * value)) (cd : class_def)
        (kw : list (string * value)) (f : field_def) (s : state) :
  find_class classes cls = Some cd ->
  keywords kwargs = Ok kw ->
  (forall k v, In (k, v) kw -> exists g, In g (c_fields cd) /\ f_name g = k) ->
  In f (c_fields cd) ->
  assoc (f_name f) kw = None ->
  f_default f = None ->
  construct classes (S fuel) cls kwargs s
  = (Raise (TypeError "__init__() missing a required argument"), s).
Proof.
  intros F K Known I A D. unfold construct. cbn [engine_at rec_new].
  unfold new_step. rewrite F. unfold bind, lift. rewrite K.
  unfold bind_arguments.
  rewrite (proj2 (known_keywords (c_fields cd) kw) Known).
  now rewrite (bind_fields_missing _ _ f I A D).
Qed.

(** The instance a consolidation returns is a member of the registry. *)
Lemma consolidate_result_registered (fuel : nat) (self kept : loc)
      (s s' : state) :
  consolidate_family_tree classes fuel self DefaultList s = (Ok kept, s') ->
  In kept (all_joe_objs s')
  /\ (kept = self \/ dataclass_eq fuel (heap s') self kept = Some true).
Proof.
  destruct fuel as [|fuel]; [discriminate|].
  unfold consolidate_family_tree. cbn [engine_at rec_consolidate].
  unfold consolidate_family_tree_step, bind.
  destruct (joe_children classes self s) as [[children| |] s0];
    try discriminate.
  destruct (for_each _ children s0) as [[[]| |] s1]; try discriminate.
  cbn [get_registry get_heap lift].
  destruct (first_equal (S fuel) (heap s1) self (all_joe_objs s1))
    as [[existing_obj|]| |] eqn:Found; try discriminate.
  - intros [= <- <-]. split; [exact (first_equal_In _ _ _ _ _ Found)|].
    right. clear - Found. induction (all_joe_objs s1) as [|m L IH];
      cbn [first_equal] in Found; [discriminate|].
    destruct (dataclass_eq (S fuel) (heap s1) self m) as [[|]|] eqn:E;
      try discriminate.
    + injection Found as <-. exact E.
    + now apply IH.
  - intros [= <- <-]. cbn. split; [|now left].
    apply in_or_app. right. now left.
Qed.

(** X4. Validation comes after consolidation and undoes nothing: when a
    [validate_*] method raises, the construction raises that exception and
    the rejected instance -- or the equal member found in its place -- is a
    member of the registry all the same. *)
Theorem rejected_instance_stays_registered (fuel : nat) (cls : string)
        (kwargs : list (value * value)) (cd : class_def)
        (kw raw coerced : list (string * value)) (s s1 s2 : state)
        (kept : loc) (e : exn) :
  find_class classes cls = Some cd ->
  keywords kwargs = Ok kw ->
  bind_arguments (c_fields cd) kw = Ok raw ->
  map_m (coerce_field (engine_at classes fuel) cd) raw s = (Ok coerced, s1) ->
  consolidate_family_tree classes fuel (List.length (heap s1)) DefaultList
                          (allocated (mk_obj (c_name cd) coerced) s1)
  = (Ok kept, s2) ->
  call_each (dir_validators cd) (heap s2) (List.length (heap s1)) = Raise e ->
  construct classes (S fuel) cls kwargs s = (Raise e, s2)
  /\ In kept (all_joe_objs s2)
  /\ (kept = List.length (heap s1)
      \/ dataclass_eq fuel (heap s2) (List.length (heap s1)) kept = Some true).
Proof.
  intros F K B Coerce Consolidate Check. split.
  - unfold construct. cbn [engine_at rec_new]. unfold new_step. rewrite F.
    unfold bind at 1, lift at 1. rewrite K.
    unfold bind at 1, lift at 1. rewrite B.
    unfold bind at 1. unfold post_init. unfold bind at 1. rewrite Coerce.
    unfold bind at 1, allocate at 1.
    unfold consolidate_family_tree, allocated in Consolidate.
    unfold bind at 1. rewrite Consolidate.
    unfold bind at 1, validate, bind at 1, get_heap, lift. now rewrite Check.
  - exact (consolidate_result_registered _ _ _ _ _ Consolidate).
Qed.

End ArgumentBinding.

(* ================================================================= *)
(** * Edges of the coercion of a field *)

Section CoercionEdges.
Context {T : PyTime} {X : PyText}.
Variable classes : list class_def.

(** X5. A text is taken as the identifier of a record whatever simple type
    the field declares: unless the field is declared [datetime] or an
    enumeration alone, the text comes back unchanged and nothing else
    happens -- for a field declared [int], [float], [bool], a record type or
    any union of several types. *)
Theorem text_is_taken_as_identifier (fuel : nat) (self_cls varname txt : string)
        (interior_expected_types : list pytype) (s : state) :
  uniform interior_expected_types <> Some TDatetime ->
  (forall enum members,
      uniform interior_expected_types <> Some (TEnum enum members)) ->
  deserialize_var classes (S (S fuel)) self_cls varname (VStr txt) None
                  interior_expected_types s
  = (Ok (VStr txt), s).
Proof.
  intros NoDate NoEnum. unfold deserialize_var.
  cbn [engine_at rec_var rec_simple].
  unfold deserialize_var_step. cbn [rec_simple].
  unfold deserialize_simple_var_step.
  destruct (type_in TStr interior_expected_types); [reflexivity|].
  unfold str_not_expected.
  destruct (uniform interior_expected_types) as [[]|]; try reflexivity.
  - now destruct NoDate.
  - now destruct (NoEnum enum members).
Qed.

(** X6. The widening of an [int] to a [float] is for a field declared
    [float] alone.  For a field declared as a union of several types without
    [int] -- [Optional[float]], [float | None] -- an [int] raises the
    [JourneyUserInputException] of the field, and nothing else happens. *)
Theorem int_for_a_union_without_int_raises (fuel : nat)
        (self_cls varname : string) (z : Z)
        (interior_expected_types : list pytype) (s : state) :
  type_in TInt interior_expected_types = false ->
  uniform interior_expected_types = None ->
  deserialize_var classes (S (S fuel)) self_cls varname (VInt z) None
                  interior_expected_types s
  = (Raise (field_error "" self_cls varname (VInt z)
                        interior_expected_types ""), s).
Proof.
  intros NoInt Several. unfold deserialize_var.
  cbn [engine_at rec_var rec_simple].
  unfold deserialize_var_step. cbn [rec_simple].
  unfold deserialize_simple_var_step. rewrite NoInt.
  unfold int_not_expected. now rewrite Several.
Qed.

Lemma map_enumerate_length {A B} (f : nat -> A -> M B) (xs : list A) :
  forall i s ys s',
    map_enumerate f i xs s = (Ok ys, s') -> List.length ys = List.length xs.
Proof.
  induction xs as [|x xs IH]; intros i s ys s'; cbn [map_enumerate].
  - now intros [= <- _].
  - unfold bind at 1. destruct (f i x s) as [[y| |] s1]; try discriminate.
    unfold bind at 1.
    destruct (map_enumerate f (S i) xs s1) as [[ys'| |] s2] eqn:E;
      try discriminate.
    intros [= <- _]. cbn. now rewrite (IH _ _ _ _ E).
Qed.

(** X7. A field declared [list] or [list[...]] takes a list only, and what
    the coercion returns is a list of the same length. *)
Theorem list_field_keeps_its_length (fuel : nat) (self_cls varname : string)
        (inbound_var : value) (interior_expected_types : list pytype)
        (s : state) (r : value) (s' : state) :
  deserialize_var classes fuel self_cls varname inbound_var (Some OfList)
                  interior_expected_types s
  = (Ok r, s') ->
  exists given items,
    inbound_var = VList given /\ r = VList items
    /\ List.length items = List.length given.
Proof.
  destruct fuel as [|fuel]; [discriminate|]. unfold deserialize_var.
  cbn [engine_at rec_var]. unfold deserialize_var_step.
  destruct inbound_var; try discriminate.
  destruct interior_expected_types as [|t ts].
  - intros [= <- _]. now exists items, items.
  - unfold bind. destruct (map_enumerate _ 0 items s) as [[items'| |] s1] eqn:E;
      try discriminate.
    intros [= <- _]. exists items, items'. repeat split.
    exact (map_enumerate_length _ _ _ _ _ _ E).
Qed.

(** X8. A field declared [tuple] or [tuple[...]] takes a tuple or a list, and
    what the coercion returns is a tuple of the same length -- also when a
    list was given. *)
Theorem tuple_field_holds_a_tuple (fuel : nat) (self_cls varname : string)
        (inbound_var : value) (interior_expected_types : list pytype)
        (s : state) (r : value) (s' : state) :
  deserialize_var classes fuel self_cls varname inbound_var (Some OfTuple)
                  interior_expected_types s
  = (Ok r, s') ->
  exists given items,
    sequence_items inbound_var = Some given /\ r = VTuple items
    /\ List.length items = List.length given.
Proof.
  destruct fuel as [|fuel]; [discriminate|]. unfold deserialize_var.
  cbn [engine_at rec_var]. unfold deserialize_var_step.
  assert (forall items,
             match interior_expected_types with
             | [] => ret (VTuple items)
             | [t] =>
                 items' <- map_enumerate
                             (fun i inbound_ele =>
                                rec_simple (engine_at classes fuel) self_cls
                                           (element_name varname i)
                                           inbound_ele (Types [t]))
                             0 items ;;
                 ret (VTuple items')
             | _ =>
                 if Nat.eqb (List.length interior_expected_types)
                            (List.length items)
                 then
                   items' <- map_enumerate
                               (fun i '(inbound_ele, t) =>
                                  rec_simple (engine_at classes fuel) self_cls
                                             (element_name varname i)
                                             inbound_ele (Types [t]))
                               0 (combine items interior_expected_types) ;;
                   ret (VTuple items')
                 else
                   raise (JourneyUserInputException varname
                            (LengthMismatch inbound_var
                                            interior_expected_types))
             end s = (Ok r, s') ->
             exists items', r = VTuple items'
                            /\ List.length items' = List.length items) as Body.
  { intros items. destruct interior_expected_types as [|t [|t2 ts]].
    - intros [= <- _]. now exists items.
    - unfold bind.
      destruct (map_enumerate _ 0 items s) as [[items'| |] s1] eqn:E;
        try discriminate.
      intros [= <- _]. exists items'. split; [reflexivity|].
      exact (map_enumerate_length _ _ _ _ _ _ E).
    - destruct (Nat.eqb _ _) eqn:Len; [|discriminate].
      apply Nat.eqb_eq in Len. unfold bind.
      destruct (map_enumerate _ 0 _ s) as [[items'| |] s1] eqn:E;
        try discriminate.
      intros [= <- _]. exists items'. split; [reflexivity|].
      rewrite (map_enumerate_length _ _ _ _ _ _ E), length_combine, Len.
      apply Nat.min_id. }
  destruct inbound_var; try discriminate; intros Run;
    destruct (Body items Run) as (items' & -> & Len);
    exists items, items'; repeat split; exact Len.
Qed.

End CoercionEdges.

(* ================================================================= *)
(** * Only a mapping makes the engine build an instance *)

Section OnlyMappingsBuild.
Context {T : PyTime} {X : PyText}.
Variable classes : list class_def.

(** No mapping in the value, nor in the items of its lists and tuples: the
    places the engine looks at. *)
Fixpoint mapping_free (v : value) : bool :=
  match v with
  | VDict _ => false
  | VList xs | VTuple xs => forallb mapping_free xs
  | _ => true
  end.

(** The instances and the registries are as they were. *)
Definition quiet (s s' : state) : Prop :=
  heap s' = heap s /\ all_joe_objs s' = all_joe_objs s
  /\ caller_lists s' = caller_lists s.

Lemma quiet_refl (s : state) : quiet s s.
Proof. now repeat split. Qed.

Lemma quiet_trans (s1 s2 s3 : state) : quiet s1 s2 -> quiet s2 s3 -> quiet s1 s3.
Proof. intros (A & B & C) (D & E & F). repeat split; congruence. Qed.

Lemma quiet_warn (text : string) (s : state) (r : outcome unit) (s' : state) :
  warn text s = (r, s') -> quiet s s'.
Proof. intros [= _ <-]. now repeat split. Qed.

Lemma quiet_map_enumerate {A B} (f : nat -> A -> M B) (xs : list A) :
  (forall j x, In x xs -> keeps quiet (f j x)) ->
  forall i, keeps quiet (map_enumerate f i xs).
Proof.
  induction xs as [|x xs IH]; intros Hf i; cbn [map_enumerate].
  - apply keeps_ret, quiet_refl.
  - apply keeps_bind; [apply quiet_trans | apply Hf; now left |]. intros y.
    apply keeps_bind; [apply quiet_trans | |].
    + apply IH. intros j x' I. apply Hf. now right.
    + intros ys. apply keeps_ret, quiet_refl.
Qed.

Definition quiet_engine (rec : engine) : Prop :=
  (forall self_cls varname v e,
      mapping_free v = true -> keeps quiet (rec_simple rec self_cls varname v e))
  /\ (forall self_cls varname v st ts,
         mapping_free v = true ->
         keeps quiet (rec_var rec self_cls varname v st ts)).

Lemma quiet_try_all (rec : engine) self_cls varname v ts remaining caught :
  quiet_engine rec -> mapping_free v = true ->
  keeps quiet (try_all rec self_cls varname v ts remaining caught).
Proof.
  intros (_ & Hv) Free.
  assert (forall t, keeps quiet (try_expected_type rec self_cls varname v ts t))
    as Try.
  { intros t. unfold try_expected_type.
    destruct (decompose_type t) as [[st|] interior]; [now apply Hv|].
    destruct interior as [|t1 [|t2 interior]]; try now apply Hv.
    apply keeps_bind; [apply quiet_trans | apply keeps_get_heap, quiet_refl|].
    intros h. destruct (isinstance h v t1);
      [apply keeps_ret | apply keeps_raise]; apply quiet_refl. }
  revert caught.
  induction remaining as [|t remaining IH]; intros caught; cbn [try_all].
  - apply keeps_raise, quiet_refl.
  - intros s r s'.
    destruct (try_expected_type rec self_cls varname v ts t s)
      as [[a|e|] s1] eqn:E.
    + intros [= <- <-]. exact (Try _ _ _ _ E).
    + intros K. exact (quiet_trans _ _ _ (Try _ _ _ _ E) (IH _ _ _ _ K)).
    + intros [= <- <-]. exact (Try _ _ _ _ E).
Qed.

Lemma quiet_simple_step (rec : engine) self_cls varname v e :
  quiet_engine rec -> mapping_free v = true ->
  keeps quiet (deserialize_simple_var_step classes rec self_cls varname v e).
Proof.
  intros H Free. unfold deserialize_simple_var_step.
  destruct e as [ts|t]; [|apply keeps_bare_type, quiet_refl].
  pose proof (quiet_try_all rec self_cls varname v ts ts [] H Free) as Fallback.
  assert (keeps quiet (int_not_expected self_cls varname v ts)) as IntCase.
  { unfold int_not_expected. destruct (uniform ts) as [[]|];
      try apply keeps_raise, quiet_refl;
      (apply keeps__warncast;
       [apply quiet_refl | apply quiet_trans | apply quiet_warn]). }
  destruct v; try discriminate;
    repeat match goal with
           | |- keeps _ (if ?c then _ else _) => destruct c
           end;
    try apply keeps_ret, quiet_refl; try exact Fallback; try exact IntCase.
  - unfold float_not_expected.
    destruct (uniform ts) as [[]|]; apply keeps_raise, quiet_refl.
  - unfold str_not_expected.
    destruct (uniform ts) as [[]|]; try apply keeps_ret, quiet_refl.
    + destruct (fromisoformat s);
        [apply keeps_ret | apply keeps_raise]; apply quiet_refl.
    + destruct (value2member enum members s);
        [apply keeps_ret | apply keeps_raise]; apply quiet_refl.
Qed.

Lemma quiet_var_step (rec : engine) self_cls varname v st ts :
  quiet_engine rec -> mapping_free v = true ->
  keeps quiet (deserialize_var_step rec self_cls varname v st ts).
Proof.
  intros H Free. pose proof H as (Hs & _). unfold deserialize_var_step.
  destruct st as [[| |]|]; [| | |now apply Hs].
  - destruct v; try apply keeps_raise, quiet_refl.
    destruct ts; [apply keeps_ret, quiet_refl|].
    apply keeps_bind;
      [apply quiet_trans | | intros; apply keeps_ret, quiet_refl].
    apply quiet_map_enumerate. intros j x I. apply Hs.
    cbn [mapping_free] in Free. rewrite forallb_forall in Free. now apply Free.
  - assert (forall items, forallb mapping_free items = true ->
              keeps quiet
              match ts with
              | [] => ret (VTuple items)
              | [t] =>
                  items' <- map_enumerate
                              (fun i inbound_ele =>
                                 rec_simple rec self_cls (element_name varname i)
                                            inbound_ele (Types [t])) 0 items ;;
                  ret (VTuple items')
              | _ :: _ :: _ =>
                  if Nat.eqb (List.length ts) (List.length items)
                  then
                    items' <- map_enumerate
                                (fun i '(inbound_ele, t) =>
                                   rec_simple rec self_cls (element_name varname i)
                                              inbound_ele (Types [t]))
                                0 (combine items ts) ;;
                    ret (VTuple items')
                  else raise (JourneyUserInputException varname
                                (LengthMismatch v ts))
              end) as Seq.
    { intros items Items. rewrite forallb_forall in Items.
      destruct ts as [|t1 [|t2 ts]].
      - apply keeps_ret, quiet_refl.
      - apply keeps_bind;
          [apply quiet_trans | | intros; apply keeps_ret, quiet_refl].
        apply quiet_map_enumerate. intros j x I. apply Hs. now apply Items.
      - destruct (Nat.eqb _ _); [|apply keeps_raise, quiet_refl].
        apply keeps_bind;
          [apply quiet_trans | | intros; apply keeps_ret, quiet_refl].
        apply quiet_map_enumerate. intros j [x t] I. apply Hs.
        apply Items. exact (in_combine_l _ _ _ _ I). }
    destruct v; try apply keeps_raise, quiet_refl; now apply Seq.
  - destruct v; try discriminate; apply keeps_raise, quiet_refl.
Qed.

Lemma engine_at_quiet (fuel : nat) : quiet_engine (engine_at classes fuel).
Proof.
  induction fuel as [|fuel IH].
  - split; intros; apply keeps_diverge, quiet_refl.
  - split; intros.
    + now apply quiet_simple_step.
    + now apply quiet_var_step.
Qed.

(** X9. Only a mapping makes the coercion of a field build a record: for a
    value that holds no mapping (in itself or in the items of its lists and
    tuples), whatever the declared type and whatever the outcome, the
    instances and the registry are left exactly as they were -- at most
    warnings are added. *)
Theorem coercion_without_mapping_builds_nothing (fuel : nat)
        (self_cls varname : string) (inbound_var : value)
        (exterior_data_structure : option structure)
        (interior_expected_types : list pytype) (s : state) :
  mapping_free inbound_var = true ->
  let s' := snd (deserialize_var classes fuel self_cls varname inbound_var
                   exterior_data_structure interior_expected_types s) in
  heap s' = heap s /\ all_joe_objs s' = all_joe_objs s
  /\ caller_lists s' = caller_lists s.
Proof.
  intros Free.
  destruct (deserialize_var classes fuel self_cls varname inbound_var
              exterior_data_structure interior_expected_types s)
    as [r s'] eqn:E.
  exact (proj2 (engine_at_quiet fuel) _ _ _ _ _ Free _ _ _ E).
Qed.

End OnlyMappingsBuild.

(* ================================================================= *)
(** * The helpers of [joe/model/base.py] *)

Section Helpers.
Context {A : Type}.

(** [itertools.product( *iterables )]: the tuples in the order of nested
    loops, the last iterable running fastest. *)
Fixpoint product (iterables : list (list A)) : list (list A) :=
  match iterables with
  | [] => [[]]
  | pool :: rest => flat_map (fun x => map (cons x) (product rest)) pool
  end.

(** [product_dict( **kwargs )]: [kwargs] is a mapping from names to
    iterables, its keys distinct and in the order given; [dict(zip(keys,
    instance))] pairs the keys with the items of one tuple. *)
Definition product_dict (kwargs : list (string * list A))
  : list (list (string * A)) :=
  let keys := map fst kwargs in
  map (fun instance => combine keys instance) (product (map snd kwargs)).

Lemma length_flat_map_const {B C} (f : B -> list C) (xs : list B) (n : nat) :
  (forall x, List.length (f x) = n) ->
  List.length (flat_map f xs) = List.length xs * n.
Proof.
  intros H. induction xs as [|x xs IH]; cbn; [reflexivity|].
  now rewrite length_app, H, IH.
Qed.

Lemma length_product (iterables : list (list A)) :
  List.length (product iterables)
  = fold_right (fun pool n => List.length pool * n) 1 iterables.
Proof.
  induction iterables as [|pool rest IH]; cbn [product fold_right];
    [reflexivity|].
  rewrite (length_flat_map_const _ pool (List.length (product rest))).
  - now rewrite IH.
  - intros x. apply length_map.
Qed.

Lemma in_product (iterables : list (list A)) :
  forall instance,
    In instance (product iterables)
    <-> Forall2 (fun x pool => In x pool) instance iterables.
Proof.
  induction iterables as [|pool rest IH]; intros instance; cbn [product].
  - split.
    + intros [<-|[]]. constructor.
    + inversion 1. now left.
  - rewrite in_flat_map. split.
    + intros (x & Ix & I). apply in_map_iff in I as (tail & <- & It).
      constructor; [exact Ix | now apply IH].
    + inversion 1 as [|x pool' tail rest' Ix It]; subst.
      exists x. split; [exact Ix|]. apply in_map_iff. exists tail.
      split; [reflexivity | now apply IH].
Qed.

(** X10. [product_dict] gives as many mappings as there are ways to choose
    one item per keyword: the product of the lengths of the iterables (one
    empty mapping when no keyword is given, none when an iterable is
    empty). *)
Theorem product_dict_length (kwargs : list (string * list A)) :
  List.length (product_dict kwargs)
  = fold_right (fun kv n => List.length (snd kv) * n) 1 kwargs.
Proof.
  unfold product_dict. rewrite length_map, length_product.
  induction kwargs as [|kv kwargs IH]; cbn; [reflexivity | now rewrite IH].
Qed.

(** X11. The mappings [product_dict] gives are exactly the choices of one
    item per keyword: each has the keywords as its keys, in their order, with
    under each key an item of that keyword's iterable, and every such mapping
    is given. *)
Theorem product_dict_choices (kwargs : list (string * list A))
        (d : list (string * A)) :
  In d (product_dict kwargs)
  <-> Forall2 (fun item kv => fst item = fst kv /\ In (snd item) (snd kv))
              d kwargs.
Proof.
  unfold product_dict. rewrite in_map_iff. split.
  - intros (instance & <- & I). apply in_product in I.
    revert instance I. induction kwargs as [|[k pool] kwargs IH];
      intros instance I; inversion I; subst; cbn; constructor.
    + now split.
    + now apply IH.
  - intros F. exists (map snd d). split.
    + clear - F. induction F as [|[k x] [k' pool] d kwargs [E _] _ IH]; cbn;
        [reflexivity|].
      cbn in E. subst k'. now rewrite IH.
    + apply in_product. clear - F.
      induction F as [|[k x] [k' pool] d kwargs [_ I] _ IH]; cbn;
        constructor; assumption.
Qed.

End Helpers.

Section Tabs.

Definition newline_char : ascii := "010"%char.
Definition tab_char : ascii := "009"%char.

(** [s.split('\n')]: the pieces between the newlines; one piece, empty, for
    the empty text. *)
Fixpoint split_lines (s : string) : list string :=
  match s with
  | EmptyString => [EmptyString]
  | String c s' =>
      if Ascii.eqb c newline_char then EmptyString :: split_lines s'
      else match split_lines s' with
           | line :: lines => String c line :: lines
           | [] => [String c EmptyString]
           end
  end.

(** ['\n'.join(lines)]. *)
Fixpoint join_lines (lines : list string) : string :=
  match lines with
  | [] => EmptyString
  | line :: lines' =>
      match lines' with
      | [] => line
      | _ => line ++ String newline_char (join_lines lines')
      end
  end.

(** [add_one_tab(tabbed_str)]. *)
Definition add_one_tab (tabbed_str : string) : string :=
  let new_tabbed_str := split_lines tabbed_str in
  let new_tabbed_str :=
    map (fun newline => String tab_char newline) new_tabbed_str in
  join_lines new_tabbed_str.

(** The text with a tab put after each of its newlines. *)
Fixpoint tab_after_newlines (s : string) : string :=
  match s with
  | EmptyString => EmptyString
  | String c s' =>
      if Ascii.eqb c newline_char
      then String newline_char (String tab_char (tab_after_newlines s'))
      else String c (tab_after_newlines s')
  end.

Lemma split_lines_nonempty (s : string) : split_lines s <> [].
Proof.
  destruct s as [|c s]; cbn; [discriminate|].
  destruct (Ascii.eqb c newline_char); [discriminate|].
  destruct (split_lines s); discriminate.
Qed.

Lemma split_lines_cons (s : string) :
  exists line lines, split_lines s = line :: lines.
Proof.
  pose proof (split_lines_nonempty s). destruct (split_lines s) as [|l ls];
    [easy | now exists l, ls].
Qed.

Lemma join_tabbed (s : string) :
  join_lines (map (String tab_char) (split_lines s))
  = String tab_char (tab_after_newlines s).
Proof.
  induction s as [|c s IH]; cbn [split_lines tab_after_newlines];
    [reflexivity|].
  destruct (split_lines_cons s) as (l & ls & E). rewrite E in IH |- *.
  cbn [map] in IH.
  destruct (Ascii.eqb c newline_char) eqn:C.
  - apply Ascii.eqb_eq in C. subst c. cbn [map].
    change (join_lines (String tab_char "" :: String tab_char l
                                   :: map (String tab_char) ls))
      with (String tab_char
              (String newline_char
                 (join_lines (String tab_char l :: map (String tab_char) ls)))).
    now rewrite IH.
  - cbn [map]. cbn [join_lines] in IH |- *.
    destruct (map (String tab_char) ls); cbn in IH |- *;
      injection IH as <-; reflexivity.
Qed.

(** X12. [add_one_tab] indents every line by one tab and changes nothing
    else: the result is a tab followed by the text with a tab put after each
    newline, so that it has the lines of the text, in order, each behind one
    tab. *)
Theorem add_one_tab_indents_every_line (tabbed_str : string) :
  add_one_tab tabbed_str = String tab_char (tab_after_newlines tabbed_str)
  /\ split_lines (add_one_tab tabbed_str)
     = map (String tab_char) (split_lines tabbed_str).
Proof.
  unfold add_one_tab. rewrite join_tabbed. split; [reflexivity|].
  assert (forall s, split_lines (tab_after_newlines s)
                    = match split_lines s with
                      | line :: lines => line :: map (String tab_char) lines
                      | [] => []
                      end) as Lines.
  { induction s as [|c s IH]; cbn [split_lines tab_after_newlines];
      [reflexivity|].
    destruct (split_lines_cons s) as (l & ls & E). rewrite E in IH |- *.
    destruct (Ascii.eqb c newline_char) eqn:C.
    - cbn [split_lines]. rewrite (proj2 (Ascii.eqb_eq _ _) eq_refl).
      cbn [split_lines]. change (Ascii.eqb tab_char newline_char) with false.
      cbn iota. now rewrite IH.
    - cbn [split_lines]. rewrite C, IH. reflexivity. }
  cbn [split_lines]. change (Ascii.eqb tab_char newline_char) with false.
  cbn iota. rewrite Lines.
  destruct (split_lines_cons tabbed_str) as (l & ls & E). now rewrite E.
Qed.

End Tabs.

(* ================================================================= *)
(** * The document [to_json] writes *)

Section EncoderFacts.
Context {T : PyTime} {X : PyText}.

Lemma omap_Forall2 {A B} (f : A -> outcome B) (xs : list A) (ys : list B) :
  omap f xs = Ok ys -> Forall2 (fun x y => f x = Ok y) xs ys.
Proof.
  revert ys. induction xs as [|x xs IH]; intros ys; cbn [omap].
  - intros [= <-]. constructor.
  - destruct (f x) as [y| |] eqn:E; try discriminate. cbn [obind].
    destruct (omap f xs) as [ys'| |]; try discriminate. cbn [obind].
    intros [= <-]. constructor; [exact E | now apply IH].
Qed.

Lemma serialized_fields_Forall2 (h : list obj) (fields : list (string * value))
      (items : list (value * value)) :
  serialized_fields h fields = Ok items ->
  Forall2 (fun field item =>
             fst item = VStr (fst field)
             /\ JourneyObjectFieldSerializer h (snd field) = Ok (snd item))
          fields items.
Proof.
  revert items. induction fields as [|[name v] fields IH]; intros items;
    cbn [serialized_fields].
  - intros [= <-]. constructor.
  - destruct (JourneyObjectFieldSerializer h v) as [y| |] eqn:E;
      try discriminate. cbn [obind].
    destruct (serialized_fields h fields) as [ys| |]; try discriminate.
    cbn [obind]. intros [= <-]. constructor; [now split | now apply IH].
Qed.

(** A field that holds a list, a mapping or a timestamp is serialized as
    text. *)
Definition written_as_text (v : value) : Prop :=
  match v with
  | VList _ | VDict _ | VDatetime _ => True
  | _ => False
  end.

Lemma serializer_gives_text (h : list obj) (v y : value) :
  written_as_text v -> JourneyObjectFieldSerializer h v = Ok y ->
  exists t, y = VStr t.
Proof.
  destruct v; try easy; intros _; cbn [JourneyObjectFieldSerializer].
  - destruct (omap _ items) as [xs| |]; try discriminate. cbn [obind].
    destruct (json_dumps (VList xs)) as [t| |]; try discriminate.
    cbn [obind]. intros [= <-]. now exists t.
  - destruct (omap _ items) as [xs| |]; try discriminate. cbn [obind].
    destruct (json_dumps (VDict xs)) as [t| |]; try discriminate.
    cbn [obind]. intros [= <-]. now exists t.
  - intros [= <-]. now eexists.
Qed.

(** X13. The document [to_json] writes is a JSON object with one member per
    attribute of the instance, in their order and under their names; the
    member of an attribute that holds a list, a mapping or a timestamp is a
    JSON string -- never an array or an object. *)
Theorem to_json_document_shape (h : list obj) (self : loc) (o : obj)
        (text : string) :
  nth_error h self = Some o ->
  to_json h self = Ok text ->
  exists members,
    loads text = Some (JObj members)
    /\ map fst members = map fst (obj_fields o)
    /\ (forall name v, In (name, v) (obj_fields o) -> written_as_text v ->
                       exists t, In (name, JStr t) members).
Proof.
  intros N. unfold to_json. rewrite N.
  destruct (serialized_fields h (obj_fields o)) as [items| |] eqn:S;
    try discriminate.
  cbn [obind]. unfold json_dumps. cbn [json_of_value].
  destruct (omap _ items) as [members| |] eqn:J; try discriminate.
  cbn [obind]. intros [= <-]. exists members.
  split; [apply loads_dumps|].
  apply serialized_fields_Forall2 in S. apply omap_Forall2 in J.
  clear N. revert members J.
  induction S as [|[name v] [k y] fields items [K Y] S IH]; intros members J;
    inversion J as [|? [name' j] ? members' Member J']; subst.
  - split; [reflexivity | intros ? ? []].
  - cbn [fst snd] in K, Y, Member. subst k. cbn [json_key obind] in Member.
    destruct (json_of_value y) as [j'| |] eqn:Jy; try discriminate.
    cbn [obind] in Member. injection Member as <- <-.
    destruct (IH members' J') as (Names & Text). split.
    + cbn. now rewrite Names.
    + intros name' v' [[= <- <-]|I] W.
      * destruct (serializer_gives_text h v y W Y) as [t ->].
        cbn in Jy. injection Jy as <-. exists t. now left.
      * destruct (Text name' v' I W) as [t It]. exists t. now right.
Qed.

(** Two values the encoder cannot tell apart: the same value, or two
    record instances with the same [id]. *)
Definition same_identifier (h : list obj) (x y : value) : Prop :=
  x = y
  \/ exists a b, x = VRef a /\ y = VRef b
                 /\ field_of h a "id" = field_of h b "id".

Lemma serialized_fields_same (h : list obj) (xs ys : list (string * value)) :
  Forall2 (fun x y => fst x = fst y /\ same_identifier h (snd x) (snd y))
          xs ys ->
  serialized_fields h xs = serialized_fields h ys.
Proof.
  induction 1 as [|[n x] [n' y] xs ys [E Same] _ IH]; [reflexivity|].
  cbn [fst snd] in E, Same. subst n'. cbn [serialized_fields].
  rewrite IH.
  destruct Same as [->|(a & b & -> & -> & Id)]; [reflexivity|].
  cbn [JourneyObjectFieldSerializer]. now rewrite Id.
Qed.

(** X14. [JourneyObject.__eq__] compares the encoded forms, and the encoder
    writes a nested record as its [id] alone: two instances of one class
    whose attributes are the same, except that attributes may hold different
    record instances with the same [id], are equal for it -- whatever else
    the nested records hold. *)
Theorem oracle_sees_nested_records_by_id (h : list obj) (self other : loc)
        (a b : obj) (text : string) :
  nth_error h self = Some a ->
  nth_error h other = Some b ->
  obj_class a = obj_class b ->
  Forall2 (fun x y => fst x = fst y /\ same_identifier h (snd x) (snd y))
          (obj_fields a) (obj_fields b) ->
  to_json h self = Ok text ->
  to_json h other = Ok text /\ JourneyObject_eq h self other = Ok true.
Proof.
  intros Na Nb C Same J.
  assert (to_json h other = Ok text) as J'.
  { unfold to_json in J |- *. rewrite Na in J. rewrite Nb.
    now rewrite <- (serialized_fields_same h _ _ Same). }
  split; [exact J'|]. unfold JourneyObject_eq. rewrite Na.
  cbn [isinstance]. rewrite Nb, C, String.eqb_refl, J, J'. cbn [obind].
  now rewrite String.eqb_refl.
Qed.

End EncoderFacts.

(* ================================================================= *)
(** * The float of an int is a number *)

Section FloatOfInt.










End FloatOfInt.

(* ================================================================= *)
(** * The graph of instances, kept by every construction *)

Section EngineInvariant.
Context {T : PyTime} {X : PyText}.
Variable classes : list class_def.












(** [good s m Q]: run from the well-formed state [s], [m] leaves a
    well-formed state that extends [s] -- whether it returns or raises --
    and what it returns satisfies [Q] there. *)
Definition good {A} (s : state) (m : M A) (Q : state -> A -> Prop) : Prop :=
  wf_state classes s ->
  forall r s', m s = (r, s') -> r <> Diverge ->
    wf_state classes s' /\ ext s s' /\ forall a, r = Ok a -> Q s' a.



Lemma good_lift {A} (s : state) (o : outcome A) (Q : state -> A -> Prop) :
  (forall a, o = Ok a -> Q s a) -> good s (lift o) Q.
Proof.
  intros H W r s' [= <- <-] _. split; [exact W|].
  split; [apply ext_refl | exact H].
Qed.

































End EngineInvariant.

(* ================================================================= *)
(** * The further properties at concrete inputs *)

Lemma unexpected_keyword_raises_witness :
  construct joe_classes 1 "Company" (kwargs [("colour", VStr "red")])
            empty_state
  = (Raise (TypeError "__init__() got an unexpected keyword argument"),
     empty_state).
Proof.
  apply (unexpected_keyword_raises joe_classes 0 "Company"
           (kwargs [("colour", VStr "red")]) Company
           [("colour", VStr "red")] "colour" (VStr "red") empty_state).
  - reflexivity.
  - reflexivity.
  - now left.
  - intros f [<-|[<-|[<-|[<-|[]]]]]; discriminate.
Defined.

Lemma missing_argument_raises_witness :
  construct joe_classes 1 "Company"
            (kwargs [("id", VStr "449465be-5533-40ad-9e85-bfa95b0ee39a")])
            empty_state
  = (Raise (TypeError "__init__() missing a required argument"), empty_state).
Proof.
  apply (missing_argument_raises joe_classes 0 "Company"
           (kwargs [("id", VStr "449465be-5533-40ad-9e85-bfa95b0ee39a")])
           Company [("id", VStr "449465be-5533-40ad-9e85-bfa95b0ee39a")]
           (mk_field "creation_date" TDatetime None) empty_state).
  - reflexivity.
  - reflexivity.
  - intros k v [[= <- <-]|[]]. exists (mk_field "id" TStr None).
    split; [now left | reflexivity].
  - right. now left.
  - reflexivity.
  - reflexivity.
Defined.

(** [Orbit( **Orbit.example )] with the eccentricity 1.5, in a new process:
    the instance that is rejected is the one member of the registry. *)
Definition rejected_orbit : state :=
  mk_state [orbit_instance example_date example_date (VFloat 1.5)] [0] [] [].

Lemma rejected_instance_stays_registered_witness :
  construct joe_classes 3 "Orbit"
            (orbit_kwargs example_text example_text (VFloat 1.5)) empty_state
  = (Raise (AssertionError "Invalid eccentricity value: " [VFloat 1.5]),
     rejected_orbit)
  /\ In 0 (all_joe_objs rejected_orbit)
  /\ (0 = List.length (heap empty_state)
      \/ dataclass_eq 2 (heap rejected_orbit) (List.length (heap empty_state)) 0
         = Some true).
Proof.
  eapply (rejected_instance_stays_registered joe_classes 2 "Orbit"
            (orbit_kwargs example_text example_text (VFloat 1.5)) Orbit
            _ _
            (obj_fields (orbit_instance example_date example_date (VFloat 1.5)))
            empty_state empty_state rejected_orbit 0).
  - reflexivity.
  - reflexivity.
  - reflexivity.
  - reflexivity.
  - reflexivity.
  - reflexivity.
Defined.

Lemma text_is_taken_as_identifier_witness :
  deserialize_var joe_classes 2 "Mission" "amd_enabled" (VStr "yes") None
                  [TBool] empty_state
  = (Ok (VStr "yes"), empty_state).
Proof.
  apply (text_is_taken_as_identifier joe_classes 0 "Mission" "amd_enabled"
           "yes" [TBool] empty_state).
  - discriminate.
  - intros enum members. discriminate.
Defined.

Lemma int_for_a_union_without_int_raises_witness :
  deserialize_var joe_classes 2 "Orbit" "eccentricity" (VInt 0) None
                  [TFloat; TNone] empty_state
  = (Raise (field_error "" "Orbit" "eccentricity" (VInt 0) [TFloat; TNone] ""),
     empty_state).
Proof.
  apply (int_for_a_union_without_int_raises joe_classes 0 "Orbit"
           "eccentricity" 0 [TFloat; TNone] empty_state); reflexivity.
Defined.

Lemma list_field_keeps_its_length_witness :
  exists given items,
    VList [VFloat 0.0; VFloat 0.0; VFloat 0.0] = VList given
    /\ VList [VFloat 0.0; VFloat 0.0; VFloat 0.0] = VList items
    /\ List.length items = List.length given.
Proof.
  apply (list_field_keeps_its_length joe_classes 2 "Attitude" "spin"
           (VList [VFloat 0.0; VFloat 0.0; VFloat 0.0]) [TFloat]
           empty_state _ empty_state).
  reflexivity.
Defined.

Lemma tuple_field_holds_a_tuple_witness :
  exists given items,
    sequence_items (VList [VFloat 0.001; VNone]) = Some given
    /\ VTuple [VFloat 0.001; VNone] = VTuple items
    /\ List.length items = List.length given.
Proof.
  apply (tuple_field_holds_a_tuple joe_classes 5 "Propagator" "tolerances"
           (VList [VFloat 0.001; VNone]) [TFloat; optional TFloat]
           empty_state _ empty_state).
  reflexivity.
Defined.

Lemma coercion_without_mapping_builds_nothing_witness :
  let s' := snd (deserialize_var joe_classes 3 "Attitude" "spin"
                   (VList [VInt 1; VInt 0]) (Some OfList) [TFloat]
                   after_company) in
  heap s' = heap after_company
  /\ all_joe_objs s' = all_joe_objs after_company
  /\ caller_lists s' = caller_lists after_company.
Proof.
  apply (coercion_without_mapping_builds_nothing joe_classes 3 "Attitude"
           "spin" (VList [VInt 1; VInt 0]) (Some OfList) [TFloat]
           after_company).
  reflexivity.
Defined.

Lemma to_json_document_shape_witness :
  exists text members,
    to_json (heap after_mission) 2 = Ok text
    /\ loads text = Some (JObj members)
    /\ map fst members = map fst (obj_fields (mission_instance (VRef 0)))
    /\ (forall name v,
           In (name, v) (obj_fields (mission_instance (VRef 0))) ->
           written_as_text v -> exists t, In (name, JStr t) members).
Proof.
  eexists.
  assert (to_json (heap after_mission) 2 = Ok _) as J by reflexivity.
  destruct (to_json_document_shape (heap after_mission) 2
              (mission_instance (VRef 0)) _ eq_refl J) as (members & L & N & W).
  exists members. split; [exact J|]. split; [exact L|]. split; [exact N|exact W].
Defined.

(** Two companies with one [id] and two names, and a mission made by
    each. *)
Definition renamed_company : obj :=
  mk_obj "Company"
    [ ("id", VStr "449465be-5533-40ad-9e85-bfa95b0ee39a");
      ("creation_date", VDatetime example_date);
      ("update_date", VDatetime example_date);
      ("name", VStr "FubaruToMars") ].

Definition two_missions : list obj :=
  [ company_instance; renamed_company;
    mission_instance (VRef 0); mission_instance (VRef 1) ].

Lemma oracle_sees_nested_records_by_id_witness :
  dataclass_eq 4 two_missions 2 3 = Some false
  /\ exists text,
      to_json two_missions 2 = Ok text
      /\ to_json two_missions 3 = Ok text
      /\ JourneyObject_eq two_missions 2 3 = Ok true.
Proof.
  split; [reflexivity|]. eexists.
  assert (to_json two_missions 2 = Ok _) as J by reflexivity.
  split; [exact J|].
  apply (oracle_sees_nested_records_by_id two_missions 2 3
           (mission_instance (VRef 0)) (mission_instance (VRef 1)) _
           eq_refl eq_refl eq_refl); [|exact J].
  repeat (constructor;
          [split; [reflexivity
                  | first [ left; reflexivity
                          | right; exists 0, 1; repeat split ] ]|]).
  constructor.
Defined.






(* ================================================================= *)
(** * Bounds: [check_bound] and the checks of [joe/model/astro/sat.py] *)

Section Bounds.
Context {T : PyTime}.

(** A bound of [check_bound], declared [None | int | float]. *)
Inductive bound : Type :=
| BoundInt (z : Z)
| BoundFloat (f : float).

Definition number_of_bound (b : bound) : number :=
  match b with
  | BoundInt z => number_of_Z z
  | BoundFloat f => number_of_float f
  end.

(** [a < b] on numbers. *)
Definition number_ltb (a b : number) : bool :=
  number_leb a b && negb (number_eqb a b).

(** What a check gives: it returns, or raises [JUIBoundsError(arg_name,
    min_bound, max_bound, arg)], the [TypeError] of a comparison, or the
    [AttributeError] of [getattr]. *)
Inductive checked : Type :=
| Passed
| JUIBoundsError (parameter_name : string) (min_bound max_bound : option bound)
                 (given_arg : value)
| ComparisonTypeError
| MissingAttribute (name : string).

(** [bound > arg] and [bound < arg] for a number [bound]: a [bool], an
    [int] or a [float] compares by value, anything else has no order with a
    number. *)
Definition bound_gt (b : bound) (arg : value) : option bool :=
  match number_of_value arg with
  | Some x => Some (number_ltb x (number_of_bound b))
  | None => None
  end.

Definition bound_lt (b : bound) (arg : value) : option bool :=
  match number_of_value arg with
  | Some x => Some (number_ltb (number_of_bound b) x)
  | None => None
  end.

(** [check_bound(cls, arg_name, arg, min_bound, max_bound)]:
    [if (min_bound is not None and min_bound > arg) or
        (max_bound is not None and max_bound < arg): raise ...]. *)
Definition check_bound (arg_name : string) (arg : value)
           (min_bound max_bound : option bound) : checked :=
  let above :=
    match max_bound with
    | None => Passed
    | Some hi =>
        match bound_lt hi arg with
        | Some true => JUIBoundsError arg_name min_bound max_bound arg
        | Some false => Passed
        | None => ComparisonTypeError
        end
    end in
  match min_bound with
  | None => above
  | Some lo =>
      match bound_gt lo arg with
      | Some true => JUIBoundsError arg_name min_bound max_bound arg
      | Some false => above
      | None => ComparisonTypeError
      end
  end.

(** [for attr in attrs: self.check_bound(attr, getattr(self, attr),
    min_bound=0)]: the body of the three [validate_positive_values]. *)
Fixpoint check_positive_values (attrs : list string) (h : list obj) (self : loc)
  : checked :=
  match attrs with
  | [] => Passed
  | attr :: attrs' =>
      match field_of h self attr with
      | None => MissingAttribute attr
      | Some v =>
          match check_bound attr v (Some (BoundInt 0)) None with
          | Passed => check_positive_values attrs' h self
          | other => other
          end
      end
  end.

(** [Payload.validate_positive_values], [SolarPanel.validate_positive_values]
    and [Battery.validate_positive_values]. *)
Definition Payload_validate_positive_values :=
  check_positive_values ["fov_cross"; "fov_along"].

Definition SolarPanel_validate_positive_values :=
  check_positive_values ["voltage"; "surface_area"; "cell_efficiency"].

Definition Battery_validate_positive_values :=
  check_positive_values ["voltage"; "capacity"; "maximum_discharge_rate";
                         "recommended_discharge_rate"].

(** A number below zero. *)
Definition negative (x : number) : bool :=
  match x with
  | NumInf s | NumFin s _ _ => s
  | _ => false
  end.

Lemma below_zero (x : number) : number_ltb x NumZero = negative x.
Proof. unfold number_ltb. destruct x as [|[]| |[] m e]; reflexivity. Qed.

(** The value passes the check against zero: a number that is not below
    zero -- zero itself and a NaN included. *)
Definition not_below_zero (v : value) : Prop :=
  exists x, number_of_value v = Some x /\ negative x = false.

Lemma check_bound_zero (arg_name : string) (v : value) :
  check_bound arg_name v (Some (BoundInt 0)) None = Passed
  <-> not_below_zero v.
Proof.
  unfold check_bound, bound_gt, not_below_zero. cbn [number_of_bound number_of_Z].
  destruct (number_of_value v) as [x|]; [|split; [discriminate | now intros [x []]]].
  rewrite below_zero. destruct (negative x) eqn:N.
  - split; [discriminate | now intros (y & [= <-] & E); congruence].
  - split; [now exists x | reflexivity].
Qed.

(** X18. What [validate_positive_values] accepts: the check passes exactly
    when every listed attribute holds a number that is not below zero --
    zero and a NaN pass, despite the name of the check. *)
Theorem positive_values_reject_only_below_zero (attrs : list string)
        (h : list obj) (self : loc) :
  check_positive_values attrs h self = Passed
  <-> Forall (fun attr => exists v, field_of h self attr = Some v
                                    /\ not_below_zero v) attrs.
Proof.
  induction attrs as [|attr attrs IH]; cbn [check_positive_values].
  - split; [constructor | reflexivity].
  - destruct (field_of h self attr) as [v|] eqn:F.
    + pose proof (check_bound_zero attr v) as C.
      destruct (check_bound attr v (Some (BoundInt 0)) None) eqn:B.
      * rewrite IH. split.
        -- intros H. constructor; [|exact H]. exists v. split; [exact F|].
           now apply C.
        -- now inversion 1.
      * split; [discriminate|]. inversion 1 as [|? ? (v' & E & N) _]; subst.
        rewrite F in E. injection E as <-. now apply C in N.
      * split; [discriminate|]. inversion 1 as [|? ? (v' & E & N) _]; subst.
        rewrite F in E. injection E as <-. now apply C in N.
      * split; [discriminate|]. inversion 1 as [|? ? (v' & E & N) _]; subst.
        rewrite F in E. injection E as <-. now apply C in N.
    + split; [discriminate|]. inversion 1 as [|? ? (v' & E & _) _]; subst.
      rewrite F in E. discriminate.
Qed.

(** X19. The exception names the first offender: when the attributes listed
    before one hold numbers that are not below zero and that one holds a
    number below zero, [validate_positive_values] raises the
    [JUIBoundsError] of that attribute, with the bounds 0 and [None] and the
    value found; the attributes after it are not looked at. *)
Theorem positive_values_report_the_first_offender
        (before after : list string) (attr : string) (h : list obj)
        (self : loc) (v : value) (x : number) :
  Forall (fun a => exists w, field_of h self a = Some w /\ not_below_zero w)
         before ->
  field_of h self attr = Some v ->
  number_of_value v = Some x ->
  negative x = true ->
  check_positive_values (before ++ attr :: after) h self
  = JUIBoundsError attr (Some (BoundInt 0)) None v.
Proof.
  intros Before F N Neg.
  induction Before as [|a before (w & Fw & Ww) _ IH]; cbn [app check_positive_values].
  - rewrite F. unfold check_bound, bound_gt. rewrite N.
    cbn [number_of_bound number_of_Z]. now rewrite below_zero, Neg.
  - rewrite Fw. now rewrite (proj2 (check_bound_zero a w) Ww).
Qed.

End Bounds.

(* ================================================================= *)
(** * Declared types: [is_optional] and [strip_typing] *)

Section TypeStripping.
Context {T : PyTime}.

(** [typing.get_origin]: the generic a declared type is made from. *)
Inductive origin : Type :=
| OriginList | OriginTuple | OriginDict
| OriginUnion.   (* typing.Union, types.UnionType *)

Definition get_origin (t : pytype) : option origin :=
  match t with
  | TListOf _ => Some OriginList
  | TTupleOf _ => Some OriginTuple
  | TDictOf _ _ => Some OriginDict
  | TUnion _ => Some OriginUnion
  | _ => None
  end.

Definition get_args (t : pytype) : list pytype :=
  match t with
  | TListOf args | TTupleOf args | TUnion args => args
  | TDictOf key_args value_args => [key_args; value_args]
  | _ => []
  end.

(** [is_optional(field_type)]. *)
Definition is_optional (field_type : pytype) : bool :=
  match get_origin field_type with
  | Some OriginUnion => type_in TNone (get_args field_type)
  | _ => false
  end.

(** The type [strip_typing] returns: a declared type, or the bare [Union]
    (the origin of a union that is not optional). *)
Inductive column : Type :=
| ColumnType (t : pytype)
| ColumnUnion.

Definition class_of_origin (o : origin) : column :=
  match o with
  | OriginList => ColumnType TList
  | OriginTuple => ColumnType TTuple
  | OriginDict => ColumnType TDict
  | OriginUnion => ColumnUnion
  end.

(** What [strip_typing] gives: the pair it returns, its [TypeError], or the
    [IndexError] of [arg_types[0]]. *)
Inductive stripped : Type :=
| Stripped (column_type : column) (column_kwargs : list (string * value))
| UnrecognizedColumnType (column_type : pytype)
| NoArgument.

Definition is_none_type (t : pytype) : bool :=
  match t with TNone => true | _ => false end.

(** [strip_typing(column_type)]. *)
Definition strip_typing (column_type : pytype) : stripped :=
  let attend_to_generics column_type column_kwargs :=
    Stripped match get_origin column_type with
             | None => ColumnType column_type
             | Some origin_column_type => class_of_origin origin_column_type
             end
             column_kwargs in
  if is_optional column_type then
    let arg_types :=
      filter (fun arg_type => negb (is_none_type arg_type))
             (get_args column_type) in
    match arg_types with
    | [] => NoArgument
    | [arg_type] => attend_to_generics arg_type [("nullable", VBool true)]
    | _ => UnrecognizedColumnType column_type
    end
  else attend_to_generics column_type [].

(** A type without parameters, or the bare [Union]. *)
Definition bare (c : column) : Prop :=
  match c with
  | ColumnType t => get_origin t = None
  | ColumnUnion => True
  end.

Lemma class_of_origin_bare (o : origin) : bare (class_of_origin o).
Proof. now destruct o. Qed.

Lemma strip_bare (t : pytype) :
  get_origin t = None -> strip_typing t = Stripped (ColumnType t) [].
Proof.
  intros G. unfold strip_typing, is_optional. now rewrite G.
Qed.

(** [strip_typing] on what it returned: a type, or the bare [Union], which
    has no origin and is not optional. *)
Definition strip_column (c : column) : stripped :=
  match c with
  | ColumnType t => strip_typing t
  | ColumnUnion => Stripped ColumnUnion []
  end.

(** The alternatives of a union besides [None]. *)
Definition other_types (column_type : pytype) : list pytype :=
  filter (fun arg_type => negb (is_none_type arg_type)) (get_args column_type).

(** X20. [strip_typing] raises its [TypeError] exactly for an optional type
    with two or more alternatives besides [None], and the [IndexError] of
    [arg_types[0]] exactly for an optional type with none; otherwise it
    returns: never a parameterised type -- a generic is replaced by its
    origin, also under [Optional] --, with the column marked nullable exactly
    when the declared type is optional, and stripping what it returned
    returns the same type, with no mark. *)
Theorem strip_typing_gives_a_bare_type (column_type : pytype) :
  (strip_typing column_type = UnrecognizedColumnType column_type
   <-> is_optional column_type = true
       /\ 2 <= List.length (other_types column_type))
  /\ (forall t, strip_typing column_type = UnrecognizedColumnType t ->
                t = column_type)
  /\ (strip_typing column_type = NoArgument
      <-> is_optional column_type = true /\ other_types column_type = [])
  /\ ((exists c column_kwargs, strip_typing column_type = Stripped c column_kwargs)
      <-> is_optional column_type = false
          \/ List.length (other_types column_type) = 1)
  /\ (forall c column_kwargs,
         strip_typing column_type = Stripped c column_kwargs ->
         bare c
         /\ (column_kwargs = [("nullable", VBool true)]
             <-> is_optional column_type = true)
         /\ (column_kwargs = [] <-> is_optional column_type = false)
         /\ strip_column c = Stripped c []).
Proof.
  assert (forall t kw,
             match get_origin t with
             | None => ColumnType t
             | Some o => class_of_origin o
             end = kw ->
             bare kw /\ strip_column kw = Stripped kw []) as Generic.
  { intros t kw <-. destruct (get_origin t) as [o|] eqn:G.
    - split; [apply class_of_origin_bare | now destruct o].
    - split; [exact G | now apply strip_bare]. }
  unfold strip_typing, other_types.
  destruct (is_optional column_type) eqn:O.
  - destruct (filter _ (get_args column_type)) as [|t [|t' ts]] eqn:F; cbn [List.length].
    + split; [split; [discriminate | intros [_ L]; lia]|].
      split; [discriminate|]. split; [now split|].
      split; [|discriminate].
      split; [now intros (c & kw & E) | intros [E|E]; discriminate].
    + split; [split; [discriminate | intros [_ L]; lia]|].
      split; [discriminate|]. split; [split; [discriminate | now intros [_ E]]|].
      split; [split; [now right | intros _; now eexists _, _]|].
      intros c kw [= <- <-].
      destruct (Generic t _ eq_refl) as [B I]. split; [exact B|].
      split; [now split|]. split; [now split | exact I].
    + split; [split; [intros _; split; [reflexivity | lia] | reflexivity]|].
      split; [now intros t0 [= <-]|]. split; [split; [discriminate | now intros [_ E]]|].
      split; [|discriminate].
      split; [now intros (c & kw & E) | intros [E|E]; [discriminate | lia]].
  - split; [split; [discriminate | now intros [E _]]|].
    split; [discriminate|]. split; [split; [discriminate | now intros [E _]]|].
    split; [split; [now left | intros _; now eexists _, _]|].
    intros c kw [= <- <-].
    destruct (Generic column_type _ eq_refl) as [B I]. split; [exact B|].
    split; [now split|]. split; [now split | exact I].
Qed.

End TypeStripping.

(* ================================================================= *)
(** * The order of numbers, and the steps of a [Propagator] *)

Section NumberOrder.

(** A finite number as a mantissa and an exponent: [mantissa * 2^exponent]. *)
Definition finite (x : number) : bool :=
  match x with
  | NumZero | NumFin _ _ _ => true
  | _ => false
  end.

Definition mantissa (x : number) : Z :=
  match x with
  | NumFin s m _ => signed_mantissa s m
  | _ => 0
  end.

Definition exponent (x : number) : Z :=
  match x with
  | NumFin _ _ e => e
  | _ => 0
  end.

Definition scaled (E : Z) (x : number) : Z :=
  (mantissa x * 2 ^ (exponent x - E))%Z.

Lemma scaled_sign (E : Z) (s : bool) (m : positive) (e : Z) :
  (E <= e)%Z ->
  (if s then scaled E (NumFin s m e) < 0 else 0 < scaled E (NumFin s m e))%Z.
Proof.
  intros L. unfold scaled. cbn [mantissa exponent].
  assert (0 < 2 ^ (e - E))%Z as P by (apply Z.pow_pos_nonneg; lia).
  destruct s; cbn [signed_mantissa].
  - apply Z.mul_neg_pos; [apply Pos2Z.neg_is_neg | exact P].
  - apply Z.mul_pos_pos; [apply Pos2Z.is_pos | exact P].
Qed.

Lemma scaled_shift (E E' : Z) (x : number) :
  (E <= E')%Z -> (E' <= exponent x)%Z ->
  scaled E x = (scaled E' x * 2 ^ (E' - E))%Z.
Proof.
  intros L L'. unfold scaled.
  replace (exponent x - E)%Z with ((exponent x - E') + (E' - E))%Z by lia.
  rewrite Z.pow_add_r by lia. ring.
Qed.

(** Two finite numbers compare as their mantissas at a common exponent. *)
Lemma number_leb_scaled (E : Z) (a b : number) :
  finite a = true -> finite b = true ->
  (E <= exponent a)%Z -> (E <= exponent b)%Z ->
  number_leb a b = (scaled E a <=? scaled E b)%Z.
Proof.
  intros Fa Fb La Lb.
  destruct a as [| |  |sa ma ea]; try discriminate;
    destruct b as [| | |sb mb eb]; try discriminate; cbn [number_leb].
  - unfold scaled. cbn. reflexivity.
  - pose proof (scaled_sign E sb mb eb Lb) as S.
    change (scaled E NumZero) with (0 * 2 ^ (0 - E))%Z. rewrite Z.mul_0_l.
    destruct sb; cbn [negb]; symmetry;
      [apply Z.leb_gt | apply Z.leb_le]; lia.
  - pose proof (scaled_sign E sa ma ea La) as S.
    change (scaled E NumZero) with (0 * 2 ^ (0 - E))%Z. rewrite Z.mul_0_l.
    destruct sa; symmetry; [apply Z.leb_le | apply Z.leb_gt]; lia.
  - cbn [exponent] in La, Lb.
    change (signed_mantissa sa ma * 2 ^ (ea - Z.min ea eb))%Z
      with (scaled (Z.min ea eb) (NumFin sa ma ea)).
    change (signed_mantissa sb mb * 2 ^ (eb - Z.min ea eb))%Z
      with (scaled (Z.min ea eb) (NumFin sb mb eb)).
    rewrite (scaled_shift E (Z.min ea eb) (NumFin sa ma ea)) by (cbn; lia).
    rewrite (scaled_shift E (Z.min ea eb) (NumFin sb mb eb)) by (cbn; lia).
    assert (0 < 2 ^ (Z.min ea eb - E))%Z as P
        by (apply Z.pow_pos_nonneg; lia).
    destruct (Z.leb_spec (scaled (Z.min ea eb) (NumFin sa ma ea))
                         (scaled (Z.min ea eb) (NumFin sb mb eb)));
      symmetry; [apply Z.leb_le | apply Z.leb_gt]; nia.
Qed.

(** [<=] on numbers is transitive. *)
Lemma number_leb_trans (a b c : number) :
  number_leb a b = true -> number_leb b c = true -> number_leb a c = true.
Proof.
  destruct (finite a) eqn:Fa; [|destruct a as [|[]| |]; try discriminate;
                                 intros H K; try discriminate H;
                                 destruct c as [|[]| |]; try reflexivity;
                                 destruct b as [|[]| |]; discriminate].
  destruct (finite c) eqn:Fc; [|destruct c as [|[]| |]; try discriminate;
                                 intros H K; try discriminate K;
                                 destruct a as [|[]| |]; try reflexivity;
                                 try discriminate;
                                 destruct b as [|[]| |]; discriminate].
  destruct (finite b) eqn:Fb.
  - set (E := Z.min (exponent a) (Z.min (exponent b) (exponent c))).
    rewrite (number_leb_scaled E a b), (number_leb_scaled E b c),
      (number_leb_scaled E a c) by (assumption || (unfold E; lia)).
    rewrite !Z.leb_le. lia.
  - destruct b as [|[]| |]; try discriminate; intros H K;
      destruct a as [| | |]; try discriminate;
      destruct c as [| | |]; discriminate.
Qed.

End NumberOrder.

Section PropagatorSteps.
Context {T : PyTime}.

Lemma py_le_numbers (a b : value) (x y : number) :
  number_of_value a = Some x -> number_of_value b = Some y ->
  py_le a b = Ok (number_leb x y).
Proof. intros A B. unfold py_le. now rewrite A, B. Qed.

Lemma number_not_none (v : value) (x : number) :
  number_of_value v = Some x -> is_none v = false.
Proof. now destruct v. Qed.

(** X21. The three assertions of [Propagator.validate_steps] amount to one
    chain: when the three steps are given as numbers, the check passes
    exactly when [0 <= min_step <= first_step <= max_step]. *)
Theorem validated_steps_are_one_chain (h : list obj) (self : loc)
        (min_step max_step first_step : value) (lo hi first : number) :
  field_of h self "min_step" = Some min_step ->
  field_of h self "max_step" = Some max_step ->
  field_of h self "first_step" = Some first_step ->
  number_of_value min_step = Some lo ->
  number_of_value max_step = Some hi ->
  number_of_value first_step = Some first ->
  validate_steps h self = Ok tt
  <-> number_leb NumZero lo = true
      /\ number_leb lo first = true
      /\ number_leb first hi = true.
Proof.
  intros Fmin Fmax Ffirst Nmin Nmax Nfirst.
  unfold validate_steps. rewrite Fmin, Fmax, Ffirst.
  rewrite (number_not_none _ _ Nmin), (number_not_none _ _ Nmax),
    (number_not_none _ _ Nfirst).
  unfold py_le3.
  rewrite (py_le_numbers (VInt 0) min_step NumZero lo eq_refl Nmin).
  rewrite (py_le_numbers min_step max_step lo hi Nmin Nmax).
  rewrite (py_le_numbers min_step first_step lo first Nmin Nfirst).
  rewrite (py_le_numbers first_step max_step first hi Nfirst Nmax).
  destruct (number_leb NumZero lo) eqn:A; cbn [must];
    [|split; [discriminate | now intros [? _]]].
  destruct (number_leb lo hi) eqn:B; cbn [must].
  - destruct (number_leb lo first) eqn:C; cbn [must];
      [|split; [discriminate | now intros (_ & ? & _)]].
    destruct (number_leb first hi) eqn:D; cbn [must];
      [now split | split; [discriminate | now intros (_ & _ & ?)]].
  - split; [discriminate|]. intros (_ & C & D).
    rewrite (number_leb_trans lo first hi C D) in B. discriminate.
Qed.

End PropagatorSteps.

(* ================================================================= *)
(** * The equality the consolidator uses *)

Section GeneratedEquality.
Context {T : PyTime}.


End GeneratedEquality.

(* ================================================================= *)
(** * These properties at concrete inputs *)

(** [Battery( **Battery.example )] with a capacity below zero, as the
    coercion leaves it. *)
Definition drained_battery : obj :=
  mk_obj "Battery"
    [ ("id", VStr "449465be-5533-40ad-9e85-bfa95b0ee39a");
      ("creation_date", VDatetime example_date);
      ("update_date", VDatetime example_date);
      ("satellite", VStr "449465be-5533-40ad-9e85-bfa95b0ee39a");
      ("voltage", VFloat 0.0);
      ("capacity", VFloat (-21000.0));
      ("maximum_discharge_rate", VFloat (-100.0));
      ("recommended_discharge_rate", VFloat 20.0) ].

Lemma positive_values_report_the_first_offender_witness :
  Battery_validate_positive_values [drained_battery] 0
  = JUIBoundsError "capacity" (Some (BoundInt 0)) None (VFloat (-21000.0)).
Proof.
  eapply (positive_values_report_the_first_offender
            ["voltage"] ["maximum_discharge_rate"; "recommended_discharge_rate"]
            "capacity" [drained_battery] 0 (VFloat (-21000.0))).
  - constructor; [|constructor]. exists (VFloat 0.0). split; [reflexivity|].
    eexists. split; reflexivity.
  - reflexivity.
  - reflexivity.
  - reflexivity.
Defined.

(** [Propagator( **Propagator.example )] with a [max_step], as the coercion
    leaves it. *)
Definition stepping_propagator : obj :=
  mk_obj "Propagator"
    [ ("id", VStr "449465be-5533-40ad-9e85-bfa95b0ee39a");
      ("creation_date", VDatetime example_date);
      ("update_date", VDatetime example_date);
      ("algorithm", VEnum "Algorithm" "DOP853" (VStr "DOP853"));
      ("averaging", VEnum "AveragingMethod" "NONE" (VStr "None"));
      ("min_step", VFloat 0.001);
      ("max_step", VFloat 600.0);
      ("first_step", VFloat 60.0);
      ("tolerances", VTuple [VFloat 0.001; VNone]) ].

Lemma validated_steps_are_one_chain_witness :
  validate_steps [stepping_propagator] 0 = Ok tt
  <-> number_leb NumZero (number_of_float 0.001) = true
      /\ number_leb (number_of_float 0.001) (number_of_float 60.0) = true
      /\ number_leb (number_of_float 60.0) (number_of_float 600.0) = true.
Proof.
  apply (validated_steps_are_one_chain [stepping_propagator] 0
           (VFloat 0.001) (VFloat 600.0) (VFloat 60.0)); reflexivity.
Defined.


(* ================================================================= *)
(** * [Maneuver.is_maneuver_manually_implemented] *)

(** [Orbit.example]. *)
Definition Orbit_example : list (value * value) :=
  orbit_kwargs example_text example_text (VFloat 0.001).

(** [self.maneuver_function(orbit)]: the class body defines
    [maneuver_function(current_orbit)] with one parameter and no [self], so
    that the call through an instance passes two arguments to a function of
    one. *)
Definition call_maneuver_function (self : loc) (current_orbit : value)
  : M value :=
  raise (TypeError
           "maneuver_function() takes 1 positional argument but 2 were given").

(** [isinstance(e, NotImplementedError)]: none of the exception classes
    met here derives from it. *)
Definition is_NotImplementedError (e : exn) : bool :=
  match e with
  | JourneyUserInputException _ _ | TypeError _ | ValueError _
  | OverflowError _ | AttributeError _ | AssertionError _ _ => false
  end.

(** [is_maneuver_manually_implemented(self)]: [try:
    self.maneuver_function(Orbit( **Orbit.example )); return True], and
    [except NotImplementedError: return False]. *)
Definition is_maneuver_manually_implemented (fuel : nat) (self : loc)
  : M value :=
  fun s =>
    match (orbit <- construct joe_classes fuel "Orbit" Orbit_example ;;
           call_maneuver_function self orbit ;;;
           ret (VBool true)) s with
    | (Raise e, s') =>
        if is_NotImplementedError e then (Ok (VBool false), s')
        else (Raise e, s')
    | other => other
    end.

Definition Orbit_example_items : list (string * value) :=
  [ ("id", VStr "449465be-5533-40ad-9e85-bfa95b0ee39a");
    ("creation_date", example_text);
    ("update_date", example_text);
    ("semi_major_axis", VFloat 7200.0);
    ("eccentricity", VFloat 0.001);
    ("inclination", VFloat 85.3);
    ("argument_of_perigee", VFloat 6.29);
    ("raan", VFloat 260.74);
    ("true_anomaly", VFloat 0.0) ].

Lemma construct_orbit_example (fuel : nat) (s : state) :
  exists s',
    construct joe_classes (3 + fuel) "Orbit" Orbit_example s
    = (Ok (VRef (List.length (heap s))), s')
    /\ heap s'
       = heap s ++ [orbit_instance example_date example_date (VFloat 0.001)].
Proof.
  change (3 + fuel) with (S (S (S fuel))).
  rewrite (construct_bound joe_classes (S (S fuel)) "Orbit" _ Orbit
             Orbit_example_items Orbit_example_items s) by reflexivity.
  rewrite (post_init_coerced (engine_at joe_classes (S (S fuel))) Orbit _
             (obj_fields (orbit_instance example_date example_date (VFloat 0.001)))
             s s) by reflexivity.
  cbv zeta. rewrite rec_consolidate_S.
  change (mk_obj (c_name Orbit)
                 (obj_fields (orbit_instance example_date example_date
                                             (VFloat 0.001))))
    with (orbit_instance example_date example_date (VFloat 0.001)).
  rewrite (consolidate_leaf joe_classes (S (S fuel)) _ (List.length (heap s))
             DefaultList _
             (orbit_instance example_date example_date (VFloat 0.001)) Orbit)
    by (try apply nth_error_new; reflexivity).
  destruct (first_equal_flat
              (heap (allocated (orbit_instance example_date example_date
                                               (VFloat 0.001)) s))
              (List.length (heap s))
              (registry_of DefaultList
                 (allocated (orbit_instance example_date example_date
                                            (VFloat 0.001)) s))
              (orbit_flat example_date example_date (VFloat 0.001) (heap s)
                          (or_intror (ex_intro _ _ (conj eq_refl eq_refl))))) as [r Hr].
  rewrite Hr.
  destruct r as [existing_obj|]; cbn [appended heap allocated];
    rewrite (orbit_checks_local _ _ _ (nth_error_new (heap s) _));
    eexists; split; reflexivity.
Qed.

(** X23. [is_maneuver_manually_implemented] never answers: in every state of
    the process it builds an [Orbit] from [Orbit.example] -- a new instance,
    consolidated against the registry -- and then raises the [TypeError] of
    the call of [maneuver_function], which is defined without [self]; the
    handler for [NotImplementedError] is never reached. *)
Theorem maneuver_check_always_raises (fuel : nat) (self : loc) (s : state) :
  exists s',
    is_maneuver_manually_implemented (3 + fuel) self s
    = (Raise (TypeError
                "maneuver_function() takes 1 positional argument but 2 were given"),
       s')
    /\ heap s'
       = heap s ++ [orbit_instance example_date example_date (VFloat 0.001)].
Proof.
  destruct (construct_orbit_example fuel s) as (s' & Run & H).
  exists s'. split; [|exact H].
  unfold is_maneuver_manually_implemented, bind. now rewrite Run.
Qed.
